(** * aiobinance: request orchestration of [BinanceAsync]

    A shallow embedding of [src/aiobinance/binance.py],
    [src/aiobinance/base/asyncExchange.py], [src/aiobinance/endpoints.py] and
    [src/aiobinance/enums.py]: payload preparation, the single request, the
    cursor paginator ([_tradesCycle]), the page fan-out paginator
    ([_paginatedRequests]), the time-range splitter
    ([_split_request_interval]) and the public calls built on them. *)

From Stdlib Require Import ZArith List String Ascii Bool Lia.
From Stdlib Require Import DecimalString DecimalPos DecimalZ.
Import ListNotations.
Local Open Scope string_scope.
Local Open Scope list_scope.
Local Open Scope Z_scope.
Set Warnings "-register-all".

(** ** Python values *)

(** The values that travel through the client: parameters, payloads and
    decoded JSON bodies.  A [dict] keeps insertion order, as Python's does;
    a string is a sequence of code points below 256. *)
Inductive pyval : Type :=
| VNone
| VBool (b : bool)
| VInt (z : Z)
| VStr (s : string)
| VList (l : list pyval)
| VDict (d : list (string * pyval)).

Definition dict : Type := list (string * pyval).

(** The exceptions a call can end with.  [TransportError] stands for
    aiohttp's [ClientError] family and [DecodeError] for the failure of
    [resp.json()]; [HTTPStatusError] is the failure the specification names
    for a status other than 200. *)
Inductive exn : Type :=
| TypeError
| KeyError
| IndexError
| ValueError
| TransportError
| DecodeError
| HTTPStatusError (code : Z) (msg : string).

Inductive result (A : Type) : Type :=
| Ok (a : A)
| Raise (e : exn).
Arguments Ok {A} a.
Arguments Raise {A} e.

Definition rbind {A B} (r : result A) (f : A -> result B) : result B :=
  match r with
  | Ok a => f a
  | Raise e => Raise e
  end.

Fixpoint rmap {A B} (f : A -> result B) (l : list A) : result (list B) :=
  match l with
  | [] => Ok []
  | x :: l' => rbind (f x) (fun y => rbind (rmap f l') (fun ys => Ok (y :: ys)))
  end.

(** ** Dictionaries *)

Module Dict.

Fixpoint get (k : string) (d : dict) : option pyval :=
  match d with
  | [] => None
  | (k', v) :: d' => if String.eqb k k' then Some v else get k d'
  end.

(** [d[k] = v]: an existing key keeps its place, a new key goes last. *)
Fixpoint set (k : string) (v : pyval) (d : dict) : dict :=
  match d with
  | [] => [(k, v)]
  | (k', v') :: d' =>
      if String.eqb k k' then (k', v) :: d' else (k', v') :: set k v d'
  end.

(** [d.pop(k, None)], the popped value thrown away. *)
Fixpoint pop (k : string) (d : dict) : dict :=
  match d with
  | [] => []
  | (k', v') :: d' =>
      if String.eqb k k' then d' else (k', v') :: pop k d'
  end.

Definition keys (d : dict) : list string := map fst d.

(** [d[k]], raising [KeyError] on a missing key. *)
Definition getitem (k : string) (d : dict) : result pyval :=
  match get k d with
  | Some v => Ok v
  | None => Raise KeyError
  end.

(** [dict(k1=v1, ...)] and dict displays: later duplicates overwrite. *)
Definition of_list (l : list (string * pyval)) : dict :=
  fold_left (fun d kv => set (fst kv) (snd kv) d) l [].

End Dict.

(** ** The operations of Python the client relies on *)

Definition py_bool (v : pyval) : bool :=
  match v with
  | VNone => false
  | VBool b => b
  | VInt z => negb (z =? 0)
  | VStr s => negb (String.length s =? 0)%nat
  | VList l => negb (List.length l =? 0)%nat
  | VDict d => negb (List.length d =? 0)%nat
  end.

(** [len(v)] where [v] has [__len__]. *)
Definition py_len (v : pyval) : option Z :=
  match v with
  | VStr s => Some (Z.of_nat (String.length s))
  | VList l => Some (Z.of_nat (List.length l))
  | VDict d => Some (Z.of_nat (List.length d))
  | _ => None
  end.

Definition len (v : pyval) : result Z :=
  match py_len v with
  | Some n => Ok n
  | None => Raise TypeError
  end.

Definition chars (s : string) : list pyval :=
  map (fun c => VStr (String c EmptyString)) (list_ascii_of_string s).

(** Iteration ([for x in v]): the items of a list, the keys of a dict, the
    characters of a string. *)
Definition iter (v : pyval) : result (list pyval) :=
  match v with
  | VList l => Ok l
  | VDict d => Ok (map VStr (Dict.keys d))
  | VStr s => Ok (chars s)
  | _ => Raise TypeError
  end.

(** Integers as operands: [bool] is a subclass of [int]. *)
Definition as_int (v : pyval) : result Z :=
  match v with
  | VInt z => Ok z
  | VBool b => Ok (if b then 1 else 0)
  | _ => Raise TypeError
  end.

(** [v[k]] for a string key. *)
Definition getitem (v : pyval) (k : string) : result pyval :=
  match v with
  | VDict d => Dict.getitem k d
  | _ => Raise TypeError
  end.

(** [v[-1]]. *)
Definition last_item (v : pyval) : result pyval :=
  match v with
  | VList l =>
      match rev l with
      | x :: _ => Ok x
      | [] => Raise IndexError
      end
  | VStr s =>
      match rev (chars s) with
      | x :: _ => Ok x
      | [] => Raise IndexError
      end
  | VDict _ => Raise KeyError
  | _ => Raise TypeError
  end.

(** CPython's length of [range(lo, hi, step)] for a positive step. *)
Definition range_len (lo hi step : Z) : nat :=
  if lo <? hi then Z.to_nat ((hi - lo - 1) / step + 1) else 0%nat.

(** [range(start, stop, step)] *)
Definition range (start stop step : Z) : result (list Z) :=
  if step =? 0 then Raise ValueError
  else if 0 <? step then
    Ok (map (fun i => start + Z.of_nat i * step)
            (seq 0 (range_len start stop step)))
  else
    Ok (map (fun i => start + Z.of_nat i * step)
            (seq 0 (range_len stop start (- step)))).

(** ** [json.dumps(v, separators=(",", ":"))] *)

Definition hex_digit (n : nat) : ascii :=
  nth n (list_ascii_of_string "0123456789abcdef") "0"%char.

Definition dq : string := String (ascii_of_nat 34) EmptyString.
Definition bs : string := String (ascii_of_nat 92) EmptyString.

(** [py_encode_basestring_ascii]: the quote and the backslash are escaped,
    the usual control characters get their short form, and whatever else
    lies outside the printable range [' '..'~'] becomes a [u]-escape in
    lower-case hexadecimal. *)
Definition json_escape_char (c : ascii) : string :=
  let n := nat_of_ascii c in
  (if (n =? 34)%nat then bs ++ dq
   else if (n =? 92)%nat then bs ++ bs
   else if (n =? 10)%nat then bs ++ "n"
   else if (n =? 13)%nat then bs ++ "r"
   else if (n =? 9)%nat then bs ++ "t"
   else if (n =? 8)%nat then bs ++ "b"
   else if (n =? 12)%nat then bs ++ "f"
   else if ((32 <=? n) && (n <=? 126))%nat then String c EmptyString
   else bs ++ "u00"
        ++ String (hex_digit (n / 16))
             (String (hex_digit (n mod 16)) EmptyString))%string.

Definition json_quote (s : string) : string :=
  (dq ++ String.concat "" (map json_escape_char (list_ascii_of_string s))
      ++ dq)%string.

Definition dec (z : Z) : string := NilZero.string_of_int (Z.to_int z).

Fixpoint json_dumps (v : pyval) : string :=
  match v with
  | VNone => "null"
  | VBool true => "true"
  | VBool false => "false"
  | VInt z => dec z
  | VStr s => json_quote s
  | VList l => ("[" ++ String.concat "," (map json_dumps l) ++ "]")%string
  | VDict d =>
      ("{" ++ String.concat ","
                (map (fun kv => match kv with
                                | (k, x) => json_quote k ++ ":" ++ json_dumps x
                                end) d) ++ "}")%string
  end.

(** ** Enumerations ([enums.py], [baseEndpoint.py], [endpoints.py]) *)

(** [EndpointSecurity] is a [Flag]: [auto()] numbers its members 1, 2, 4, 8
    and [SIGNED] is [TRADE | USER_DATA]. *)
Inductive EndpointSecurity : Type :=
| NONE | TRADE | USER_DATA | USER_STREAM | SIGNED.

Definition flag_value (f : EndpointSecurity) : Z :=
  match f with
  | NONE => 1
  | TRADE => 2
  | USER_DATA => 4
  | USER_STREAM => 8
  | SIGNED => Z.lor 2 4
  end.

(** [a in b] on flags: every bit of [a] is set in [b]. *)
Definition flag_in (a b : EndpointSecurity) : bool :=
  Z.land (flag_value a) (flag_value b) =? flag_value a.

Inductive FiatTransactionType : Type := DEPOSIT | WITHDRAW.

Definition fiat_value (t : FiatTransactionType) : string :=
  match t with
  | DEPOSIT => "0"
  | WITHDRAW => "1"
  end.

Inductive HTTPMethod : Type := GET | POST.
Inductive LimitType : Type := IP | UID | IP_SEC.

Record BaseEndpoint : Type := {
  URL : string;
  METHOD : HTTPMethod;
  SECURITY : EndpointSecurity;
  WEIGHT : Z;
  LIMIT_TYPE : LimitType
}.

Inductive Endpoints : Type :=
| COINS | USER_ASSETS | ACCOUNT_SNAPSHOT | DIVIDEND | DUSTLOG
| WITHDRAW_HISTORY | DEPOSIT_HISTORY | FIAT_ORDERS | REBATE
| CONVERT_HISTORY | AUTOINVEST_SUB | SE_FLEX_REWARDS | SPOT_TRADES
| EXCHANGE_INFO | KLINES.

Definition value (e : Endpoints) : BaseEndpoint :=
  match e with
  | COINS => Build_BaseEndpoint "/sapi/v1/capital/config/getall" GET USER_DATA 10 IP
  | USER_ASSETS => Build_BaseEndpoint "/sapi/v3/asset/getUserAsset" POST USER_DATA 5 IP
  | ACCOUNT_SNAPSHOT => Build_BaseEndpoint "/sapi/v1/accountSnapshot" GET USER_DATA 2400 IP
  | DIVIDEND => Build_BaseEndpoint "/sapi/v1/asset/assetDividend" GET USER_DATA 10 IP
  | DUSTLOG => Build_BaseEndpoint "/sapi/v1/asset/dribblet" GET USER_DATA 1 IP
  | WITHDRAW_HISTORY =>
      Build_BaseEndpoint "/sapi/v1/capital/withdraw/history" GET USER_DATA 18000 IP_SEC
  | DEPOSIT_HISTORY => Build_BaseEndpoint "/sapi/v1/capital/deposit/hisrec" GET USER_DATA 1 IP
  | FIAT_ORDERS => Build_BaseEndpoint "/sapi/v1/fiat/orders" GET USER_DATA 90000 UID
  | REBATE => Build_BaseEndpoint "/sapi/v1/rebate/taxQuery" GET USER_DATA 12000 UID
  | CONVERT_HISTORY => Build_BaseEndpoint "/sapi/v1/convert/tradeFlow" GET USER_DATA 3000 UID
  | AUTOINVEST_SUB =>
      Build_BaseEndpoint "/sapi/v1/lending/auto-invest/history/list" GET USER_DATA 1 IP
  | SE_FLEX_REWARDS =>
      Build_BaseEndpoint "/sapi/v1/simple-earn/flexible/history/rewardsRecord"
        GET USER_DATA 150 IP
  | SPOT_TRADES => Build_BaseEndpoint "/api/v3/myTrades" GET USER_DATA 20 IP
  | EXCHANGE_INFO => Build_BaseEndpoint "/api/v3/exchangeInfo" GET NONE 20 IP
  | KLINES => Build_BaseEndpoint "/api/v3/klines" GET NONE 2 IP
  end.

(** ** The world outside the client *)

(** What [self._SESSION.request(method=, url=, params=)] sends. *)
Record request : Type := {
  rq_method : HTTPMethod;
  rq_url : string;
  rq_params : dict
}.

(** What comes back: no response at all, or a status code and what
    [resp.json()] makes of the body: a value (Python's [None] for an empty
    body), or nothing when it raises (a content type that is not JSON, a
    text that is not JSON). *)
Inductive reply : Type :=
| ConnectionFailed
| Reply (status : Z) (body : option pyval).

(** The requests sent so far, oldest first. *)
Definition trace : Type := list request.

(** The collaborators the client is handed: the remote server (its answer
    may depend on what was asked before), the clock in milliseconds as a
    request reads it for its timestamp ([clock]) and as a call reads it
    for a missing end time ([wall_clock]), [urllib.parse.urlencode],
    HMAC-SHA256 in hexadecimal, [float()], and the order in which the
    tasks of a [gather] complete (task indices, earliest first). *)
Record Env : Type := {
  server : trace -> request -> reply;
  clock : trace -> Z;
  wall_clock : trace -> Z;
  urlencode : dict -> string;
  hmac_sha256_hex : string -> string -> string;
  float : pyval -> result pyval;
  arrival : list nat
}.

(** The fields of the [BinanceAsync] instance the requests read. *)
Record BinanceAsync : Type := {
  _SECRET : string;
  _RECV_WINDOW : pyval
}.

(** ** Effects: a state-and-exception monad over the trace *)

Definition M (A : Type) : Type := trace -> result A * trace.

Definition ret {A} (a : A) : M A := fun t => (Ok a, t).

Definition lift {A} (r : result A) : M A := fun t => (r, t).

Definition bind {A B} (m : M A) (f : A -> M B) : M B :=
  fun t =>
    match m t with
    | (Ok a, t') => f a t'
    | (Raise e, t') => (Raise e, t')
    end.

Notation "x <- m ;; k" := (bind m (fun x => k))
  (at level 61, m at next level, right associativity).

(** ** Tasks and the objects they share *)

(** The dict objects alive during one call, by address.  A coroutine object
    holds the address of the dict it was called with, not a copy of it. *)
Definition heap : Type := list dict.

Definition alloc (d : dict) (h : heap) : nat * heap :=
  (List.length h, h ++ [d]).

Definition load (a : nat) (h : heap) : dict := nth a h [].

Fixpoint store (a : nat) (d : dict) (h : heap) : heap :=
  match h, a with
  | [], _ => []
  | _ :: h', O => d :: h'
  | x :: h', S a' => x :: store a' d h'
  end.

Record coroutine : Type := {
  co_body : dict -> M pyval;
  co_arg : nat
}.

(** [create_task] only schedules the coroutine: its body takes its first
    step when the creator next yields to the event loop, and reads the dict
    as it is then. *)
Definition create_task (co : coroutine) : coroutine := co.

Definition start (h : heap) (co : coroutine) : M pyval :=
  co_body co (load (co_arg co) h).

(** Every task runs to its end, whether or not another one fails. *)
Fixpoint run_tasks {A} (ts : list (M A)) (t : trace) : list (result A) * trace :=
  match ts with
  | [] => ([], t)
  | m :: ts' =>
      let (r, t1) := m t in
      let (rs, t2) := run_tasks ts' t1 in
      (r :: rs, t2)
  end.

(** The exception of the task that fails first, in completion order. *)
Fixpoint first_failure {A} (order : list nat) (rs : list (result A)) : option exn :=
  match order with
  | [] => None
  | i :: order' =>
      match nth_error rs i with
      | Some (Raise e) => Some e
      | _ => first_failure order' rs
      end
  end.

(** [await gather] over the tasks, the creator yielding with the heap [h]: the
    results come in the order of the tasks; the first exception to happen
    is the one raised. *)
Definition join {A} (order : list nat) (rs : list (result A)) : result (list A) :=
  match first_failure order rs with
  | Some e => Raise e
  | None => rmap (fun r => r) rs
  end.

Definition gather (env : Env) (h : heap) (tasks : list coroutine) : M (list pyval) :=
  fun t =>
    let (rs, t') := run_tasks (map (start h) tasks) t in
    (join (arrival env) rs, t').

(** A [for] loop whose body may raise. *)
Fixpoint for_each {S X} (body : S -> X -> result S) (xs : list X) (s : S) : result S :=
  match xs with
  | [] => Ok s
  | x :: xs' => rbind (body s x) (for_each body xs')
  end.

(** ** [AsyncExchange] ([base/asyncExchange.py]) *)

(** The result is [None] for 200: the function then falls off its end. *)
Definition _checkHTTPErrors (code : Z) : option string :=
  if negb (code =? 200) then
    Some (if code =? 400 then
            "Bad request. Need to send the request with GET / POST (must be capitalized)"
          else if code =? 401 then
            "Unauthorized. 1. Invalid API Key; 2. Need to put authentication params in the request header"
          else if code =? 403 then
            "Forbidden request. Possible causes: 1. IP rate limit breached; 2. You send GET request with an empty json body"
          else if code =? 404 then
            "Cannot find path. Possible causes: 1. Wrong path"
          else if code =? 405 then
            "Method Not Allowed. You tried to access the resource with an invalid method"
          else if code =? 500 then
            "Internal Server Error. Try again later"
          else if code =? 503 then
            "Service Unavailable. Possible causes: 1. Maintenance. Try again later"
          else "Unknown error.")
  else None.

(** Times are taken as integers of milliseconds, which [_timestamp] passes
    through; the conversion of [datetime] objects is left out. *)
Definition _timestamp (date : Z) : Z := date.

Definition TIME_INTERVAL : dict :=
  Dict.of_list [("s", VInt 1000); ("m", VInt 60000); ("h", VInt 3600000);
                ("d", VInt 86400000); ("w", VInt 604800000);
                ("M", VInt 2592000000)].

Definition is_digit (c : ascii) : bool :=
  let n := nat_of_ascii c in ((48 <=? n) && (n <=? 57))%nat.

Definition is_upper (c : ascii) : bool :=
  let n := nat_of_ascii c in ((65 <=? n) && (n <=? 90))%nat.

Definition is_lower (c : ascii) : bool :=
  let n := nat_of_ascii c in ((97 <=? n) && (n <=? 122))%nat.

Definition is_letter (c : ascii) : bool := is_upper c || is_lower c.

Definition to_upper (c : ascii) : ascii :=
  if is_lower c then ascii_of_nat (nat_of_ascii c - 32) else c.

Definition to_lower (c : ascii) : ascii :=
  if is_upper c then ascii_of_nat (nat_of_ascii c + 32) else c.

Definition map_string (f : ascii -> ascii) (s : string) : string :=
  string_of_list_ascii (map f (list_ascii_of_string s)).

Fixpoint drop_until (p : ascii -> bool) (l : list ascii) : list ascii :=
  match l with
  | [] => []
  | c :: l' => if p c then l else drop_until p l'
  end.

Fixpoint take_while (p : ascii -> bool) (l : list ascii) : list ascii :=
  match l with
  | [] => []
  | c :: l' => if p c then c :: take_while p l' else []
  end.

(** [int()] of a run of decimal digits. *)
Definition int_of_digits (l : list ascii) : Z :=
  fold_left (fun acc c => 10 * acc + Z.of_nat (nat_of_ascii c - 48)) l 0.

(** [search] returns [None] where nothing matches, and subscripting [None]
    raises [TypeError]; a unit missing from [TIME_INTERVAL] raises
    [KeyError]. *)
Definition _timeInterval (tf : string) : result Z :=
  let cs := list_ascii_of_string tf in
  match take_while is_digit (drop_until is_digit cs) with
  | [] => Raise TypeError
  | ds =>
      let num := int_of_digits ds in
      match drop_until is_letter cs with
      | [] => Raise TypeError
      | c :: _ =>
          let timeInterval :=
            if existsb (Ascii.eqb c) (list_ascii_of_string "SHDW")
            then to_lower c else c in
          rbind (Dict.getitem (String timeInterval EmptyString) TIME_INTERVAL)
                (fun unit => rbind (as_int unit) (fun u => Ok (num * u)))
      end
  end.

(** ** [BinanceAsync] ([binance.py]) *)

Section Client.

Variable env : Env.
Variable self : BinanceAsync.

Definition _encrypt (msg : string) : string :=
  hmac_sha256_hex env (_SECRET self) msg.

Definition _sign (params : dict) : string :=
  _encrypt (urlencode env params).

(** [re.sub] raises [TypeError] on anything but a string. *)
Definition _prepareSymbol (symbol : pyval) : result string :=
  match symbol with
  | VStr s =>
      Ok (map_string to_upper
            (string_of_list_ascii
               (filter (fun c => is_letter c || is_digit c)
                       (list_ascii_of_string s))))
  | _ => Raise TypeError
  end.

(** [str(v)] of a boolean. *)
Definition str_bool (b : bool) : string := if b then "True" else "False".

(** One turn of the loop over [params.items()]. *)
Definition prepare_item (payload : dict) (kv : string * pyval) : dict :=
  let (k, v) := kv in
  match v with
  | VNone => payload
  | _ =>
      match py_len v with
      | Some 0 => payload
      | _ =>
          match v with
          | VBool b => Dict.set k (VStr (map_string to_lower (str_bool b))) payload
          | VList _ => Dict.set k (VStr (json_dumps v)) payload
          | _ => Dict.set k v payload
          end
      end
  end.

(** [now] is the clock reading [int(datetime.now().timestamp() * 1000)]. *)
Definition _preparePayload (params : option dict) (security : EndpointSecurity)
           (now : Z) : dict :=
  let payload :=
    match params with
    | Some items => fold_left prepare_item items []
    | None => []
    end in
  if flag_in security SIGNED then
    let payload := Dict.set "recvWindow" (_RECV_WINDOW self) payload in
    let payload := Dict.set "timestamp" (VStr (dec now)) payload in
    Dict.set "signature" (VStr (_sign payload)) payload
  else payload.

(** The wait on the endpoint's rate limiter ([async with baseEndpoint],
    backed by the aiolimiter package) delays the request and leaves what
    is sent untouched; it is not part of the model.  The values of the
    payload are taken to be what aiohttp puts in a query (strings and
    numbers).  The status of the response is not looked at. *)
Definition _request (endPoint : Endpoints) (params : option dict) : M pyval :=
  fun t =>
    let baseEndpoint := value endPoint in
    let payload := _preparePayload params (SECURITY baseEndpoint) (clock env t) in
    let rq := {| rq_method := METHOD baseEndpoint;
                 rq_url := URL baseEndpoint;
                 rq_params := payload |} in
    match server env t rq with
    | ConnectionFailed => (Raise TransportError, t ++ [rq])
    | Reply _ None => (Raise DecodeError, t ++ [rq])
    | Reply _ (Some data) => (Ok data, t ++ [rq])
    end.

(** [until or datetime.now()]: a missing or zero [until] is the present. *)
Definition _parseTime (since : Z) (until : option Z) : M (Z * Z) :=
  fun t =>
    let start_ms := _timestamp since in
    let until :=
      match until with
      | Some u => if u =? 0 then wall_clock env t else u
      | None => wall_clock env t
      end in
    (Ok (start_ms, _timestamp until), t).

(** *** The cursor paginator *)

(** The [while not enforceLimit] loop, [fuel] bounding its turns;
    [None] when the fuel runs out before the loop ends. *)
Fixpoint trades_loop (fuel : nat) (enforceLimit : bool) (limit : pyval)
         (payload : dict) (data : list pyval) (resp : pyval)
  : M (option pyval) :=
  if enforceLimit then ret (Some (VList data))
  else
    match fuel with
    | O => ret None
    | S fuel' =>
        items <- lift (iter resp) ;;
        let data := data ++ items in
        n <- lift (len resp) ;;
        lim <- lift (as_int limit) ;;
        if n <? lim then ret (Some (VList data))
        else
          item <- lift (last_item resp) ;;
          id <- lift (rbind (getitem item "id") as_int) ;;
          let payload := Dict.set "fromId" (VInt (id + 1)) payload in
          let payload := Dict.pop "startTime" payload in
          resp <- _request SPOT_TRADES (Some payload) ;;
          trades_loop fuel' enforceLimit limit payload data resp
    end.

Definition _tradesCycle (fuel : nat) (params : dict) (enforceLimit : bool)
  : M (option pyval) :=
  let payload := params in
  limit <- lift (Dict.getitem "limit" params) ;;
  resp <- _request SPOT_TRADES (Some payload) ;;
  endTime <- lift (Dict.getitem "endTime" payload) ;;
  if py_bool endTime then ret (Some resp)
  else trades_loop fuel enforceLimit limit payload [] resp.

(** *** Klines *)

Definition stringField : list nat := [1; 2; 3; 4; 5; 7; 9; 10]%nat.

Definition convert_kline (kline : pyval) : result pyval :=
  rbind (iter kline) (fun fields =>
  rbind (rmap (fun p : nat * pyval =>
                 if existsb (Nat.eqb (fst p)) stringField
                 then float env (snd p) else Ok (snd p))
              (combine (seq 0 (List.length fields)) fields))
        (fun out => Ok (VList out))).

Definition _baseKlines (params : dict) : M pyval :=
  klineList <- _request KLINES (Some params) ;;
  rows <- lift (iter klineList) ;;
  klines <- lift (rmap convert_kline rows) ;;
  ret (VList klines).

(** A coroutine object for [func(endPoint, payload)], the dict passed by
    reference. *)
Definition call (func : Endpoints -> option dict -> M pyval)
           (endPoint : Endpoints) (payload : nat) : coroutine :=
  {| co_body := fun d => func endPoint (Some d); co_arg := payload |}.

(** One turn of the loop of [klines]: a new dict for every task. *)
Definition klines_turn (symbol timeframe timezone : string) (limit END_MS STEP : Z)
           (st : heap * list coroutine) (start : Z) : heap * list coroutine :=
  let (h, tasks) := st in
  let end_ := Z.min END_MS (start + STEP) in
  let (params, h) :=
    alloc (Dict.of_list
             [("symbol", VStr symbol); ("interval", VStr timeframe);
              ("startTime", VInt start); ("endTime", VInt end_);
              ("timeZone", VStr timezone); ("limit", VInt limit)]) h in
  (h, tasks ++ [create_task {| co_body := _baseKlines; co_arg := params |}]).

Definition klines (symbol : pyval) (timeframe : string) (since : Z)
           (until : option Z) (timezone : string) (limit : Z) : M pyval :=
  symbol <- lift (_prepareSymbol symbol) ;;
  times <- _parseTime since until ;;
  let (START_MS, END_MS) := times : Z * Z in
  BASE_STEP <- lift (_timeInterval timeframe) ;;
  let STEP := BASE_STEP * limit in
  starts <- lift (range START_MS (END_MS + BASE_STEP) (STEP + BASE_STEP)) ;;
  let (h, tasks) :=
    fold_left (klines_turn symbol timeframe timezone limit END_MS STEP)
              starts ([], []) in
  klines <- gather env h tasks ;;
  ret (VList klines).

(** *** The page fan-out paginator *)

(** One turn of the loop of [_paginatedRequests]: the page number is
    bumped in the shared dict and a task is created on that same dict. *)
Definition page_turn (endPoint : Endpoints) (payload : nat) (pageKey : string)
           (st : heap * list coroutine) (_ : Z)
  : result (heap * list coroutine) :=
  let (h, tasks) := st in
  rbind (rbind (Dict.getitem pageKey (load payload h)) as_int)
        (fun page =>
           let h := store payload
                      (Dict.set pageKey (VInt (page + 1)) (load payload h)) h in
           Ok (h, tasks ++ [create_task (call _request endPoint payload)])).

Definition _paginatedRequests (endPoint : Endpoints) (params : dict)
           (rowsKey pageKey dataKey totalKey : string) : M pyval :=
  (* payload = params.copy(): the one dict every request below is given *)
  let (payload, h) := alloc params [] in
  itemsPerRequest <- lift (Dict.getitem rowsKey (load payload h)) ;;
  let h := store payload (Dict.set pageKey (VInt 1) (load payload h)) h in
  resp <- _request endPoint (Some (load payload h)) ;;
  data <- lift (rbind (getitem resp dataKey) iter) ;;
  total <- lift (rbind (getitem resp totalKey) as_int) ;;
  step <- lift (as_int itemsPerRequest) ;;
  turns <- lift (range step (total + 1) step) ;;
  st <- lift (for_each (page_turn endPoint payload pageKey) turns (h, [])) ;;
  let (h, tasks) := st : heap * list coroutine in
  resp <- gather env h tasks ;;
  rest <- lift (rmap (fun r => rbind (getitem r dataKey) iter) resp) ;;
  ret (VList (data ++ List.concat rest)).

(** *** The time-range splitter *)

(** One turn of the loop of [_split_request_interval]: the bounds of the
    slice are written into the shared dict and a task is created on that
    same dict. *)
Definition split_turn (func : Endpoints -> option dict -> M pyval)
           (endpoint : Endpoints) (payload : nat) (END_MS maxRange : Z)
           (st : heap * list coroutine) (start : Z) : heap * list coroutine :=
  let (h, tasks) := st in
  let h := store payload (Dict.set "startTime" (VInt start) (load payload h)) h in
  let h := store payload
             (Dict.set "endTime" (VInt (Z.min END_MS (start + maxRange)))
                       (load payload h)) h in
  (h, tasks ++ [create_task (call func endpoint payload)]).

Definition _split_request_interval (endpoint : Endpoints) (maxRange : Z)
           (params : dict) (func : option (Endpoints -> option dict -> M pyval))
  : M pyval :=
  START_MS <- lift (Dict.getitem "startTime" params) ;;
  END_MS <- lift (Dict.getitem "endTime" params) ;;
  let func := match func with Some f => f | None => _request end in
  (* payload = params.copy(): the one dict every task below is given *)
  let (payload, h) := alloc params [] in
  (* range() wants integers *)
  lo <- lift (as_int START_MS) ;;
  hi <- lift (as_int END_MS) ;;
  starts <- lift (range lo hi maxRange) ;;
  let (h, tasks) :=
    fold_left (split_turn func endpoint payload hi maxRange) starts (h, []) in
  resp <- gather env h tasks ;;
  data <- lift (rmap iter resp) ;;
  ret (VList (List.concat data)).

(** *** Public calls *)

(** The dict display is evaluated twice in the source, the second value
    replacing the first; the key [symboslStatus] is the source's. *)
Definition marketInfo (symbol symbols permissions show_permission_sets
                       symbol_status : pyval) : M pyval :=
  let display : result dict :=
    rbind (_prepareSymbol symbol) (fun s =>
    rbind (iter symbols) (fun each =>
    rbind (rmap _prepareSymbol each) (fun ss =>
    Ok (Dict.of_list
          [("symbol", VStr s); ("symbols", VList (map VStr ss));
           ("permissions", permissions);
           ("showPermissionSets", show_permission_sets);
           ("symboslStatus", symbol_status)])))) in
  _ <- lift display ;;
  params <- lift display ;;
  _request EXCHANGE_INFO (Some params).

(** [x if x else None] on an optional time. *)
Definition time_or_none (x : option Z) : pyval :=
  match x with
  | Some z => if z =? 0 then VNone else VInt (_timestamp z)
  | None => VNone
  end.

Definition spotTrades (fuel : nat) (symbol : pyval) (since until : option Z)
           (orderId fromId : pyval) (limit : Z) (enforceLimit : bool)
  : M (option pyval) :=
  let START_MS := time_or_none since in
  let END_MS := time_or_none until in
  symbol <- lift (_prepareSymbol symbol) ;;
  let params :=
    Dict.of_list [("symbol", VStr symbol); ("orderId", orderId);
                  ("startTime", START_MS); ("endTime", END_MS);
                  ("fromId", fromId); ("limit", VInt limit)] in
  if py_bool START_MS && py_bool END_MS then
    let INTERVAL := 1000 * 60 * 60 * 24 in
    data <- _split_request_interval SPOT_TRADES INTERVAL params None ;;
    ret (Some data)
  else _tradesCycle fuel params enforceLimit.

Definition fiat_deposit_withdrawal (transactionType : FiatTransactionType)
           (since : Z) (until : option Z) (limit : Z) : M pyval :=
  times <- _parseTime since until ;;
  let (start_ms, end_ms) := times : Z * Z in
  let payload :=
    Dict.of_list [("transactionType", VStr (fiat_value transactionType));
                  ("beginTime", VInt start_ms); ("endTime", VInt end_ms);
                  ("rows", VInt limit)] in
  _paginatedRequests FIAT_ORDERS payload "rows" "page" "data" "total".

End Client.

(** ** Test servers *)

Definition demo_self : BinanceAsync := {| _SECRET := "k"; _RECV_WINDOW := VStr "5000" |}.

Definition demo_env (srv : trace -> request -> reply) (order : list nat) : Env :=
  {| server := srv;
     clock := fun _ => 1700000000000;
     wall_clock := fun _ => 1699999999000;
     urlencode := fun _ => "";
     hmac_sha256_hex := fun _ _ => "";
     float := fun v => Ok v;
     arrival := order |}.

Definition echo_start (t : trace) (rq : request) : reply :=
  match Dict.get "startTime" (rq_params rq) with
  | Some v => Reply 200 (Some (VList [v]))
  | None => Reply 200 (Some (VList []))
  end.

(** ** Dictionaries: lookup after update *)

Lemma get_set_same (k : string) (v : pyval) (d : dict) :
  Dict.get k (Dict.set k v d) = Some v.
Proof.
  induction d as [|[k' v'] d IH]; simpl.
  - now rewrite String.eqb_refl.
  - destruct (String.eqb k k') eqn:E; simpl; rewrite E; auto.
Qed.

Lemma get_set_other (k k' : string) (v : pyval) (d : dict) :
  k <> k' -> Dict.get k (Dict.set k' v d) = Dict.get k d.
Proof.
  intros Hne. induction d as [|[k0 v0] d IH]; simpl.
  - destruct (String.eqb_spec k k'); congruence.
  - destruct (String.eqb_spec k' k0) as [->|Hk]; simpl.
    + destruct (String.eqb_spec k k0); congruence.
    + destruct (String.eqb_spec k k0); auto.
Qed.

Lemma get_none_not_in (k : string) (d : dict) :
  ~ In k (Dict.keys d) -> Dict.get k d = None.
Proof.
  induction d as [|[k' v'] d IH]; simpl; auto.
  intros H. destruct (String.eqb_spec k k') as [->|Hk].
  - exfalso; auto.
  - apply IH. intros Hin; apply H; auto.
Qed.

(** ** Compact JSON, read back *)

(** What "compact JSON text" means is said here by a reader written from
    the grammar of JSON, not from [json_dumps]: [json_loads text] is the
    value a text denotes when the text is JSON with nothing between its
    tokens, no space after a comma or a colon nor anywhere else outside a
    string.  The values have integers only, so no other number is read;
    the members of an object are kept as they are written. *)

(** [l] without the prefix [p], where it starts with it. *)
Fixpoint strip (p : list ascii) (l : list ascii) : option (list ascii) :=
  match p, l with
  | [], _ => Some l
  | a :: p', b :: l' => if Ascii.eqb a b then strip p' l' else None
  | _ :: _, [] => None
  end.

Definition hex_val (c : ascii) : option nat :=
  let n := nat_of_ascii c in
  if ((48 <=? n) && (n <=? 57))%nat then Some (n - 48)%nat
  else if ((97 <=? n) && (n <=? 102))%nat then Some (n - 87)%nat
  else if ((65 <=? n) && (n <=? 70))%nat then Some (n - 55)%nat
  else None.

(** The character the letter after a backslash stands for. *)
Definition unescape (c : ascii) : option ascii :=
  let n := nat_of_ascii c in
  if (n =? 34)%nat then Some c
  else if (n =? 92)%nat then Some c
  else if (n =? 47)%nat then Some c
  else if Ascii.eqb c "b" then Some (ascii_of_nat 8)
  else if Ascii.eqb c "f" then Some (ascii_of_nat 12)
  else if Ascii.eqb c "n" then Some (ascii_of_nat 10)
  else if Ascii.eqb c "r" then Some (ascii_of_nat 13)
  else if Ascii.eqb c "t" then Some (ascii_of_nat 9)
  else None.

(** A string from after its opening quote to its closing quote: an
    escape, a [u]-escape of a code point below 256, or a character that is
    not a control character. *)
Fixpoint read_string (l : list ascii) : option (string * list ascii) :=
  match l with
  | [] => None
  | c :: l1 =>
      let n := nat_of_ascii c in
      if (n =? 34)%nat then Some (EmptyString, l1)
      else if (n =? 92)%nat then
        match l1 with
        | [] => None
        | e :: l2 =>
            if Ascii.eqb e "u" then
              match l2 with
              | z1 :: z2 :: h1 :: h2 :: l3 =>
                  if Ascii.eqb z1 "0" && Ascii.eqb z2 "0" then
                    match hex_val h1, hex_val h2, read_string l3 with
                    | Some a, Some b, Some (s, rest) =>
                        Some (String (ascii_of_nat (16 * a + b)) s, rest)
                    | _, _, _ => None
                    end
                  else None
              | _ => None
              end
            else
              match unescape e, read_string l2 with
              | Some x, Some (s, rest) => Some (String x s, rest)
              | _, _ => None
              end
        end
      else if (32 <=? n)%nat then
        match read_string l1 with
        | Some (s, rest) => Some (String c s, rest)
        | None => None
        end
      else None
  end.

Definition is_num_char (c : ascii) : bool := is_digit c || Ascii.eqb c "-".

(** An integer: the longest run of digits and signs, which has to be the
    decimal of a number as it is written without a sign before zero and
    without leading zeros. *)
Definition read_int (l : list ascii) : option (Z * list ascii) :=
  let token := take_while is_num_char l in
  match NilZero.int_of_string (string_of_list_ascii token) with
  | Some d =>
      let z := Z.of_int d in
      if String.eqb (NilZero.string_of_int (Z.to_int z))
                    (string_of_list_ascii token)
      then Some (z, skipn (List.length token) l)
      else None
  | None => None
  end.

(** A value, the items of an array after its bracket, and the members of
    an object after its brace; [fuel] bounds the nesting and the number of
    items, and the length of the text is always enough. *)
Fixpoint read_value (fuel : nat) (l : list ascii) {struct fuel}
  : option (pyval * list ascii) :=
  match fuel with
  | O => None
  | S fuel =>
      match l with
      | [] => None
      | c :: l1 =>
          if is_num_char c then
            match read_int l with
            | Some (z, rest) => Some (VInt z, rest)
            | None => None
            end
          else if (nat_of_ascii c =? 34)%nat then
            match read_string l1 with
            | Some (s, rest) => Some (VStr s, rest)
            | None => None
            end
          else if Ascii.eqb c "[" then
            match strip ["]"%char] l1 with
            | Some rest => Some (VList [], rest)
            | None =>
                match read_items fuel l1 with
                | Some (vs, rest) => Some (VList vs, rest)
                | None => None
                end
            end
          else if Ascii.eqb c "{" then
            match strip ["}"%char] l1 with
            | Some rest => Some (VDict [], rest)
            | None =>
                match read_members fuel l1 with
                | Some (kvs, rest) => Some (VDict kvs, rest)
                | None => None
                end
            end
          else
            match strip (list_ascii_of_string "null") l with
            | Some rest => Some (VNone, rest)
            | None =>
                match strip (list_ascii_of_string "true") l with
                | Some rest => Some (VBool true, rest)
                | None =>
                    match strip (list_ascii_of_string "false") l with
                    | Some rest => Some (VBool false, rest)
                    | None => None
                    end
                end
            end
      end
  end
with read_items (fuel : nat) (l : list ascii) {struct fuel}
  : option (list pyval * list ascii) :=
  match fuel with
  | O => None
  | S fuel =>
      match read_value fuel l with
      | Some (v, c :: rest) =>
          if Ascii.eqb c "," then
            match read_items fuel rest with
            | Some (vs, rest') => Some (v :: vs, rest')
            | None => None
            end
          else if Ascii.eqb c "]" then Some ([v], rest)
          else None
      | _ => None
      end
  end
with read_members (fuel : nat) (l : list ascii) {struct fuel}
  : option (list (string * pyval) * list ascii) :=
  match fuel with
  | O => None
  | S fuel =>
      match l with
      | q :: l1 =>
          if (nat_of_ascii q =? 34)%nat then
            match read_string l1 with
            | Some (k, colon :: l2) =>
                if Ascii.eqb colon ":" then
                  match read_value fuel l2 with
                  | Some (v, c :: rest) =>
                      if Ascii.eqb c "," then
                        match read_members fuel rest with
                        | Some (kvs, rest') => Some ((k, v) :: kvs, rest')
                        | None => None
                        end
                      else if Ascii.eqb c "}" then Some ([(k, v)], rest)
                      else None
                  | _ => None
                  end
                else None
            | _ => None
            end
          else None
      | [] => None
      end
  end.

(** [json.loads] of a compact text: one value and nothing after it. *)
Definition json_loads (text : string) : option pyval :=
  let l := list_ascii_of_string text in
  match read_value (List.length l) l with
  | Some (v, []) => Some v
  | _ => None
  end.

(** Case analysis on a character, all 256 of them. *)
Ltac each_ascii c :=
  destruct c as [[] [] [] [] [] [] [] []].

Lemma list_ascii_app (a b : string) :
  list_ascii_of_string (a ++ b)%string
  = list_ascii_of_string a ++ list_ascii_of_string b.
Proof. induction a as [|c a IH]; simpl; [|rewrite IH]; reflexivity. Qed.

Lemma take_while_all (p : ascii -> bool) (ds rest : list ascii) :
  forallb p ds = true ->
  take_while p (ds ++ rest) = ds ++ take_while p rest.
Proof.
  induction ds as [|d ds IH]; simpl; auto.
  intros H. apply andb_prop in H as [Hd Hds]. now rewrite Hd, IH.
Qed.

(** *** What is written is read back *)

(** Induction on values, through the lists and dicts they hold. *)
Section PyvalInd.

Variable P : pyval -> Prop.
Hypothesis HNone : P VNone.
Hypothesis HBool : forall b, P (VBool b).
Hypothesis HInt : forall z, P (VInt z).
Hypothesis HStr : forall s, P (VStr s).
Hypothesis HList : forall l, Forall P l -> P (VList l).
Hypothesis HDict : forall d, Forall (fun kv => P (snd kv)) d -> P (VDict d).

Fixpoint pyval_nested_ind (v : pyval) : P v :=
  match v with
  | VNone => HNone
  | VBool b => HBool b
  | VInt z => HInt z
  | VStr s => HStr s
  | VList l =>
      HList l ((fix items (l : list pyval) : Forall P l :=
                  match l with
                  | [] => Forall_nil P
                  | x :: l' => Forall_cons x (pyval_nested_ind x) (items l')
                  end) l)
  | VDict d =>
      HDict d ((fix members (d : list (string * pyval))
                  : Forall (fun kv => P (snd kv)) d :=
                  match d with
                  | [] => Forall_nil _
                  | kv :: d' =>
                      Forall_cons kv (pyval_nested_ind (snd kv)) (members d')
                  end) d)
  end.

End PyvalInd.

(** The characters of a text. *)
Definition text_of (v : pyval) : list ascii := list_ascii_of_string (json_dumps v).

(** What may follow a value: the end, or a character no number holds. *)
Definition delimited (rest : list ascii) : bool :=
  match rest with
  | [] => true
  | c :: _ => negb (is_num_char c)
  end.

Lemma read_string_escape (c : ascii) (tl : list ascii) :
  read_string (list_ascii_of_string (json_escape_char c) ++ tl)
  = match read_string tl with
    | Some (s, rest) => Some (String c s, rest)
    | None => None
    end.
Proof. each_ascii c; reflexivity. Qed.

Lemma concat_empty_cons (x : string) (xs : list string) :
  String.concat "" (x :: xs) = (x ++ String.concat "" xs)%string.
Proof.
  destruct xs as [|y xs]; simpl; [|reflexivity].
  induction x as [|c x IH]; simpl; [|rewrite <- IH]; reflexivity.
Qed.

Lemma read_string_escaped (cs : list ascii) (rest : list ascii) :
  read_string (list_ascii_of_string (String.concat "" (map json_escape_char cs))
               ++ ascii_of_nat 34 :: rest)
  = Some (string_of_list_ascii cs, rest).
Proof.
  induction cs as [|c cs IH]; [reflexivity|].
  cbn [map]. rewrite concat_empty_cons, list_ascii_app, <- app_assoc.
  rewrite read_string_escape, IH. reflexivity.
Qed.

Lemma text_of_quote (s : string) :
  list_ascii_of_string (json_quote s)
  = ascii_of_nat 34
      :: list_ascii_of_string
           (String.concat "" (map json_escape_char (list_ascii_of_string s)))
      ++ [ascii_of_nat 34].
Proof.
  unfold json_quote. rewrite !list_ascii_app. reflexivity.
Qed.

Lemma read_string_quote (s : string) (rest : list ascii) :
  exists body,
    list_ascii_of_string (json_quote s) = ascii_of_nat 34 :: body
    /\ read_string (body ++ rest) = Some (s, rest).
Proof.
  eexists. split; [apply text_of_quote|].
  rewrite <- app_assoc. cbn [app].
  rewrite read_string_escaped, string_of_list_ascii_of_string. reflexivity.
Qed.

(** Numbers *)

Lemma uint_num_chars (d : Decimal.uint) :
  forallb is_num_char (list_ascii_of_string (NilEmpty.string_of_uint d)) = true.
Proof. induction d; simpl; auto. Qed.

Lemma dec_num_chars (z : Z) :
  forallb is_num_char (list_ascii_of_string (dec z)) = true.
Proof.
  assert (H : forall d, forallb is_num_char
                          (list_ascii_of_string (NilZero.string_of_uint d)) = true).
  { intros d. unfold NilZero.string_of_uint.
    destruct d; try reflexivity;
      match goal with
      | |- context [NilEmpty.string_of_uint ?u] => exact (uint_num_chars u)
      end. }
  unfold dec, NilZero.string_of_int.
  destruct (Z.to_int z) as [d|d]; [apply H|].
  cbn [list_ascii_of_string forallb]. now rewrite H.
Qed.

Lemma dec_head (z : Z) :
  exists c cs, list_ascii_of_string (dec z) = c :: cs /\ is_num_char c = true.
Proof.
  pose proof (dec_num_chars z) as H.
  destruct (list_ascii_of_string (dec z)) as [|c cs] eqn:E.
  - exfalso. unfold dec, NilZero.string_of_int, NilZero.string_of_uint in E.
    destruct (Z.to_int z) as [d|d] eqn:Ez; [|discriminate].
    destruct d; try discriminate.
  - exists c, cs. split; [reflexivity|].
    simpl in H. now apply andb_prop in H as [H _].
Qed.

Lemma take_while_delimited (tok rest : list ascii) :
  forallb is_num_char tok = true -> delimited rest = true ->
  take_while is_num_char (tok ++ rest) = tok.
Proof.
  intros Htok Hrest. rewrite take_while_all by assumption.
  destruct rest as [|c rest]; simpl in *.
  - apply app_nil_r.
  - apply negb_true_iff in Hrest. rewrite Hrest. apply app_nil_r.
Qed.

Lemma skipn_length_app {A} (l rest : list A) :
  skipn (List.length l) (l ++ rest) = rest.
Proof. induction l; simpl; auto. Qed.

Lemma to_int_proper (z : Z) :
  Z.to_int z <> Decimal.Pos Decimal.Nil /\ Z.to_int z <> Decimal.Neg Decimal.Nil.
Proof.
  destruct z as [|p|p]; simpl; split; try discriminate;
    intros [= H]; now apply (DecimalPos.Unsigned.to_uint_nonnil p).
Qed.

Lemma read_int_dec (z : Z) (rest : list ascii) :
  delimited rest = true ->
  read_int (list_ascii_of_string (dec z) ++ rest) = Some (z, rest).
Proof.
  intros Hrest. unfold read_int.
  rewrite (take_while_delimited _ _ (dec_num_chars z) Hrest).
  rewrite string_of_list_ascii_of_string.
  unfold dec at 1.
  destruct (to_int_proper z) as [Hp Hn].
  rewrite (NilZero.isi _ Hp Hn).
  cbv zeta. rewrite DecimalZ.of_to.
  fold (dec z). rewrite String.eqb_refl, skipn_length_app. reflexivity.
Qed.

(** Lists and dicts *)

Lemma concat_comma_cons (x : string) (y : string) (xs : list string) :
  String.concat "," (x :: y :: xs)
  = (x ++ "," ++ String.concat "," (y :: xs))%string.
Proof. reflexivity. Qed.

Lemma read_value_S (fuel : nat) (l : list ascii) :
  read_value (S fuel) l
  = match l with
    | [] => None
    | c :: l1 =>
        if is_num_char c then
          match read_int l with
          | Some (z, rest) => Some (VInt z, rest)
          | None => None
          end
        else if (nat_of_ascii c =? 34)%nat then
          match read_string l1 with
          | Some (s, rest) => Some (VStr s, rest)
          | None => None
          end
        else if Ascii.eqb c "[" then
          match strip ["]"%char] l1 with
          | Some rest => Some (VList [], rest)
          | None =>
              match read_items fuel l1 with
              | Some (vs, rest) => Some (VList vs, rest)
              | None => None
              end
          end
        else if Ascii.eqb c "{" then
          match strip ["}"%char] l1 with
          | Some rest => Some (VDict [], rest)
          | None =>
              match read_members fuel l1 with
              | Some (kvs, rest) => Some (VDict kvs, rest)
              | None => None
              end
          end
        else
          match strip (list_ascii_of_string "null") l with
          | Some rest => Some (VNone, rest)
          | None =>
              match strip (list_ascii_of_string "true") l with
              | Some rest => Some (VBool true, rest)
              | None =>
                  match strip (list_ascii_of_string "false") l with
                  | Some rest => Some (VBool false, rest)
                  | None => None
                  end
              end
          end
    end.
Proof. reflexivity. Qed.

Lemma read_items_S (fuel : nat) (l : list ascii) :
  read_items (S fuel) l
  = match read_value fuel l with
    | Some (v, c :: rest) =>
        if Ascii.eqb c "," then
          match read_items fuel rest with
          | Some (vs, rest') => Some (v :: vs, rest')
          | None => None
          end
        else if Ascii.eqb c "]" then Some ([v], rest)
        else None
    | _ => None
    end.
Proof. reflexivity. Qed.

Lemma read_members_S (fuel : nat) (l : list ascii) :
  read_members (S fuel) l
  = match l with
    | q :: l1 =>
        if (nat_of_ascii q =? 34)%nat then
          match read_string l1 with
          | Some (k, colon :: l2) =>
              if Ascii.eqb colon ":" then
                match read_value fuel l2 with
                | Some (v, c :: rest) =>
                    if Ascii.eqb c "," then
                      match read_members fuel rest with
                      | Some (kvs, rest') => Some ((k, v) :: kvs, rest')
                      | None => None
                      end
                    else if Ascii.eqb c "}" then Some ([(k, v)], rest)
                    else None
                | _ => None
                end
              else None
          | _ => None
          end
        else None
    | [] => None
    end.
Proof. reflexivity. Qed.

(** A value is read back from its text, whatever follows it. *)
Definition reads_back (v : pyval) : Prop :=
  forall (fuel : nat) (rest : list ascii),
    (List.length (text_of v) <= fuel)%nat -> delimited rest = true ->
    read_value fuel (text_of v ++ rest) = Some (v, rest).

(** No text starts with a closing bracket or brace. *)
Definition opens (l : list ascii) : Prop :=
  exists c l', l = c :: l' /\ Ascii.eqb "]" c = false /\ Ascii.eqb "}" c = false.

Lemma text_opens (v : pyval) : opens (text_of v).
Proof.
  unfold opens, text_of. destruct v as [| [|] | z | s | l | d].
  - do 2 eexists. split; [reflexivity|split; reflexivity].
  - do 2 eexists. split; [reflexivity|split; reflexivity].
  - do 2 eexists. split; [reflexivity|split; reflexivity].
  - destruct (dec_head z) as (c & cs & E & Hc). exists c, cs.
    split; [exact E|]. revert Hc. clear. each_ascii c; intros H;
      try discriminate H; split; reflexivity.
  - do 2 eexists. split; [apply text_of_quote|split; reflexivity].
  - do 2 eexists. split; [reflexivity|split; reflexivity].
  - do 2 eexists. split; [reflexivity|split; reflexivity].
Qed.

(** The items of a list, as written between the brackets. *)
Definition items_text (l : list pyval) : list ascii :=
  list_ascii_of_string (String.concat "," (map json_dumps l)).

Lemma items_text_cons (x y : pyval) (l : list pyval) :
  items_text (x :: y :: l) = text_of x ++ ","%char :: items_text (y :: l).
Proof.
  unfold items_text, text_of. cbn [map]. rewrite concat_comma_cons.
  rewrite !list_ascii_app. reflexivity.
Qed.

Lemma items_text_one (x : pyval) : items_text [x] = text_of x.
Proof. reflexivity. Qed.

Lemma text_of_list (l : list pyval) :
  text_of (VList l) = "["%char :: items_text l ++ ["]"%char].
Proof.
  unfold text_of, items_text. cbn [json_dumps]. rewrite !list_ascii_app.
  reflexivity.
Qed.

Lemma read_items_back (l : list pyval) :
  Forall reads_back l -> l <> [] ->
  forall (fuel : nat) (rest : list ascii),
    (List.length (items_text l) < fuel)%nat ->
    read_items fuel (items_text l ++ "]"%char :: rest) = Some (l, rest).
Proof.
  induction 1 as [|x l Hx Hl IH]; [congruence|]. intros _ fuel rest Hfuel.
  destruct fuel as [|fuel]; [lia|]. rewrite read_items_S.
  destruct l as [|y l].
  - rewrite items_text_one in *.
    rewrite (Hx fuel) by (try reflexivity; lia). reflexivity.
  - rewrite items_text_cons in *. rewrite length_app in Hfuel.
    cbn [List.length] in Hfuel. rewrite <- app_assoc.
    rewrite (Hx fuel) by (try reflexivity; lia).
    cbn [app]. change (Ascii.eqb "," ",") with true. cbv iota.
    rewrite IH by (try discriminate; lia). reflexivity.
Qed.

(** The members of a dict, as written between the braces. *)
Definition member_text (kv : string * pyval) : string :=
  match kv with
  | (k, x) => (json_quote k ++ ":" ++ json_dumps x)%string
  end.

Definition members_text (d : list (string * pyval)) : list ascii :=
  list_ascii_of_string (String.concat "," (map member_text d)).

Lemma member_text_chars (k : string) (x : pyval) :
  list_ascii_of_string (member_text (k, x))
  = list_ascii_of_string (json_quote k) ++ ":"%char :: text_of x.
Proof. unfold member_text, text_of. rewrite !list_ascii_app. reflexivity. Qed.

Lemma members_text_cons (kv kv' : string * pyval) (d : list (string * pyval)) :
  members_text (kv :: kv' :: d)
  = list_ascii_of_string (member_text kv)
    ++ ","%char :: members_text (kv' :: d).
Proof.
  unfold members_text. cbn [map]. rewrite concat_comma_cons.
  rewrite !list_ascii_app. reflexivity.
Qed.

Lemma text_of_dict (d : list (string * pyval)) :
  text_of (VDict d) = "{"%char :: members_text d ++ ["}"%char].
Proof.
  unfold text_of, members_text, member_text. cbn [json_dumps].
  rewrite !list_ascii_app. reflexivity.
Qed.

Lemma quote_length (k : string) :
  (2 <= List.length (list_ascii_of_string (json_quote k)))%nat.
Proof.
  rewrite text_of_quote. cbn [List.length]. rewrite length_app. simpl. lia.
Qed.

Lemma read_members_back (d : list (string * pyval)) :
  Forall (fun kv => reads_back (snd kv)) d -> d <> [] ->
  forall (fuel : nat) (rest : list ascii),
    (List.length (members_text d) < fuel)%nat ->
    read_members fuel (members_text d ++ "}"%char :: rest) = Some (d, rest).
Proof.
  induction 1 as [|[k x] d Hx Hd IH]; [congruence|]. intros _ fuel rest Hfuel.
  destruct fuel as [|fuel]; [lia|]. rewrite read_members_S.
  cbn [snd] in Hx.
  destruct d as [|kv' d].
  - unfold members_text in *. cbn [map String.concat] in *.
    rewrite member_text_chars in *.
    destruct (read_string_quote k (":"%char :: text_of x ++ "}"%char :: rest))
      as (body & Ek & Hread).
    pose proof (quote_length k) as Hq.
    rewrite Ek in *. rewrite length_app in Hfuel. cbn [List.length] in Hfuel, Hq.
    rewrite <- !app_assoc. cbn [app].
    change (nat_of_ascii (ascii_of_nat 34) =? 34)%nat with true. cbv iota.
    rewrite Hread.
    change (Ascii.eqb ":" ":") with true. cbv iota.
    rewrite (Hx fuel) by (try reflexivity; lia). reflexivity.
  - rewrite members_text_cons in *. rewrite member_text_chars in *.
    destruct (read_string_quote k
                (":"%char :: text_of x
                   ++ ","%char :: members_text (kv' :: d) ++ "}"%char :: rest))
      as (body & Ek & Hread).
    pose proof (quote_length k) as Hq.
    rewrite Ek in *. cbn [List.length] in Hq.
    repeat (rewrite ?length_app in Hfuel; cbn [List.length] in Hfuel).
    repeat (rewrite <- ?app_assoc; cbn [app]).
    change (nat_of_ascii (ascii_of_nat 34) =? 34)%nat with true. cbv iota.
    rewrite Hread.
    change (Ascii.eqb ":" ":") with true. cbv iota.
    rewrite (Hx fuel) by (try reflexivity; lia).
    change (Ascii.eqb "," ",") with true. cbv iota.
    rewrite IH by (try discriminate; lia). reflexivity.
Qed.

Lemma strip_closing (c : ascii) (l rest : list ascii) :
  opens l -> (c = "]"%char \/ c = "}"%char) -> strip [c] (l ++ rest) = None.
Proof.
  intros (a & l' & -> & H1 & H2) [-> | ->]; cbn [strip app];
    [rewrite H1|rewrite H2]; reflexivity.
Qed.

Lemma items_opens (x : pyval) (l : list pyval) : opens (items_text (x :: l)).
Proof.
  destruct (text_opens x) as (c & l' & E & H).
  destruct l as [|y l].
  - rewrite items_text_one. now exists c, l'.
  - rewrite items_text_cons, E. eexists c, _. split; [reflexivity|exact H].
Qed.

Lemma members_opens (kv : string * pyval) (d : list (string * pyval)) :
  opens (members_text (kv :: d)).
Proof.
  destruct kv as [k x].
  assert (H : opens (list_ascii_of_string (member_text (k, x)))).
  { rewrite member_text_chars, text_of_quote. eexists _, _.
    split; [reflexivity|split; reflexivity]. }
  destruct H as (c & l' & E & H).
  destruct d as [|kv' d].
  - unfold members_text. cbn [map String.concat]. now exists c, l'.
  - rewrite members_text_cons, E. eexists c, _. split; [reflexivity|exact H].
Qed.

Lemma read_value_back (v : pyval) : reads_back v.
Proof.
  induction v as [| b | z | s | l IH | d IH] using pyval_nested_ind;
    intros fuel rest Hfuel Hrest.
  - destruct fuel as [|fuel]; [simpl in Hfuel; lia|]. reflexivity.
  - destruct fuel as [|fuel]; [destruct b; simpl in Hfuel; lia|].
    destruct b; reflexivity.
  - destruct (dec_head z) as (c & cs & E & Hc).
    unfold text_of in *. cbn [json_dumps] in *.
    destruct fuel as [|fuel]; [rewrite E in Hfuel; simpl in Hfuel; lia|].
    rewrite read_value_S.
    pose proof (read_int_dec z rest Hrest) as Hread.
    rewrite E in *. cbn [app] in *. rewrite Hc, Hread. reflexivity.
  - destruct (read_string_quote s rest) as (body & Es & Hread).
    unfold text_of in *. cbn [json_dumps] in *. rewrite Es in *.
    destruct fuel as [|fuel]; [simpl in Hfuel; lia|].
    rewrite read_value_S. cbn [app].
    change (is_num_char (ascii_of_nat 34)) with false. cbv iota.
    change (nat_of_ascii (ascii_of_nat 34) =? 34)%nat with true. cbv iota.
    rewrite Hread. reflexivity.
  - rewrite text_of_list in *. cbn [List.length] in Hfuel.
    rewrite length_app in Hfuel. cbn [List.length] in Hfuel.
    destruct fuel as [|fuel]; [lia|].
    rewrite read_value_S. cbn [app].
    change (is_num_char "[") with false. cbv iota.
    change (nat_of_ascii "[" =? 34)%nat with false. cbv iota.
    change (Ascii.eqb "[" "[") with true. cbv iota.
    rewrite <- app_assoc. cbn [app].
    destruct l as [|x l]; [reflexivity|].
    rewrite (strip_closing _ _ _ (items_opens x l)) by auto.
    rewrite read_items_back by (try discriminate; try assumption; lia).
    reflexivity.
  - rewrite text_of_dict in *. cbn [List.length] in Hfuel.
    rewrite length_app in Hfuel. cbn [List.length] in Hfuel.
    destruct fuel as [|fuel]; [lia|].
    rewrite read_value_S. cbn [app].
    change (is_num_char "{") with false. cbv iota.
    change (nat_of_ascii "{" =? 34)%nat with false. cbv iota.
    change (Ascii.eqb "{" "[") with false. cbv iota.
    change (Ascii.eqb "{" "{") with true. cbv iota.
    rewrite <- app_assoc. cbn [app].
    destruct d as [|kv d]; [reflexivity|].
    rewrite (strip_closing _ _ _ (members_opens kv d)) by auto.
    rewrite read_members_back by (try discriminate; try assumption; lia).
    reflexivity.
Qed.

(** The text [json_dumps] writes is compact JSON for the value written. *)
Lemma json_loads_dumps (v : pyval) : json_loads (json_dumps v) = Some v.
Proof.
  unfold json_loads. cbv zeta.
  pose proof (read_value_back v (List.length (text_of v)) [] (le_n _) eq_refl)
    as H.
  rewrite app_nil_r in H. unfold text_of in H. now rewrite H.
Qed.

(** ** Payload preparation *)

(** What becomes of one parameter value: nothing, or the value sent. *)
Definition sent (v : pyval) : option pyval :=
  match v with
  | VNone => None
  | VBool b => Some (VStr (if b then "true" else "false"))
  | VInt z => Some (VInt z)
  | VStr s => if (String.length s =? 0)%nat then None else Some (VStr s)
  | VList l => if (List.length l =? 0)%nat then None else Some (VStr (json_dumps v))
  | VDict d => if (List.length d =? 0)%nat then None else Some (VDict d)
  end.

Lemma of_nat_zero_eqb (n : nat) :
  match Z.of_nat n with 0 => true | _ => false end = (n =? 0)%nat.
Proof. destruct n; reflexivity. Qed.

Lemma prepare_item_get (acc : dict) (k k' : string) (v : pyval) :
  Dict.get k (prepare_item acc (k', v)) =
  if String.eqb k k'
  then match sent v with Some w => Some w | None => Dict.get k acc end
  else Dict.get k acc.
Proof.
  assert (Hs : forall w, Dict.get k (Dict.set k' w acc) =
                         if String.eqb k k' then Some w else Dict.get k acc).
  { intros w. destruct (String.eqb_spec k k') as [->|Hne].
    - apply get_set_same.
    - now apply get_set_other. }
  unfold prepare_item, sent.
  destruct v as [| b | z | s | l | d]; simpl.
  - now destruct (String.eqb k k').
  - rewrite Hs. now destruct b.
  - apply Hs.
  - destruct s as [|c s]; simpl.
    + now destruct (String.eqb k k').
    + rewrite Hs. reflexivity.
  - destruct l as [|x l]; simpl.
    + now destruct (String.eqb k k').
    + rewrite Hs. reflexivity.
  - destruct d as [|x d]; simpl.
    + now destruct (String.eqb k k').
    + rewrite Hs. reflexivity.
Qed.

Lemma fold_prepare_absent (items acc : dict) (k : string) :
  ~ In k (Dict.keys items) ->
  Dict.get k (fold_left prepare_item items acc) = Dict.get k acc.
Proof.
  revert acc. induction items as [|[k' v'] items IH]; intros acc Hin;
    cbn [fold_left]; auto.
  rewrite IH by (intros H; apply Hin; simpl; auto).
  rewrite prepare_item_get.
  destruct (String.eqb_spec k k') as [->|Hne]; auto.
  exfalso. apply Hin. simpl. auto.
Qed.

Lemma fold_prepare_present (items acc : dict) (k : string) (v : pyval) :
  NoDup (Dict.keys items) ->
  Dict.get k items = Some v ->
  Dict.get k (fold_left prepare_item items acc) =
  match sent v with Some w => Some w | None => Dict.get k acc end.
Proof.
  revert acc. induction items as [|[k' v'] items IH]; intros acc Hnd Hget;
    cbn [fold_left]; cbn [Dict.get Dict.keys map fst] in *.
  - discriminate.
  - inversion Hnd as [|? ? Hnotin Hnd']; subst.
    destruct (String.eqb_spec k k') as [->|Hne].
    + injection Hget as ->.
      rewrite fold_prepare_absent by assumption.
      rewrite prepare_item_get, String.eqb_refl. reflexivity.
    + rewrite IH by assumption.
      rewrite prepare_item_get.
      destruct (String.eqb_spec k k'); [contradiction|reflexivity].
Qed.

(** The signing fields, added last when the endpoint is signed. *)
Definition signing_field (k : string) : bool :=
  String.eqb k "recvWindow" || String.eqb k "timestamp" || String.eqb k "signature".

Lemma preparePayload_get (env : Env) (self : BinanceAsync) (items : dict)
      (security : EndpointSecurity) (now : Z) (k : string) :
  flag_in security SIGNED && signing_field k = false ->
  Dict.get k (_preparePayload env self (Some items) security now) =
  Dict.get k (fold_left prepare_item items []).
Proof.
  unfold _preparePayload, signing_field. intros H.
  destruct (flag_in security SIGNED); simpl in H; auto.
  apply orb_false_elim in H as [H H3]. apply orb_false_elim in H as [H1 H2].
  rewrite !get_set_other; auto.
  - intros ->. now rewrite String.eqb_refl in H1.
  - intros ->. now rewrite String.eqb_refl in H2.
  - intros ->. now rewrite String.eqb_refl in H3.
Qed.

(** C6, amended. Whatever the parameter mapping (its keys distinct, as in
    any dict) and whatever the key, the three signing fields of a signed
    endpoint apart: the prepared payload has no entry for a key whose
    value is [None] or of length zero (an empty list, dict or string),
    carries ["true"] or ["false"] for a boolean, for a non-empty list a
    text that is compact JSON and reads back as that list, and any other
    value as it is; it has no key the parameters lack.  On an endpoint
    that is not signed the mapping
    [{a: None, b: [], c: True, d: [1,2], e: "x"}] becomes
    [{c: "true", d: "[1,2]", e: "x"}]. *)
Theorem preparePayload_drops_and_serializes
        (env : Env) (self : BinanceAsync) (params : dict)
        (security : EndpointSecurity) (now : Z) (k : string)
        (Hkeys : NoDup (Dict.keys params))
        (Hfield : flag_in security SIGNED && signing_field k = false) :
  let payload := _preparePayload env self (Some params) security now in
  (Dict.get k params = None -> Dict.get k payload = None)
  /\ (Dict.get k params = Some VNone -> Dict.get k payload = None)
  /\ (forall v, Dict.get k params = Some v -> py_len v = Some 0 ->
                Dict.get k payload = None)
  /\ (forall b, Dict.get k params = Some (VBool b) ->
                Dict.get k payload = Some (VStr (if b then "true" else "false")))
  /\ (forall l, Dict.get k params = Some (VList l) -> l <> [] ->
                exists text, Dict.get k payload = Some (VStr text)
                             /\ json_loads text = Some (VList l))
  /\ (forall v, Dict.get k params = Some v ->
                v <> VNone -> py_len v <> Some 0 ->
                (forall b, v <> VBool b) -> (forall l, v <> VList l) ->
                Dict.get k payload = Some v)
  /\ _preparePayload env self
       (Some [("a", VNone); ("b", VList []); ("c", VBool true);
              ("d", VList [VInt 1; VInt 2]); ("e", VStr "x")]) NONE now
     = [("c", VStr "true"); ("d", VStr "[1,2]"); ("e", VStr "x")].
Proof.
  intros payload. unfold payload. rewrite preparePayload_get by assumption.
  repeat split.
  - intros Hnone. rewrite fold_prepare_absent; auto.
    intros Hin. clear - Hnone Hin.
    induction params as [|[k' v'] d IH]; simpl in *; auto.
    destruct (String.eqb_spec k k'); [discriminate|].
    destruct Hin; [congruence|auto].
  - intros Hget. now rewrite (fold_prepare_present _ _ _ _ Hkeys Hget).
  - intros v Hget Hlen. rewrite (fold_prepare_present _ _ _ _ Hkeys Hget).
    destruct v as [| b | z | s | l | d]; simpl in *; try discriminate;
      injection Hlen as Hlen; rewrite <- of_nat_zero_eqb, Hlen; reflexivity.
  - intros b Hget. now rewrite (fold_prepare_present _ _ _ _ Hkeys Hget).
  - intros l Hget Hl. rewrite (fold_prepare_present _ _ _ _ Hkeys Hget).
    exists (json_dumps (VList l)). split; [|apply json_loads_dumps].
    destruct l; [contradiction|reflexivity].
  - intros v Hget Hnone Hlen Hb Hl.
    rewrite (fold_prepare_present _ _ _ _ Hkeys Hget).
    destruct v as [| b | z | s | l | d]; simpl in *.
    + congruence.
    + exfalso. now apply (Hb b).
    + reflexivity.
    + destruct s; simpl in *; congruence.
    + exfalso. now apply (Hl l).
    + destruct d; simpl in *; congruence.
Qed.

(** ** Joining the results of concurrent tasks *)

Section Join.

Context {A : Type}.
Implicit Types (rs : list (result A)) (order : list nat).

Lemma first_failure_in order rs e :
  first_failure order rs = Some e -> In (Raise e) rs.
Proof.
  induction order as [|i order IH]; simpl; [discriminate|].
  destruct (nth_error rs i) as [[a|e']|] eqn:E; auto.
  intros [= ->]. eapply nth_error_In; eauto.
Qed.

Lemma first_failure_all_ok order (vs : list A) :
  first_failure order (map Ok vs) = None.
Proof.
  induction order as [|i order IH]; simpl; auto.
  destruct (nth_error (map Ok vs) i) as [[a|e']|] eqn:E; auto.
  apply nth_error_In, in_map_iff in E as (x & Hx & _). discriminate.
Qed.

Lemma rmap_id_ok (vs : list A) : rmap (fun r => r) (map Ok vs) = Ok vs.
Proof. induction vs as [|v vs IH]; simpl; [|rewrite IH]; reflexivity. Qed.

Lemma rmap_id_raise rs e :
  rmap (fun r => r) rs = Raise e -> In (Raise e) rs.
Proof.
  induction rs as [|[a|e'] rs IH]; simpl; try discriminate.
  - destruct (rmap (fun r => r) rs); simpl; [discriminate|].
    intros [= ->]. auto.
  - intros [= ->]. auto.
Qed.

Lemma rmap_id_failure rs e :
  In (Raise e) rs -> exists e', rmap (fun r => r) rs = Raise e'.
Proof.
  induction rs as [|[a|e'] rs IH]; simpl; [tauto| |eauto].
  intros [H|H]; [discriminate|].
  destruct (IH H) as [e'' ->]. simpl. eauto.
Qed.

(** With every task successful the values come in the order of the
    tasks, whatever the order of completion. *)
Lemma join_ok order (vs : list A) : join order (map Ok vs) = Ok vs.
Proof. unfold join. now rewrite first_failure_all_ok, rmap_id_ok. Qed.

(** What [gather] raises is the exception of one of its tasks. *)
Lemma join_raise order rs e : join order rs = Raise e -> In (Raise e) rs.
Proof.
  unfold join. destruct (first_failure order rs) eqn:E.
  - intros [= <-]. eapply first_failure_in; eauto.
  - apply rmap_id_raise.
Qed.

(** A failed task is never passed over. *)
Lemma join_failure order rs e :
  In (Raise e) rs -> exists e', join order rs = Raise e' /\ In (Raise e') rs.
Proof.
  intros Hin. destruct (join order rs) as [vs|e'] eqn:E.
  - exfalso. unfold join in E.
    destruct (first_failure order rs); [discriminate|].
    destruct (rmap_id_failure _ _ Hin) as [e' He']. congruence.
  - exists e'. split; auto. now apply join_raise with order.
Qed.

End Join.

Lemma load_single (d : dict) : load 0 [d] = d.
Proof. reflexivity. Qed.

Lemma set_set (k : string) (v w : pyval) (d : dict) :
  Dict.set k w (Dict.set k v d) = Dict.set k w d.
Proof.
  induction d as [|[k' v'] d IH]; simpl.
  - now rewrite String.eqb_refl.
  - destruct (String.eqb k k') eqn:E; simpl; rewrite E; [reflexivity|].
    now rewrite IH.
Qed.

(** ** The time-range splitter: what its tasks are given *)

Section Splitter.

Variable env : Env.
Variable self : BinanceAsync.

(** The payload dict after the loop has run over [starts]. *)
Definition payload_after (hi maxRange : Z) (starts : list Z) (d : dict) : dict :=
  fold_left
    (fun d start =>
       Dict.set "endTime" (VInt (Z.min hi (start + maxRange)))
                (Dict.set "startTime" (VInt start) d))
    starts d.

Lemma split_loop (func : Endpoints -> option dict -> M pyval)
      (endpoint : Endpoints) (hi maxRange : Z) (starts : list Z)
      (d : dict) (tasks : list coroutine) :
  fold_left (split_turn func endpoint 0 hi maxRange) starts ([d], tasks)
  = ([payload_after hi maxRange starts d],
     tasks ++ repeat (call func endpoint 0) (List.length starts)).
Proof.
  revert d tasks. induction starts as [|s starts IH]; intros d tasks; simpl.
  - now rewrite app_nil_r.
  - rewrite IH. unfold create_task. now rewrite <- app_assoc.
Qed.

Lemma start_repeat (func : Endpoints -> option dict -> M pyval)
      (endpoint : Endpoints) (d : dict) (n : nat) :
  map (start [d]) (repeat (call func endpoint 0) n)
  = repeat (func endpoint (Some d)) n.
Proof. induction n; simpl; [|rewrite IHn]; reflexivity. Qed.

(** Every task of the splitter sends the payload as the loop left it. *)
Lemma split_unfold (endpoint : Endpoints) (maxRange lo hi : Z)
      (params : dict) (starts : list Z) (t : trace) :
  Dict.get "startTime" params = Some (VInt lo) ->
  Dict.get "endTime" params = Some (VInt hi) ->
  range lo hi maxRange = Ok starts ->
  _split_request_interval env self endpoint maxRange params None t
  = let d := payload_after hi maxRange starts params in
    let (rs, t') :=
      run_tasks (repeat (_request env self endpoint (Some d))
                        (List.length starts)) t in
    (rbind (join (arrival env) rs)
           (fun resp => rbind (rmap iter resp)
                              (fun data => Ok (VList (List.concat data)))),
     t').
Proof.
  intros Hlo Hhi Hr.
  unfold _split_request_interval, bind, lift, ret, Dict.getitem, alloc.
  rewrite Hlo, Hhi. cbv beta iota. unfold as_int. cbv beta iota.
  rewrite Hr. cbv beta iota.
  change (List.length (@nil dict)) with 0%nat.
  change ([] ++ [params]) with [params].
  rewrite split_loop. simpl app. unfold gather.
  rewrite start_repeat.
  destruct (run_tasks _ t) as [rs t'].
  destruct (join (arrival env) rs) as [resp|e]; simpl; auto.
  destruct (rmap iter resp); reflexivity.
Qed.

End Splitter.

(** The window a request asks for. *)
Definition slice_sent (rq : request) : option (Z * Z) :=
  match Dict.get "startTime" (rq_params rq), Dict.get "endTime" (rq_params rq) with
  | Some (VInt a), Some (VInt b) => Some (a, b)
  | _, _ => None
  end.

(** The slices as the specification words them: a cursor going from the
    start of the window in strides of [maxSpan], each slice reaching to
    [min(end, cursor + maxSpan)]; a window whose ends coincide is one
    slice. *)
Definition spec_slices (start_ end_ maxSpan : Z) : list (Z * Z) :=
  if start_ =? end_ then [(start_, end_)]
  else
    match range start_ end_ maxSpan with
    | Ok cursors => map (fun c => (c, Z.min end_ (c + maxSpan))) cursors
    | Raise _ => []
    end.

Lemma range_empty (s step : Z) : step <> 0 -> range s s step = Ok [].
Proof.
  intros H. unfold range, range_len.
  destruct (Z.eqb_spec step 0); [contradiction|].
  rewrite Z.ltb_irrefl. now destruct (0 <? step).
Qed.

(** C2. The window [[0, 10000]] split by 3000, against a server that
    answers each request with the one item [startTime]: the loop goes over
    the cursors 0, 3000, 6000, 9000, but the four tasks share the one
    payload dict and start after the loop has ended, so each of the four
    requests asks for [[9000, 10000]] and the call returns
    [[9000, 9000, 9000, 9000]], not the per-slice results
    [[0, 3000, 6000, 9000]]; this whatever the order of completion. *)
Theorem split_request_interval_sends_last_slice (order : list nat) :
  let env := demo_env echo_start order in
  let out := _split_request_interval env demo_self SPOT_TRADES 3000
               [("startTime", VInt 0); ("endTime", VInt 10000)] None [] in
  spec_slices 0 10000 3000 = [(0, 3000); (3000, 6000); (6000, 9000); (9000, 10000)]
  /\ map slice_sent (snd out)
     = [Some (9000, 10000); Some (9000, 10000); Some (9000, 10000); Some (9000, 10000)]
  /\ fst out = Ok (VList [VInt 9000; VInt 9000; VInt 9000; VInt 9000])
  /\ fst out <> Ok (VList [VInt 0; VInt 3000; VInt 6000; VInt 9000]).
Proof.
  intros env out.
  assert (Hout : out = (Ok (VList [VInt 9000; VInt 9000; VInt 9000; VInt 9000]),
                        snd out)
                 /\ map slice_sent (snd out) = repeat (Some (9000, 10000)) 4%nat).
  { unfold out.
    rewrite (split_unfold env demo_self SPOT_TRADES 3000 0 10000 _
                          [0; 3000; 6000; 9000]) by reflexivity.
    cbv zeta.
    destruct (run_tasks _ []) as [rs t'] eqn:E.
    vm_compute in E. injection E as <- <-.
    change [Ok (VList [VInt 9000]); Ok (VList [VInt 9000]);
            Ok (VList [VInt 9000]); Ok (VList [VInt 9000])]
      with (map (@Ok pyval) (repeat (VList [VInt 9000]) 4%nat)).
    rewrite join_ok.
    split; reflexivity. }
  destruct Hout as [Hout Hsent].
  repeat split.
  - exact Hsent.
  - now rewrite Hout.
  - rewrite Hout. simpl. discriminate.
Qed.

(** The loop of [klines] includes its stop: a window whose ends coincide
    is one slice there. *)
Lemma klines_range_single (s base limit : Z) :
  0 < base -> 0 <= limit ->
  range s (s + base) (base * limit + base) = Ok [s].
Proof.
  intros Hbase Hlimit. unfold range, range_len.
  assert (Hstep : 0 < base * limit + base) by nia.
  destruct (Z.eqb_spec (base * limit + base) 0); [lia|].
  destruct (Z.ltb_spec 0 (base * limit + base)); [|lia].
  destruct (Z.ltb_spec s (s + base)); [|lia].
  rewrite Z.div_small by nia. simpl. f_equal. f_equal. lia.
Qed.

(** C3. A window whose start equals its end, one slice by the
    specification: [range(start, end, maxRange)] is empty, so the splitter
    creates no task, sends no request and returns the empty list. *)
Theorem split_request_interval_empty_window
        (env : Env) (self : BinanceAsync) (endpoint : Endpoints)
        (maxRange s : Z) (params : dict) (t : trace)
        (Hstart : Dict.get "startTime" params = Some (VInt s))
        (Hend : Dict.get "endTime" params = Some (VInt s))
        (Hstep : maxRange <> 0) :
  spec_slices s s maxRange = [(s, s)]
  /\ range s s maxRange = Ok []
  /\ _split_request_interval env self endpoint maxRange params None t
     = (Ok (VList []), t).
Proof.
  split; [|split].
  - unfold spec_slices. now rewrite Z.eqb_refl.
  - now apply range_empty.
  - rewrite (split_unfold env self endpoint maxRange s s params [])
      by (auto using range_empty).
    pose proof (join_ok (arrival env) (@nil pyval)) as Hjoin.
    simpl in *. now rewrite Hjoin.
Qed.

(** ** The page fan-out paginator: what its tasks are given *)

Lemma set_get_same (k : string) (v : pyval) (d : dict) :
  Dict.get k d = Some v -> Dict.set k v d = d.
Proof.
  induction d as [|[k' v'] d IH]; simpl; [discriminate|].
  destruct (String.eqb k k') eqn:E.
  - now intros [= ->].
  - intros H. now rewrite IH.
Qed.

Section Fanout.

Variable env : Env.
Variable self : BinanceAsync.

Lemma page_loop (endPoint : Endpoints) (pageKey : string) (turns : list Z)
      (d : dict) (p : Z) (tasks : list coroutine) :
  Dict.get pageKey d = Some (VInt p) ->
  for_each (page_turn env self endPoint 0 pageKey) turns ([d], tasks)
  = Ok ([Dict.set pageKey (VInt (p + Z.of_nat (List.length turns))) d],
        tasks ++ repeat (call (_request env self) endPoint 0) (List.length turns)).
Proof.
  revert d p tasks.
  induction turns as [|x turns IH]; intros d p tasks Hp.
  - simpl. rewrite Z.add_0_r, app_nil_r. now rewrite set_get_same.
  - cbn [for_each]. unfold page_turn at 1.
    rewrite load_single. unfold Dict.getitem. rewrite Hp.
    cbn [rbind as_int store].
    rewrite (IH _ (p + 1)) by apply get_set_same.
    rewrite set_set. unfold create_task.
    rewrite <- app_assoc. cbn [List.length repeat app].
    replace (p + 1 + Z.of_nat (List.length turns))
      with (p + Z.of_nat (S (List.length turns))) by lia.
    reflexivity.
Qed.

(** Every task of the fan-out sends the payload as the loop left it: the
    page number is that of the last turn. *)
Lemma paginated_unfold (endPoint : Endpoints) (params : dict)
      (rowsKey pageKey dataKey totalKey : string) (t t1 : trace)
      (ipp total : Z) (resp1 : pyval) (data : list pyval) (turns : list Z) :
  Dict.get rowsKey params = Some (VInt ipp) ->
  _request env self endPoint (Some (Dict.set pageKey (VInt 1) params)) t
  = (Ok resp1, t1) ->
  rbind (getitem resp1 dataKey) iter = Ok data ->
  rbind (getitem resp1 totalKey) as_int = Ok total ->
  range ipp (total + 1) ipp = Ok turns ->
  _paginatedRequests env self endPoint params rowsKey pageKey dataKey totalKey t
  = let d := Dict.set pageKey (VInt (1 + Z.of_nat (List.length turns))) params in
    let (rs, t') :=
      run_tasks (repeat (_request env self endPoint (Some d))
                        (List.length turns)) t1 in
    (rbind (join (arrival env) rs)
           (fun resp =>
              rbind (rmap (fun r => rbind (getitem r dataKey) iter) resp)
                    (fun rest => Ok (VList (data ++ List.concat rest)))),
     t').
Proof.
  intros Hrows Hfirst Hdata Htotal Hrange.
  unfold _paginatedRequests, alloc.
  change (List.length (@nil dict)) with 0%nat.
  change ([] ++ [params]) with [params].
  rewrite load_single. cbn [store]. rewrite load_single.
  unfold bind, lift, Dict.getitem. rewrite Hrows. rewrite Hfirst.
  rewrite Hdata, Htotal. cbn [as_int]. rewrite Hrange.
  rewrite (page_loop _ _ _ _ 1) by apply get_set_same.
  rewrite set_set. cbn [app]. unfold gather.
  rewrite start_repeat. cbv zeta.
  destruct (run_tasks _ t1) as [rs t'].
  destruct (join (arrival env) rs) as [resp|e]; simpl; auto.
  destruct (rmap _ resp); reflexivity.
Qed.

End Fanout.

(** The number of pages fetched after the first one is [total // rows]. *)
Lemma fanout_count (ipp total : Z) (turns : list Z) :
  0 < ipp -> 0 <= total ->
  range ipp (total + 1) ipp = Ok turns ->
  Z.of_nat (List.length turns) = total / ipp.
Proof.
  intros Hipp Htotal. unfold range, range_len.
  destruct (Z.eqb_spec ipp 0); [lia|].
  destruct (Z.ltb_spec 0 ipp); [|lia].
  intros [= <-]. rewrite length_map, length_seq.
  destruct (Z.ltb_spec ipp (total + 1)).
  - replace (total + 1 - ipp - 1) with (total + (-1) * ipp) by lia.
    rewrite Z.div_add by lia.
    assert (1 <= total / ipp) by (apply Z.div_le_lower_bound; lia).
    lia.
  - rewrite Z.div_small; simpl; lia.
Qed.

(** The page a request asks for. *)
Definition page_sent (rq : request) : option Z :=
  match Dict.get "page" (rq_params rq) with
  | Some (VInt p) => Some p
  | _ => None
  end.

(** A server of [total] items whose page [p] holds the one item [p]. *)
Definition echo_page (total : Z) (t : trace) (rq : request) : reply :=
  match Dict.get "page" (rq_params rq) with
  | Some p => Reply 200 (Some (VDict [("data", VList [p]); ("total", VInt total)]))
  | None => Reply 200 (Some (VDict [("data", VList []); ("total", VInt total)]))
  end.

(** The number of pages as the specification words it. *)
Definition spec_pages (total itemsPerPage : Z) : Z :=
  (total + itemsPerPage - 1) / itemsPerPage.

(** C4. With 95 items and 20 rows a page, against a server whose page [p]
    holds the one item [p]: five requests are sent, but the four tasks
    share the one payload dict and start after the loop has ended, so the
    pages asked for are 1, 5, 5, 5, 5 and the call returns
    [[1, 5, 5, 5, 5]], not [[1, 2, 3, 4, 5]].  With 100 items six requests
    are sent, one more than the five pages there are. *)
Theorem paginatedRequests_sends_last_page (order : list nat) :
  let rows := [("rows", VInt 20)] in
  let out95 := _paginatedRequests (demo_env (echo_page 95) order) demo_self
                 FIAT_ORDERS rows "rows" "page" "data" "total" [] in
  let out100 := _paginatedRequests (demo_env (echo_page 100) order) demo_self
                  FIAT_ORDERS rows "rows" "page" "data" "total" [] in
  spec_pages 95 20 = 5
  /\ map page_sent (snd out95) = [Some 1; Some 5; Some 5; Some 5; Some 5]
  /\ fst out95 = Ok (VList [VInt 1; VInt 5; VInt 5; VInt 5; VInt 5])
  /\ fst out95 <> Ok (VList [VInt 1; VInt 2; VInt 3; VInt 4; VInt 5])
  /\ spec_pages 100 20 = 5
  /\ List.length (snd out100) = 6%nat.
Proof.
  intros rows out95 out100.
  assert (H95 : out95 = (Ok (VList [VInt 1; VInt 5; VInt 5; VInt 5; VInt 5]),
                         snd out95)
                /\ map page_sent (snd out95)
                   = [Some 1; Some 5; Some 5; Some 5; Some 5]).
  { unfold out95.
    erewrite (paginated_unfold _ demo_self FIAT_ORDERS rows
                "rows" "page" "data" "total" [] _ 20 95 _ [VInt 1]
                [20; 40; 60; 80]);
      [ | reflexivity | vm_compute; reflexivity | reflexivity
        | reflexivity | reflexivity ].
    cbv zeta.
    destruct (run_tasks _ _) as [rs t'] eqn:E.
    vm_compute in E. injection E as <- <-.
    change [Ok (VDict [("data", VList [VInt 5]); ("total", VInt 95)]);
            Ok (VDict [("data", VList [VInt 5]); ("total", VInt 95)]);
            Ok (VDict [("data", VList [VInt 5]); ("total", VInt 95)]);
            Ok (VDict [("data", VList [VInt 5]); ("total", VInt 95)])]
      with (map (@Ok pyval)
              (repeat (VDict [("data", VList [VInt 5]); ("total", VInt 95)]) 4%nat)).
    rewrite join_ok. split; reflexivity. }
  assert (H100 : List.length (snd out100) = 6%nat).
  { unfold out100.
    erewrite (paginated_unfold _ demo_self FIAT_ORDERS rows
                "rows" "page" "data" "total" [] _ 20 100 _ [VInt 1]
                [20; 40; 60; 80; 100]);
      [ | reflexivity | vm_compute; reflexivity | reflexivity
        | reflexivity | reflexivity ].
    cbv zeta.
    destruct (run_tasks _ _) as [rs t'] eqn:E.
    vm_compute in E. injection E as <- <-.
    destruct (rbind _ _); reflexivity. }
  destruct H95 as [H95 Hsent].
  repeat split; auto.
  - now rewrite H95.
  - rewrite H95. simpl. discriminate.
Qed.

(** ** The single request *)

(** The request [_request] sends from the trace [t]. *)
Definition request_of (env : Env) (self : BinanceAsync) (endPoint : Endpoints)
           (params : option dict) (t : trace) : request :=
  {| rq_method := METHOD (value endPoint);
     rq_url := URL (value endPoint);
     rq_params := _preparePayload env self params (SECURITY (value endPoint))
                                  (clock env t) |}.

(** What [_request] makes of a reply: the status plays no part. *)
Definition decoded (r : reply) : result pyval :=
  match r with
  | ConnectionFailed => Raise TransportError
  | Reply _ None => Raise DecodeError
  | Reply _ (Some data) => Ok data
  end.

Lemma request_eq (env : Env) (self : BinanceAsync) (endPoint : Endpoints)
      (params : option dict) (t : trace) :
  _request env self endPoint params t
  = (decoded (server env t (request_of env self endPoint params t)),
     t ++ [request_of env self endPoint params t]).
Proof.
  unfold _request, request_of, decoded.
  destruct (server env t _) as [|status [data|]]; reflexivity.
Qed.

(** ** The cursor paginator *)

Section Cursor.

Variable env : Env.
Variable self : BinanceAsync.

(** With an end time in the parameters the first response is returned
    as it is. *)
Lemma tradesCycle_bounded (fuel : nat) (params : dict) (enforceLimit : bool)
      (limit endTime : pyval) (t : trace) :
  Dict.get "limit" params = Some limit ->
  Dict.get "endTime" params = Some endTime ->
  py_bool endTime = true ->
  _tradesCycle env self fuel params enforceLimit t
  = (rbind (decoded (server env t (request_of env self SPOT_TRADES (Some params) t)))
           (fun resp => Ok (Some resp)),
     t ++ [request_of env self SPOT_TRADES (Some params) t]).
Proof.
  intros Hl He Hb.
  unfold _tradesCycle, bind, lift, ret, Dict.getitem.
  rewrite Hl, He, request_eq.
  destruct (decoded _); simpl; [rewrite Hb|]; reflexivity.
Qed.

(** With [enforceLimit] set and no end time the loop is never entered. *)
Lemma tradesCycle_enforced (fuel : nat) (params : dict)
      (limit endTime : pyval) (t : trace) :
  Dict.get "limit" params = Some limit ->
  Dict.get "endTime" params = Some endTime ->
  py_bool endTime = false ->
  _tradesCycle env self fuel params true t
  = (rbind (decoded (server env t (request_of env self SPOT_TRADES (Some params) t)))
           (fun _ => Ok (Some (VList []))),
     t ++ [request_of env self SPOT_TRADES (Some params) t]).
Proof.
  intros Hl He Hb.
  unfold _tradesCycle, bind, lift, ret, Dict.getitem.
  rewrite Hl, He, request_eq.
  destruct (decoded _); simpl; [rewrite Hb|]; try reflexivity.
  destruct fuel; reflexivity.
Qed.

(** One turn of the loop on a full page: the items are kept and the next
    request is sent from the cursor after the last item. *)
Lemma trades_loop_full (fuel : nat) (limit id : Z) (payload : dict)
      (data page : list pyval) (item : pyval) (t : trace) :
  limit <= Z.of_nat (List.length page) ->
  last_item (VList page) = Ok item ->
  rbind (getitem item "id") as_int = Ok id ->
  trades_loop env self (S fuel) false (VInt limit) payload data (VList page) t
  = let payload' := Dict.pop "startTime" (Dict.set "fromId" (VInt (id + 1)) payload) in
    bind (_request env self SPOT_TRADES (Some payload'))
         (trades_loop env self fuel false (VInt limit) payload' (data ++ page)) t.
Proof.
  intros Hfull Hlast Hid.
  cbn [trades_loop]. unfold bind at 1, lift at 1. cbn [iter].
  unfold bind at 1, lift at 1. cbn [len py_len].
  unfold bind at 1, lift at 1. cbn [as_int].
  destruct (Z.ltb_spec (Z.of_nat (List.length page)) limit); [lia|].
  unfold bind at 1, lift at 1. rewrite Hlast.
  unfold bind at 1, lift at 1. rewrite Hid.
  reflexivity.
Qed.

(** The turn on a partial page ends the loop. *)
Lemma trades_loop_partial (fuel : nat) (limit : Z) (payload : dict)
      (data page : list pyval) (t : trace) :
  Z.of_nat (List.length page) < limit ->
  trades_loop env self (S fuel) false (VInt limit) payload data (VList page) t
  = (Ok (Some (VList (data ++ page))), t).
Proof.
  intros Hpartial.
  cbn [trades_loop]. unfold bind, lift, ret. cbn [iter len py_len as_int].
  destruct (Z.ltb_spec (Z.of_nat (List.length page)) limit); [reflexivity|lia].
Qed.

End Cursor.

(** C5, amended. With [enforceLimit] off and an end time that is [None] or
    0 (any value Python takes as false), a server that answers three full
    pages and then a partial one, of items with an integer [id], is asked
    exactly four times, one request after the other, and the pages come
    back concatenated in the order they were fetched (any fuel from four
    turns on is enough).  With an end time other than [None] and 0 in the
    parameters exactly one request is sent and its response is what is
    returned, whatever its size and whatever [enforceLimit]. *)
Theorem tradesCycle_three_full_one_partial
        (env : Env) (self : BinanceAsync) (t : trace) :
  (forall (fuel : nat) (params : dict) (limit : Z) (bound : pyval)
          (p1 p2 p3 p4 : list pyval) (item1 item2 item3 : pyval)
          (id1 id2 id3 : Z),
      (4 <= fuel)%nat ->
      Dict.get "limit" params = Some (VInt limit) ->
      Dict.get "endTime" params = Some bound ->
      py_bool bound = false ->
      Z.of_nat (List.length p1) = limit ->
      Z.of_nat (List.length p2) = limit ->
      Z.of_nat (List.length p3) = limit ->
      Z.of_nat (List.length p4) < limit ->
      last_item (VList p1) = Ok item1 -> getitem item1 "id" = Ok (VInt id1) ->
      last_item (VList p2) = Ok item2 -> getitem item2 "id" = Ok (VInt id2) ->
      last_item (VList p3) = Ok item3 -> getitem item3 "id" = Ok (VInt id3) ->
      (forall tr rq, List.length tr = List.length t ->
                     server env tr rq = Reply 200 (Some (VList p1))) ->
      (forall tr rq, List.length tr = (List.length t + 1)%nat ->
                     server env tr rq = Reply 200 (Some (VList p2))) ->
      (forall tr rq, List.length tr = (List.length t + 2)%nat ->
                     server env tr rq = Reply 200 (Some (VList p3))) ->
      (forall tr rq, List.length tr = (List.length t + 3)%nat ->
                     server env tr rq = Reply 200 (Some (VList p4))) ->
      exists r1 r2 r3 r4,
        _tradesCycle env self fuel params false t
        = (Ok (Some (VList (p1 ++ p2 ++ p3 ++ p4))), t ++ [r1; r2; r3; r4]))
  /\ (forall (fuel : nat) (params : dict) (enforceLimit : bool)
             (limit bound : pyval) (status : Z) (resp : pyval),
         Dict.get "limit" params = Some limit ->
         Dict.get "endTime" params = Some bound ->
         py_bool bound = true ->
         server env t (request_of env self SPOT_TRADES (Some params) t)
         = Reply status (Some resp) ->
         _tradesCycle env self fuel params enforceLimit t
         = (Ok (Some resp), t ++ [request_of env self SPOT_TRADES (Some params) t])).
Proof.
  split.
  - intros fuel params limit bound p1 p2 p3 p4 item1 item2 item3 id1 id2 id3
           Hfuel Hlimit Hend Hfalse Hf1 Hf2 Hf3 Hp4 Hl1 Hi1 Hl2 Hi2 Hl3 Hi3
           Hs1 Hs2 Hs3 Hs4.
    destruct fuel as [|[|[|[|fuel]]]]; try lia.
    unfold _tradesCycle, Dict.getitem. rewrite Hlimit, Hend.
    unfold bind at 1, lift at 1. cbv beta iota.
    unfold bind at 1. rewrite request_eq, Hs1 by reflexivity. cbn [decoded].
    unfold bind at 1, lift at 1. cbv beta iota. rewrite Hfalse.
    rewrite (trades_loop_full env self _ limit id1 _ _ p1 item1)
      by (try lia; auto; rewrite Hi1; reflexivity).
    cbv zeta. unfold bind at 1.
    rewrite request_eq, Hs2 by (rewrite length_app; simpl; lia). cbn [decoded].
    rewrite (trades_loop_full env self _ limit id2 _ _ p2 item2)
      by (try lia; auto; rewrite Hi2; reflexivity).
    cbv zeta. unfold bind at 1.
    rewrite request_eq, Hs3 by (rewrite !length_app; simpl; lia). cbn [decoded].
    rewrite (trades_loop_full env self _ limit id3 _ _ p3 item3)
      by (try lia; auto; rewrite Hi3; reflexivity).
    cbv zeta. unfold bind at 1.
    rewrite request_eq, Hs4 by (rewrite !length_app; simpl; lia). cbn [decoded].
    rewrite trades_loop_partial by assumption.
    do 4 eexists. rewrite <- !app_assoc. simpl. reflexivity.
  - intros fuel params enforceLimit limit bound status resp Hlimit Hend Hb Hs.
    rewrite (tradesCycle_bounded env self fuel params enforceLimit limit bound)
      by assumption.
    now rewrite Hs.
Qed.

(** ** Public calls *)

(** The parameters [spotTrades] builds. *)
Definition spot_params (symbol : string) (since until : option Z)
           (orderId fromId : pyval) (limit : Z) : dict :=
  [("symbol", VStr symbol); ("orderId", orderId);
   ("startTime", time_or_none since); ("endTime", time_or_none until);
   ("fromId", fromId); ("limit", VInt limit)].

Lemma prepareSymbol_str (symbol : string) :
  exists s, _prepareSymbol (VStr symbol) = Ok s.
Proof. eexists. reflexivity. Qed.

Lemma spotTrades_unbounded (env : Env) (self : BinanceAsync) (fuel : nat)
      (symbol : string) (since until : option Z) (orderId fromId : pyval)
      (limit : Z) (enforceLimit : bool) (t : trace) :
  time_or_none until = VNone ->
  exists s,
    _prepareSymbol (VStr symbol) = Ok s
    /\ spotTrades env self fuel (VStr symbol) since until orderId fromId limit
                  enforceLimit t
       = _tradesCycle env self fuel
           (spot_params s since until orderId fromId limit) enforceLimit t.
Proof.
  intros Hu. destruct (prepareSymbol_str symbol) as [s Hs].
  exists s. split; [assumption|].
  unfold spotTrades. rewrite Hs. unfold bind at 1, lift at 1.
  rewrite Hu. cbn [py_bool]. rewrite andb_false_r.
  unfold spot_params. rewrite Hu. reflexivity.
Qed.

(** C9. A [spotTrades] call with [enforceLimit] set and no end time
    ([until] absent, or zero, which counts as absent): exactly one request
    is sent, and when it is answered the call returns the empty list, the
    items of the answer being dropped; this for any fuel, the loop never
    being entered. *)
Theorem spotTrades_enforceLimit_returns_empty
        (env : Env) (self : BinanceAsync) (fuel : nat) (symbol : string)
        (since : option Z) (orderId fromId : pyval) (limit : Z) (t : trace) :
  exists s,
    _prepareSymbol (VStr symbol) = Ok s
    /\ (let rq := request_of env self SPOT_TRADES
                    (Some (spot_params s since None orderId fromId limit)) t in
        spotTrades env self fuel (VStr symbol) since None orderId fromId limit true t
        = (match server env t rq with
           | Reply _ (Some _) => Ok (Some (VList []))
           | Reply _ None => Raise DecodeError
           | ConnectionFailed => Raise TransportError
           end, t ++ [rq]))
    /\ (let rq := request_of env self SPOT_TRADES
                    (Some (spot_params s since (Some 0) orderId fromId limit)) t in
        spotTrades env self fuel (VStr symbol) since (Some 0) orderId fromId limit true t
        = (match server env t rq with
           | Reply _ (Some _) => Ok (Some (VList []))
           | Reply _ None => Raise DecodeError
           | ConnectionFailed => Raise TransportError
           end, t ++ [rq])).
Proof.
  destruct (spotTrades_unbounded env self fuel symbol since None orderId fromId
                                 limit true t eq_refl) as (s & Hs & H1).
  destruct (spotTrades_unbounded env self fuel symbol since (Some 0) orderId fromId
                                 limit true t eq_refl) as (s' & Hs' & H2).
  assert (s' = s) by congruence. subst s'.
  exists s. split; [assumption|]. split; cbv zeta.
  - rewrite H1.
    rewrite (tradesCycle_enforced env self fuel _ (VInt limit) VNone)
      by reflexivity.
    destruct (server env t _) as [|status [data|]]; reflexivity.
  - rewrite H2.
    rewrite (tradesCycle_enforced env self fuel _ (VInt limit) VNone)
      by reflexivity.
    destruct (server env t _) as [|status [data|]]; reflexivity.
Qed.

(** C8. A [marketInfo] call whose [symbol] or whose [symbols] is [None]
    ends with [TypeError] and sends nothing: [_prepareSymbol] hands [None]
    to [re.sub], or the comprehension iterates over [None], before
    [_request] is reached. *)
Theorem marketInfo_None_raises_TypeError
        (env : Env) (self : BinanceAsync)
        (symbol symbols permissions show_permission_sets symbol_status : pyval)
        (t : trace)
        (Hnone : symbol = VNone \/ symbols = VNone) :
  marketInfo env self symbol symbols permissions show_permission_sets
             symbol_status t
  = (Raise TypeError, t).
Proof.
  unfold marketInfo, bind, lift.
  destruct Hnone as [-> | ->].
  - reflexivity.
  - destruct symbol; reflexivity.
Qed.

(** ** Klines *)

(** The size of a value: one for the value itself, plus what it holds. *)
Fixpoint size (v : pyval) : nat :=
  match v with
  | VList l => S (list_sum (map size l))
  | VDict d => S (list_sum (map (fun kv => match kv with (_, x) => size x end) d))
  | _ => 1%nat
  end.

Lemma size_nested (kss : list (list pyval)) :
  size (VList (map VList kss))
  = (size (VList (List.concat kss)) + List.length kss)%nat.
Proof.
  assert (H : list_sum (map size (map VList kss))
              = (list_sum (map size (List.concat kss)) + List.length kss)%nat).
  { induction kss as [|ks kss IH]; [reflexivity|].
    cbn [map List.concat list_sum List.length].
    change (list_sum (size (VList ks) :: map size (map VList kss)))
      with (S (list_sum (map size ks)) + list_sum (map size (map VList kss)))%nat.
    rewrite map_app, list_sum_app, IH. lia. }
  change (S (list_sum (map size (map VList kss)))
          = (S (list_sum (map size (List.concat kss))) + List.length kss)%nat).
  lia.
Qed.

(** A list of lists is never its own flattening. *)
Lemma nested_not_flat (kss : list (list pyval)) :
  kss <> [] -> VList (map VList kss) <> VList (List.concat kss).
Proof.
  intros Hne Heq. pose proof (size_nested kss) as Hsize.
  rewrite Heq in Hsize. destruct kss; [congruence|simpl in Hsize; lia].
Qed.

Section Klines.

Variable env : Env.
Variable self : BinanceAsync.

(** The parameters of the request for one slice. *)
Definition slice_params (symbol timeframe timezone : string) (limit END_MS STEP : Z)
           (start : Z) : dict :=
  [("symbol", VStr symbol); ("interval", VStr timeframe);
   ("startTime", VInt start); ("endTime", VInt (Z.min END_MS (start + STEP)));
   ("timeZone", VStr timezone); ("limit", VInt limit)].

Definition kline_task (a : nat) : coroutine :=
  {| co_body := _baseKlines env self; co_arg := a |}.

Lemma klines_loop (symbol timeframe timezone : string) (limit END_MS STEP : Z)
      (starts : list Z) (h : heap) (tasks : list coroutine) :
  fold_left (klines_turn env self symbol timeframe timezone limit END_MS STEP)
            starts (h, tasks)
  = (h ++ map (slice_params symbol timeframe timezone limit END_MS STEP) starts,
     tasks ++ map kline_task (seq (List.length h) (List.length starts))).
Proof.
  revert h tasks. induction starts as [|s starts IH]; intros h tasks.
  - simpl. now rewrite !app_nil_r.
  - cbn [fold_left]. unfold klines_turn at 2, alloc, create_task.
    rewrite IH. rewrite length_app. cbn [List.length map seq].
    rewrite <- !app_assoc. cbn [app].
    replace (List.length h + 1)%nat with (S (List.length h)) by lia.
    reflexivity.
Qed.

Lemma start_fresh (pre ds : list dict) :
  map (start (pre ++ ds)) (map kline_task (seq (List.length pre) (List.length ds)))
  = map (_baseKlines env self) ds.
Proof.
  revert pre. induction ds as [|d ds IH]; intros pre; [reflexivity|].
  cbn [List.length seq map]. f_equal.
  - unfold start, kline_task, load. cbn [co_body co_arg].
    now rewrite nth_middle.
  - specialize (IH (pre ++ [d])).
    rewrite <- app_assoc, length_app in IH. cbn [app List.length] in IH.
    replace (List.length pre + 1)%nat with (S (List.length pre)) in IH by lia.
    exact IH.
Qed.

(** Every task of [klines] has a dict of its own, holding its slice. *)
Lemma klines_unfold (symbol timeframe timezone : string) (since : Z)
      (until : option Z) (limit BASE_STEP : Z) (starts : list Z) (t : trace) :
  _timeInterval timeframe = Ok BASE_STEP ->
  forall s END_MS,
    _prepareSymbol (VStr symbol) = Ok s ->
    _parseTime env since until t = (Ok (since, END_MS), t) ->
    range since (END_MS + BASE_STEP) (BASE_STEP * limit + BASE_STEP) = Ok starts ->
    klines env self (VStr symbol) timeframe since until timezone limit t
    = let (rs, t') :=
        run_tasks
          (map (fun start =>
                  _baseKlines env self
                    (slice_params s timeframe timezone limit END_MS
                                  (BASE_STEP * limit) start))
               starts) t in
      (rbind (join (arrival env) rs) (fun klines => Ok (VList klines)), t').
Proof.
  intros Hstep s END_MS Hs Htimes Hrange.
  unfold klines. rewrite Hs. unfold bind at 1, lift at 1. cbv beta iota.
  unfold bind at 1. rewrite Htimes. cbv beta iota.
  rewrite Hstep. unfold bind at 1, lift at 1. cbv beta iota zeta.
  rewrite Hrange. unfold bind at 1, lift at 1. cbv beta iota.
  rewrite klines_loop. cbn [app List.length].
  unfold bind, gather, ret.
  pose proof (start_fresh []
                (map (slice_params s timeframe timezone limit END_MS
                                   (BASE_STEP * limit)) starts)) as Hfresh.
  cbn [app List.length] in Hfresh. rewrite length_map in Hfresh.
  rewrite Hfresh, map_map.
  destruct (run_tasks _ t) as [rs t'].
  destruct (join (arrival env) rs); reflexivity.
Qed.

(** What [_baseKlines] returns is a list. *)
Lemma baseKlines_list (params : dict) (t t' : trace) (v : pyval) :
  _baseKlines env self params t = (Ok v, t') -> exists ks, v = VList ks.
Proof.
  unfold _baseKlines, bind, lift, ret.
  destruct (_request env self KLINES (Some params) t) as [[resp|e] t1];
    [|discriminate].
  destruct (iter resp); [|discriminate].
  destruct (rmap _ _) as [ks|]; [|discriminate].
  intros [= <- _]. now exists ks.
Qed.

Lemma run_tasks_lists (ps : list dict) (t t' : trace) (vs : list pyval) :
  run_tasks (map (_baseKlines env self) ps) t = (map Ok vs, t') ->
  exists kss, vs = map VList kss.
Proof.
  revert t vs. induction ps as [|p ps IH]; intros t vs; simpl.
  - destruct vs; [|discriminate]. now exists [].
  - destruct (_baseKlines env self p t) as [r t1] eqn:E1.
    destruct (run_tasks _ t1) as [rs t2] eqn:E2.
    destruct vs as [|v vs]; [discriminate|]. simpl.
    intros [= -> -> ->].
    destruct (baseKlines_list _ _ _ _ E1) as [ks ->].
    destruct (IH _ _ E2) as [kss ->].
    now exists (ks :: kss).
Qed.

End Klines.

Lemma run_tasks_length {A} (ts : list (M A)) (t : trace) :
  List.length (fst (run_tasks ts t)) = List.length ts.
Proof.
  revert t. induction ts as [|m ts IH]; intros t; simpl; auto.
  destruct (m t) as [r t1]. specialize (IH t1).
  destruct (run_tasks ts t1) as [rs t2]. simpl in *. now rewrite IH.
Qed.

(** C10. A [klines] call whose range holds more than one slice, every
    slice being answered: the value returned is the list [gather] gives,
    one element per slice in the order of the slices, each element the
    list of the klines of its slice; it is not the flat list of the klines
    of all the slices. *)
Theorem klines_returns_one_list_per_slice
        (env : Env) (self : BinanceAsync) (symbol timeframe timezone : string)
        (since : Z) (until : option Z) (limit BASE_STEP END_MS : Z)
        (s : string) (starts : list Z) (per_slice : list pyval) (t t' : trace)
        (Hstep : _timeInterval timeframe = Ok BASE_STEP)
        (Hsymbol : _prepareSymbol (VStr symbol) = Ok s)
        (Htimes : _parseTime env since until t = (Ok (since, END_MS), t))
        (Hrange : range since (END_MS + BASE_STEP) (BASE_STEP * limit + BASE_STEP)
                  = Ok starts)
        (Hmany : (1 < List.length starts)%nat)
        (Hrun : run_tasks
                  (map (fun start =>
                          _baseKlines env self
                            (slice_params s timeframe timezone limit END_MS
                                          (BASE_STEP * limit) start))
                       starts) t
                = (map Ok per_slice, t')) :
  klines env self (VStr symbol) timeframe since until timezone limit t
  = (Ok (VList per_slice), t')
  /\ List.length per_slice = List.length starts
  /\ exists kss : list (list pyval),
       per_slice = map VList kss
       /\ VList per_slice <> VList (List.concat kss).
Proof.
  split; [|split].
  - rewrite (klines_unfold env self symbol timeframe timezone since until limit
                           BASE_STEP starts t Hstep s END_MS Hsymbol Htimes Hrange).
    rewrite Hrun, join_ok. reflexivity.
  - pose proof (run_tasks_length
                  (map (fun start =>
                          _baseKlines env self
                            (slice_params s timeframe timezone limit END_MS
                                          (BASE_STEP * limit) start))
                       starts) t) as Hlen.
    rewrite Hrun in Hlen. simpl in Hlen. now rewrite !length_map in Hlen.
  - rewrite <- (map_map (slice_params s timeframe timezone limit END_MS
                                      (BASE_STEP * limit))
                        (_baseKlines env self)) in Hrun.
    pose proof (run_tasks_length
                  (map (_baseKlines env self)
                       (map (slice_params s timeframe timezone limit END_MS
                                          (BASE_STEP * limit)) starts)) t) as Hlen.
    rewrite Hrun in Hlen. simpl in Hlen. rewrite !length_map in Hlen.
    destruct (run_tasks_lists env self _ _ _ _ Hrun) as [kss ->].
    exists kss. split; [reflexivity|].
    apply nested_not_flat. intros ->. simpl in Hlen. lia.
Qed.

(** ** Failures *)

Section Failures.

Variable env : Env.
Variable self : BinanceAsync.

(** The splitter raises what one of its tasks raised. *)
Lemma split_propagates (endpoint : Endpoints) (maxRange lo hi : Z)
      (params : dict) (starts : list Z) (t : trace) (e : exn) :
  Dict.get "startTime" params = Some (VInt lo) ->
  Dict.get "endTime" params = Some (VInt hi) ->
  range lo hi maxRange = Ok starts ->
  let rs := fst (run_tasks
                   (repeat (_request env self endpoint
                              (Some (payload_after hi maxRange starts params)))
                           (List.length starts)) t) in
  In (Raise e) rs ->
  exists e',
    fst (_split_request_interval env self endpoint maxRange params None t)
    = Raise e'
    /\ In (Raise e') rs.
Proof.
  intros Hlo Hhi Hr rs Hin.
  rewrite (split_unfold env self endpoint maxRange lo hi params starts t)
    by assumption.
  cbv zeta. subst rs. destruct (run_tasks _ t) as [rs t']. simpl in *.
  destruct (join_failure (arrival env) rs e Hin) as (e' & -> & Hin').
  exists e'. split; [reflexivity|assumption].
Qed.

(** The fan-out paginator raises what its first request raised. *)
Lemma paginated_first_propagates (endPoint : Endpoints) (params : dict)
      (rowsKey pageKey dataKey totalKey : string) (rows : pyval)
      (t : trace) (e : exn) :
  Dict.get rowsKey params = Some rows ->
  fst (_request env self endPoint (Some (Dict.set pageKey (VInt 1) params)) t)
  = Raise e ->
  fst (_paginatedRequests env self endPoint params rowsKey pageKey dataKey
                          totalKey t)
  = Raise e.
Proof.
  intros Hrows Hfirst.
  unfold _paginatedRequests, alloc.
  change (List.length (@nil dict)) with 0%nat.
  change ([] ++ [params]) with [params].
  rewrite load_single. cbn [store]. rewrite load_single.
  unfold bind, lift, Dict.getitem. rewrite Hrows.
  destruct (_request env self endPoint _ t) as [[resp|e0] t1]; simpl in *.
  - discriminate.
  - congruence.
Qed.

(** It raises what one of its concurrent tasks raised. *)
Lemma paginated_propagates (endPoint : Endpoints) (params : dict)
      (rowsKey pageKey dataKey totalKey : string) (t t1 : trace)
      (ipp total : Z) (resp1 : pyval) (data : list pyval) (turns : list Z)
      (e : exn) :
  Dict.get rowsKey params = Some (VInt ipp) ->
  _request env self endPoint (Some (Dict.set pageKey (VInt 1) params)) t
  = (Ok resp1, t1) ->
  rbind (getitem resp1 dataKey) iter = Ok data ->
  rbind (getitem resp1 totalKey) as_int = Ok total ->
  range ipp (total + 1) ipp = Ok turns ->
  let rs := fst (run_tasks
                   (repeat (_request env self endPoint
                              (Some (Dict.set pageKey
                                       (VInt (1 + Z.of_nat (List.length turns)))
                                       params)))
                           (List.length turns)) t1) in
  In (Raise e) rs ->
  exists e',
    fst (_paginatedRequests env self endPoint params rowsKey pageKey dataKey
                            totalKey t)
    = Raise e'
    /\ In (Raise e') rs.
Proof.
  intros Hrows Hfirst Hdata Htotal Hrange rs Hin.
  rewrite (paginated_unfold env self endPoint params rowsKey pageKey dataKey
                            totalKey t t1 ipp total resp1 data turns)
    by assumption.
  cbv zeta. subst rs. destruct (run_tasks _ t1) as [rs t']. simpl in *.
  destruct (join_failure (arrival env) rs e Hin) as (e' & -> & Hin').
  exists e'. split; [reflexivity|assumption].
Qed.

(** The cursor paginator raises what its first request raised. *)
Lemma tradesCycle_first_propagates (fuel : nat) (params : dict)
      (enforceLimit : bool) (limit : pyval) (t : trace) (e : exn) :
  Dict.get "limit" params = Some limit ->
  fst (_request env self SPOT_TRADES (Some params) t) = Raise e ->
  fst (_tradesCycle env self fuel params enforceLimit t) = Raise e.
Proof.
  intros Hl Hfirst.
  unfold _tradesCycle, bind, lift, Dict.getitem. rewrite Hl.
  destruct (_request env self SPOT_TRADES _ t) as [[resp|e0] t1]; simpl in *.
  - discriminate.
  - congruence.
Qed.

(** It raises what a later request of the chain raised. *)
Lemma trades_loop_propagates (fuel : nat) (limit id : Z) (payload : dict)
      (data page : list pyval) (item : pyval) (t : trace) (e : exn) :
  limit <= Z.of_nat (List.length page) ->
  last_item (VList page) = Ok item ->
  rbind (getitem item "id") as_int = Ok id ->
  fst (_request env self SPOT_TRADES
         (Some (Dict.pop "startTime" (Dict.set "fromId" (VInt (id + 1)) payload))) t)
  = Raise e ->
  fst (trades_loop env self (S fuel) false (VInt limit) payload data (VList page) t)
  = Raise e.
Proof.
  intros Hfull Hlast Hid Hnext.
  rewrite (trades_loop_full env self fuel limit id payload data page item t)
    by assumption.
  cbv zeta. unfold bind.
  destruct (_request env self SPOT_TRADES _ t) as [[resp|e0] t1]; simpl in *.
  - discriminate.
  - congruence.
Qed.

End Failures.

(** An answer with status 404 and an error body that decodes. *)
Definition body_404 : pyval :=
  VDict [("code", VInt (-1121)); ("msg", VStr "Invalid symbol.")].

Definition server_404 (t : trace) (rq : request) : reply :=
  Reply 404 (Some body_404).

(** C1. A request for klines answered with status 404 and an error body
    that decodes.  The table of [_checkHTTPErrors] has the message of the
    claim for 404, but [_request] neither reads the status nor calls the
    helper: the one request is sent and the decoded error body comes back
    as the result of the call, where the claim has the call fail with
    [HTTPStatusError] carrying 404 and that message. *)
Theorem request_returns_body_on_404 :
  let env := demo_env server_404 [] in
  server env [] (request_of env demo_self KLINES (Some []) [])
  = Reply 404 (Some body_404)
  /\ _checkHTTPErrors 404 = Some "Cannot find path. Possible causes: 1. Wrong path"
  /\ _request env demo_self KLINES (Some []) []
     = (Ok body_404, [request_of env demo_self KLINES (Some []) []])
  /\ forall msg,
      fst (_request env demo_self KLINES (Some []) [])
      <> Raise (HTTPStatusError 404 msg).
Proof.
  cbv zeta. repeat split; try reflexivity. intros msg. discriminate.
Qed.

(** ** The theorems at concrete inputs *)

Definition off : reply := ConnectionFailed.

Lemma split_request_interval_empty_window_witness :
  Dict.get "startTime" [("startTime", VInt 5); ("endTime", VInt 5)] = Some (VInt 5)
  /\ Dict.get "endTime" [("startTime", VInt 5); ("endTime", VInt 5)] = Some (VInt 5)
  /\ 1000 <> 0
  /\ _split_request_interval (demo_env echo_start []) demo_self SPOT_TRADES 1000
       [("startTime", VInt 5); ("endTime", VInt 5)] None []
     = (Ok (VList []), []).
Proof.
  assert (H : 1000 <> 0) by discriminate.
  split; [reflexivity|]. split; [reflexivity|]. split; [exact H|].
  apply (split_request_interval_empty_window
           (demo_env echo_start []) demo_self SPOT_TRADES 1000 5
           [("startTime", VInt 5); ("endTime", VInt 5)] [] eq_refl eq_refl H).
Defined.

(** Trades, told apart by their [id]. *)
Definition trade (id : Z) : pyval := VDict [("id", VInt id)].

Definition script : list reply :=
  [Reply 200 (Some (VList [trade 1; trade 2]));
   Reply 200 (Some (VList [trade 3; trade 4]));
   Reply 200 (Some (VList [trade 5; trade 6]));
   Reply 200 (Some (VList [trade 7]))].

(** A server that plays [script], one reply per request. *)
Definition scripted (t : trace) (rq : request) : reply :=
  nth (List.length t) script off.

Definition cursor_params (endTime : pyval) : dict :=
  [("symbol", VStr "BTCUSDT"); ("orderId", VNone); ("startTime", VInt 1);
   ("endTime", endTime); ("fromId", VNone); ("limit", VInt 2)].

(** A server whose pages are full and whose items have no [id]. *)
Definition server_no_id (t : trace) (rq : request) : reply :=
  Reply 200 (Some (VList [VDict [("price", VInt 1)]; VDict [("price", VInt 2)]])).

(** C5, as stated, fails.  Against the server that plays three full pages
    and a partial one, with no end time in the parameters (it is [None])
    and [enforceLimit] set, one request is sent and the result is the
    empty list: not four requests, and none of the seven trades.  With
    the end time 0 in the parameters and [enforceLimit] off, the four
    requests are sent and the four pages returned: not one request.  And
    a full page of items without an [id] ends the call with [KeyError]
    after its one request. *)
Lemma tradesCycle_enforceLimit_or_zero_bound :
  let env := demo_env scripted [] in
  _tradesCycle env demo_self 4 (cursor_params VNone) true []
  = (Ok (Some (VList [])),
     [request_of env demo_self SPOT_TRADES (Some (cursor_params VNone)) []])
  /\ fst (_tradesCycle env demo_self 4 (cursor_params (VInt 0)) false [])
     = Ok (Some (VList [trade 1; trade 2; trade 3; trade 4;
                        trade 5; trade 6; trade 7]))
  /\ List.length (snd (_tradesCycle env demo_self 4 (cursor_params (VInt 0)) false []))
     = 4%nat
  /\ _tradesCycle (demo_env server_no_id []) demo_self 4 (cursor_params VNone)
                  false []
     = (Raise KeyError,
        [request_of (demo_env server_no_id []) demo_self SPOT_TRADES
                    (Some (cursor_params VNone)) []]).
Proof. cbv zeta. repeat split; reflexivity. Qed.

Lemma tradesCycle_three_full_one_partial_witness :
  (exists r1 r2 r3 r4,
      _tradesCycle (demo_env scripted []) demo_self 4 (cursor_params VNone) false []
      = (Ok (Some (VList [trade 1; trade 2; trade 3; trade 4;
                          trade 5; trade 6; trade 7])),
         [r1; r2; r3; r4]))
  /\ _tradesCycle (demo_env scripted []) demo_self 0 (cursor_params (VInt 99)) false []
     = (Ok (Some (VList [trade 1; trade 2])),
        [request_of (demo_env scripted []) demo_self SPOT_TRADES
                    (Some (cursor_params (VInt 99))) []]).
Proof.
  destruct (tradesCycle_three_full_one_partial (demo_env scripted []) demo_self [])
    as [Hpages Hbound].
  split.
  - apply (Hpages 4%nat (cursor_params VNone) 2 VNone
                  [trade 1; trade 2] [trade 3; trade 4] [trade 5; trade 6] [trade 7]
                  (trade 2) (trade 4) (trade 6) 2 4 6);
      try reflexivity; try (simpl; lia).
    + intros [|a tr] rq H; [reflexivity|discriminate].
    + intros [|a [|b tr]] rq H; try discriminate; reflexivity.
    + intros [|a [|b [|c tr]]] rq H; try discriminate; reflexivity.
    + intros [|a [|b [|c [|d tr]]]] rq H; try discriminate; reflexivity.
  - apply (Hbound 0%nat (cursor_params (VInt 99)) false (VInt 2) (VInt 99) 200
                  (VList [trade 1; trade 2])); reflexivity.
Defined.

(** C6, as stated, fails on a signed endpoint.  There the mapping of the
    claim does not become [{c, d, e}]: the payload has the three signing
    fields after them; and a parameter called [timestamp] is not kept as
    it is: the value given, 5, is replaced by the clock's.  An empty
    string, like an empty list, is not kept either, signed endpoint or
    not. *)
Lemma preparePayload_signed_endpoint :
  let env := demo_env echo_start [] in
  _preparePayload env demo_self
    (Some [("a", VNone); ("b", VList []); ("c", VBool true);
           ("d", VList [VInt 1; VInt 2]); ("e", VStr "x")])
    USER_DATA 1700000000000
  = [("c", VStr "true"); ("d", VStr "[1,2]"); ("e", VStr "x");
     ("recvWindow", VStr "5000"); ("timestamp", VStr "1700000000000");
     ("signature", VStr "")]
  /\ _preparePayload env demo_self (Some [("timestamp", VInt 5)])
                     USER_DATA 1700000000000
     = [("timestamp", VStr "1700000000000"); ("recvWindow", VStr "5000");
        ("signature", VStr "")]
  /\ _preparePayload env demo_self (Some [("e", VStr "")]) NONE 1700000000000
     = [].
Proof. cbv zeta. repeat split; reflexivity. Qed.

Lemma preparePayload_drops_and_serializes_witness :
  let params := [("a", VNone); ("b", VList []); ("c", VBool true);
                 ("d", VList [VInt 1; VInt 2]); ("e", VStr "x")] in
  let payload := _preparePayload (demo_env echo_start []) demo_self (Some params)
                                 USER_DATA 1700000000000 in
  NoDup (Dict.keys params)
  /\ flag_in USER_DATA SIGNED && signing_field "d" = false
  /\ exists text, Dict.get "d" payload = Some (VStr text)
                  /\ json_loads text = Some (VList [VInt 1; VInt 2]).
Proof.
  intros params payload.
  assert (Hkeys : NoDup (Dict.keys params)).
  { repeat constructor; simpl; intuition discriminate. }
  assert (Hfield : flag_in USER_DATA SIGNED && signing_field "d" = false)
    by reflexivity.
  split; [exact Hkeys|]. split; [exact Hfield|].
  destruct (preparePayload_drops_and_serializes
              (demo_env echo_start []) demo_self params USER_DATA 1700000000000
              "d" Hkeys Hfield)
    as (_ & _ & _ & _ & Hlist & _).
  apply (Hlist [VInt 1; VInt 2]); [reflexivity|discriminate].
Defined.

Lemma marketInfo_None_raises_TypeError_witness :
  (VNone = VNone \/ VNone = VNone)
  /\ marketInfo (demo_env echo_start []) demo_self VNone VNone VNone (VBool true)
                VNone []
     = (Raise TypeError, []).
Proof.
  split; [left; reflexivity|].
  apply (marketInfo_None_raises_TypeError
           (demo_env echo_start []) demo_self VNone VNone VNone (VBool true) VNone []).
  left. reflexivity.
Defined.

(** A server whose answer to a klines request is the one kline
    [[startTime, "1.5"]]. *)
Definition echo_kline (t : trace) (rq : request) : reply :=
  match Dict.get "startTime" (rq_params rq) with
  | Some v => Reply 200 (Some (VList [VList [v; VStr "1.5"]]))
  | None => Reply 200 (Some (VList []))
  end.

(** Two minutes of one-minute klines, two klines a request: the slices
    start at 0 and at 180000. *)
Lemma klines_returns_one_list_per_slice_witness :
  range 0 (300000 + 60000) (60000 * 2 + 60000) = Ok [0; 180000]
  /\ klines (demo_env echo_kline []) demo_self (VStr "btc/usdt") "1m" 0 (Some 300000)
            "0" 2 []
     = (Ok (VList [VList [VList [VInt 0; VStr "1.5"]];
                   VList [VList [VInt 180000; VStr "1.5"]]]),
        [request_of (demo_env echo_kline []) demo_self KLINES
           (Some (slice_params "BTCUSDT" "1m" "0" 2 300000 120000 0)) [];
         request_of (demo_env echo_kline []) demo_self KLINES
           (Some (slice_params "BTCUSDT" "1m" "0" 2 300000 120000 180000)) []]).
Proof.
  split; [reflexivity|].
  apply (klines_returns_one_list_per_slice
           (demo_env echo_kline []) demo_self "btc/usdt" "1m" "0" 0 (Some 300000)
           2 60000 300000 "BTCUSDT" [0; 180000]
           [VList [VList [VInt 0; VStr "1.5"]];
            VList [VList [VInt 180000; VStr "1.5"]]]
           [] _ eq_refl eq_refl eq_refl eq_refl).
  - simpl. lia.
  - reflexivity.
Defined.

(** * More of the client *)

(** ** Symbols *)

Definition is_symbol_char (c : ascii) : bool := is_upper c || is_digit c.

Definition is_alnum (c : ascii) : bool := is_letter c || is_digit c.

Lemma to_upper_alnum (c : ascii) :
  is_alnum c = true -> is_symbol_char (to_upper c) = true.
Proof. each_ascii c; intros H; try reflexivity; discriminate H. Qed.

Lemma symbol_char_fixed (c : ascii) :
  is_symbol_char c = true -> is_alnum c = true /\ to_upper c = c.
Proof. each_ascii c; intros H; try (split; reflexivity); discriminate H. Qed.

Lemma filter_map_symbol (l : list ascii) :
  forallb is_symbol_char l = true ->
  map to_upper (filter is_alnum l) = l.
Proof.
  induction l as [|c l IH]; simpl; auto.
  intros H. apply andb_prop in H as [Hc Hl].
  destruct (symbol_char_fixed c Hc) as [Ha Hu].
  rewrite Ha. simpl. now rewrite Hu, IH.
Qed.

(** X1. The symbol [_prepareSymbol] makes of a string holds upper-case
    letters and digits only, and preparing it again changes nothing. *)
Theorem prepareSymbol_upper_alnum_idempotent (s : string) :
  exists r : string,
    _prepareSymbol (VStr s) = Ok r
    /\ forallb is_symbol_char (list_ascii_of_string r) = true
    /\ _prepareSymbol (VStr r) = Ok r.
Proof.
  pose (l := map to_upper (filter is_alnum (list_ascii_of_string s))).
  assert (Hl : forallb is_symbol_char l = true).
  { unfold l. induction (list_ascii_of_string s) as [|c cs IH]; simpl; auto.
    destruct (is_alnum c) eqn:E; simpl; auto.
    now rewrite to_upper_alnum. }
  exists (string_of_list_ascii l). split; [|split].
  - unfold _prepareSymbol, map_string.
    now rewrite list_ascii_of_string_of_list_ascii.
  - now rewrite list_ascii_of_string_of_list_ascii.
  - unfold _prepareSymbol, map_string.
    rewrite !list_ascii_of_string_of_list_ascii.
    fold is_alnum. now rewrite (filter_map_symbol l Hl).
Qed.

(** X2. A character that is neither a letter nor a digit leaves no mark:
    the symbol is the same with the delimiter as without it, wherever it
    stands (['BTC/USDT'] and ['BTC-USDT'] are ['BTCUSDT']). *)
Theorem prepareSymbol_ignores_delimiter (a b : string) (c : ascii)
        (Hdelim : is_alnum c = false) :
  _prepareSymbol (VStr (a ++ String c b)) = _prepareSymbol (VStr (a ++ b)).
Proof.
  unfold _prepareSymbol. do 3 f_equal.
  rewrite !list_ascii_app. cbn [list_ascii_of_string].
  rewrite !filter_app. cbn [filter]. fold (is_alnum c). now rewrite Hdelim.
Qed.

Lemma prepareSymbol_ignores_delimiter_witness :
  is_alnum "/"%char = false
  /\ _prepareSymbol (VStr "btc/usdt") = Ok "BTCUSDT"
  /\ _prepareSymbol (VStr "btc/usdt") = _prepareSymbol (VStr "btcusdt").
Proof.
  split; [reflexivity|]. split; [reflexivity|].
  apply (prepareSymbol_ignores_delimiter "btc" "usdt" "/"%char).
  reflexivity.
Defined.

(** ** Time frames *)

(** The units [_timeInterval] knows and their milliseconds: the keys of
    [TIME_INTERVAL], and the capitals that are lowered first.  ['M'] is a
    month, ['m'] a minute. *)
Definition unit_table : list (ascii * Z) :=
  [("s"%char, 1000); ("m"%char, 60000); ("h"%char, 3600000);
   ("d"%char, 86400000); ("w"%char, 604800000); ("M"%char, 2592000000);
   ("S"%char, 1000); ("H"%char, 3600000); ("D"%char, 86400000);
   ("W"%char, 604800000)].

Lemma digit_not_letter (c : ascii) : is_digit c = true -> is_letter c = false.
Proof. each_ascii c; intros H; try reflexivity; discriminate H. Qed.

Lemma letter_not_digit (c : ascii) : is_letter c = true -> is_digit c = false.
Proof. each_ascii c; intros H; try reflexivity; discriminate H. Qed.

Lemma drop_until_none (p : ascii -> bool) (ds rest : list ascii) :
  forallb (fun c => negb (p c)) ds = true ->
  drop_until p (ds ++ rest) = drop_until p rest.
Proof.
  induction ds as [|d ds IH]; simpl; auto.
  intros H. apply andb_prop in H as [Hd Hds].
  apply negb_true_iff in Hd. now rewrite Hd, IH.
Qed.

Lemma digits_no_letter (ds : list ascii) :
  forallb is_digit ds = true ->
  forallb (fun c => negb (is_letter c)) ds = true.
Proof.
  induction ds as [|d ds IH]; simpl; auto.
  intros H. apply andb_prop in H as [Hd Hds].
  now rewrite (digit_not_letter d Hd), IH.
Qed.

Lemma unit_lookup (u : ascii) (ms : Z) :
  In (u, ms) unit_table ->
  is_letter u = true
  /\ rbind (Dict.getitem
              (String (if existsb (Ascii.eqb u) (list_ascii_of_string "SHDW")
                       then to_lower u else u) EmptyString)
              TIME_INTERVAL)
           (fun unit => rbind (as_int unit) (fun x => Ok x))
     = Ok ms.
Proof.
  unfold unit_table. simpl In.
  intros H.
  repeat (destruct H as [H|H]; [injection H as <- <-; split; reflexivity|]).
  contradiction.
Qed.

(** X3. A time frame written as a number followed by a unit, or as a unit
    followed by a number, is the number times the milliseconds of the
    unit; the capitals [S], [H], [D], [W] count as their lower case. *)
Theorem timeInterval_number_and_unit (ds : list ascii) (u : ascii) (ms : Z)
        (Hnonempty : ds <> [])
        (Hdigits : forallb is_digit ds = true)
        (Hunit : In (u, ms) unit_table) :
  _timeInterval (string_of_list_ascii (ds ++ [u])) = Ok (int_of_digits ds * ms)
  /\ _timeInterval (string_of_list_ascii (u :: ds)) = Ok (int_of_digits ds * ms).
Proof.
  destruct (unit_lookup u ms Hunit) as [Hletter Hms].
  pose proof (letter_not_digit u Hletter) as Hnd.
  destruct ds as [|d ds]; [contradiction|].
  assert (Hd : is_digit d = true) by (simpl in Hdigits; now apply andb_prop in Hdigits).
  split.
  - unfold _timeInterval. rewrite list_ascii_of_string_of_list_ascii.
    assert (E1 : take_while is_digit (drop_until is_digit ((d :: ds) ++ [u]))
                 = d :: ds).
    { cbn [app drop_until]. rewrite Hd.
      change (d :: ds ++ [u]) with ((d :: ds) ++ [u]).
      rewrite take_while_all by assumption.
      simpl take_while. rewrite Hnd. now rewrite app_nil_r. }
    rewrite E1.
    rewrite drop_until_none by now apply digits_no_letter.
    cbn [drop_until]. rewrite Hletter.
    destruct (Dict.getitem _ TIME_INTERVAL) as [unit|e]; simpl in *;
      [|discriminate].
    destruct (as_int unit); simpl in *; [|discriminate].
    now injection Hms as ->.
  - unfold _timeInterval. rewrite list_ascii_of_string_of_list_ascii.
    assert (E1 : take_while is_digit (drop_until is_digit (u :: d :: ds))
                 = d :: ds).
    { cbn [drop_until]. rewrite Hnd, Hd.
      rewrite <- (app_nil_r (d :: ds)) at 1.
      rewrite take_while_all by assumption. simpl. now rewrite app_nil_r. }
    rewrite E1. cbn [drop_until]. rewrite Hletter.
    destruct (Dict.getitem _ TIME_INTERVAL) as [unit|e]; simpl in *;
      [|discriminate].
    destruct (as_int unit); simpl in *; [|discriminate].
    now injection Hms as ->.
Qed.

Lemma timeInterval_number_and_unit_witness :
  _timeInterval "15m" = Ok 900000 /\ _timeInterval "W2" = Ok 1209600000.
Proof.
  split.
  - apply (timeInterval_number_and_unit
             (list_ascii_of_string "15") "m"%char 60000);
      [discriminate | reflexivity | simpl; tauto].
  - apply (timeInterval_number_and_unit
             (list_ascii_of_string "2") "W"%char 604800000);
      [discriminate | reflexivity | simpl; tauto].
Defined.

Lemma take_while_drop_until_nil (p : ascii -> bool) (l : list ascii) :
  forallb (fun c => negb (p c)) l = true ->
  take_while p (drop_until p l) = [].
Proof.
  induction l as [|c l IH]; simpl; auto.
  intros H. apply andb_prop in H as [Hc Hl].
  apply negb_true_iff in Hc. rewrite Hc. auto.
Qed.

Lemma take_while_drop_until_cons (p : ascii -> bool) (l : list ascii) :
  existsb p l = true ->
  exists d ds, take_while p (drop_until p l) = d :: ds.
Proof.
  induction l as [|c l IH]; simpl; [discriminate|].
  destruct (p c) eqn:E; simpl.
  - intros _. rewrite E. eauto.
  - auto.
Qed.

Lemma drop_until_nil (p : ascii -> bool) (l : list ascii) :
  forallb (fun c => negb (p c)) l = true -> drop_until p l = [].
Proof.
  induction l as [|c l IH]; simpl; auto.
  intros H. apply andb_prop in H as [Hc Hl].
  apply negb_true_iff in Hc. rewrite Hc. auto.
Qed.

(** X4. A time frame without a digit, or with digits and no letter, ends
    in [TypeError] ([search] finds nothing and [None] is subscripted). *)
Theorem timeInterval_without_number_or_unit (tf : string)
        (Hmissing :
           forallb (fun c => negb (is_digit c)) (list_ascii_of_string tf) = true
           \/ forallb (fun c => negb (is_letter c)) (list_ascii_of_string tf) = true) :
  _timeInterval tf = Raise TypeError.
Proof.
  unfold _timeInterval.
  destruct Hmissing as [H|H].
  - now rewrite take_while_drop_until_nil.
  - rewrite (drop_until_nil is_letter) by assumption.
    destruct (take_while is_digit _); reflexivity.
Qed.

Lemma timeInterval_without_number_or_unit_witness :
  _timeInterval "m" = Raise TypeError /\ _timeInterval "15" = Raise TypeError.
Proof.
  split.
  - apply (timeInterval_without_number_or_unit "m"). left. reflexivity.
  - apply (timeInterval_without_number_or_unit "15"). right. reflexivity.
Defined.

Lemma unknown_unit_lookup (c : ascii) :
  is_letter c = true ->
  existsb (Ascii.eqb c) (list_ascii_of_string "smhdwMSHDW") = false ->
  Dict.getitem
    (String (if existsb (Ascii.eqb c) (list_ascii_of_string "SHDW")
             then to_lower c else c) EmptyString)
    TIME_INTERVAL
  = Raise KeyError.
Proof.
  each_ascii c; intros H1 H2; try reflexivity;
    try discriminate H1; discriminate H2.
Qed.

(** X5. A time frame with a number whose first letter is not one of
    [s m h d w M S H D W] ends in [KeyError]. *)
Theorem timeInterval_unknown_unit (tf : string) (c : ascii) (rest : list ascii)
        (Hdigit : existsb is_digit (list_ascii_of_string tf) = true)
        (Hfirst : drop_until is_letter (list_ascii_of_string tf) = c :: rest)
        (Hunknown : existsb (Ascii.eqb c) (list_ascii_of_string "smhdwMSHDW")
                    = false) :
  _timeInterval tf = Raise KeyError.
Proof.
  unfold _timeInterval.
  destruct (take_while_drop_until_cons is_digit _ Hdigit) as (d & ds & ->).
  rewrite Hfirst.
  assert (Hletter : is_letter c = true).
  { clear - Hfirst. induction (list_ascii_of_string tf) as [|x l IH];
      simpl in Hfirst; [discriminate|].
    destruct (is_letter x) eqn:E; [now injection Hfirst as <- _|auto]. }
  now rewrite unknown_unit_lookup.
Qed.

Lemma timeInterval_unknown_unit_witness :
  _timeInterval "5x" = Raise KeyError.
Proof.
  apply (timeInterval_unknown_unit "5x" "x"%char []); reflexivity.
Defined.

(** ** The payload, entry by entry *)

Lemma set_absent (k : string) (v : pyval) (d : dict) :
  ~ In k (Dict.keys d) -> Dict.set k v d = d ++ [(k, v)].
Proof.
  induction d as [|[k' v'] d IH]; simpl; auto.
  intros H. destruct (String.eqb_spec k k') as [->|Hne].
  - exfalso. auto.
  - rewrite IH; auto.
Qed.

Lemma keys_set_present (k : string) (v : pyval) (d : dict) :
  In k (Dict.keys d) -> Dict.keys (Dict.set k v d) = Dict.keys d.
Proof.
  induction d as [|[k' v'] d IH]; simpl; [tauto|].
  intros H. destruct (String.eqb_spec k k') as [->|Hne]; simpl; auto.
  destruct H as [H|H]; [congruence|]. now rewrite IH.
Qed.

Lemma keys_set_absent (k : string) (v : pyval) (d : dict) :
  ~ In k (Dict.keys d) -> Dict.keys (Dict.set k v d) = Dict.keys d ++ [k].
Proof.
  intros H. rewrite set_absent by assumption.
  unfold Dict.keys. now rewrite map_app.
Qed.

Lemma get_in_keys (k : string) (v : pyval) (d : dict) :
  Dict.get k d = Some v -> In k (Dict.keys d).
Proof.
  induction d as [|[k' v'] d IH]; simpl; [discriminate|].
  destruct (String.eqb_spec k k') as [->|Hne]; auto.
Qed.

(** The entry sent for one parameter, if any. *)
Definition sent_entry (kv : string * pyval) : dict :=
  match sent (snd kv) with
  | Some w => [(fst kv, w)]
  | None => []
  end.

Lemma prepare_item_sent (acc : dict) (k : string) (v : pyval) :
  ~ In k (Dict.keys acc) ->
  prepare_item acc (k, v) = acc ++ sent_entry (k, v).
Proof.
  intros Hk. unfold prepare_item, sent_entry, sent. cbn [fst snd].
  destruct v as [| b | z | s | l | d]; cbn [py_len].
  - now rewrite app_nil_r.
  - rewrite set_absent by assumption. now destruct b.
  - now rewrite set_absent.
  - destruct s as [|c s]; simpl; [now rewrite app_nil_r|].
    now rewrite set_absent.
  - destruct l as [|x l]; simpl List.length; cbn [Z.of_nat Nat.eqb];
      [now rewrite app_nil_r|].
    now rewrite set_absent.
  - destruct d as [|x d]; simpl List.length; cbn [Z.of_nat Nat.eqb];
      [now rewrite app_nil_r|].
    now rewrite set_absent.
Qed.

Lemma keys_sent_entries (items : dict) (k : string) :
  In k (Dict.keys (flat_map sent_entry items)) -> In k (Dict.keys items).
Proof.
  induction items as [|[k' v'] items IH]; simpl; auto.
  unfold Dict.keys in *. rewrite map_app, in_app_iff.
  intros [H|H]; auto.
  unfold sent_entry in H. cbn [fst snd] in H.
  destruct (sent v'); simpl in H; tauto.
Qed.

Lemma fold_prepare_sent (items acc : dict) :
  NoDup (Dict.keys items) ->
  (forall k, In k (Dict.keys items) -> ~ In k (Dict.keys acc)) ->
  fold_left prepare_item items acc = acc ++ flat_map sent_entry items.
Proof.
  revert acc. induction items as [|[k v] items IH]; intros acc Hnd Hfresh;
    cbn [fold_left flat_map].
  - now rewrite app_nil_r.
  - inversion Hnd as [|? ? Hnotin Hnd']; subst.
    rewrite prepare_item_sent by (apply Hfresh; simpl; auto).
    rewrite IH; [now rewrite app_assoc|assumption|].
    intros k' Hin. unfold Dict.keys. rewrite map_app, in_app_iff.
    intros [H|H].
    + apply (Hfresh k'); simpl; auto.
    + unfold sent_entry in H. cbn [fst snd] in H.
      destruct (sent v); simpl in H; [|tauto].
      destruct H as [<-|[]]. contradiction.
Qed.

(** X6. On an endpoint that is not signed the payload is the parameters
    in their own order, the dropped ones left out and the others
    serialized: nothing is added and nothing changes place. *)
Theorem preparePayload_keeps_order
        (env : Env) (self : BinanceAsync) (params : dict)
        (security : EndpointSecurity) (now : Z)
        (Hkeys : NoDup (Dict.keys params))
        (Hplain : flag_in security SIGNED = false) :
  _preparePayload env self (Some params) security now
  = flat_map sent_entry params.
Proof.
  unfold _preparePayload. rewrite Hplain.
  rewrite fold_prepare_sent; auto.
Qed.

Lemma preparePayload_keeps_order_witness :
  _preparePayload (demo_env echo_start []) demo_self
    (Some [("limit", VInt 5); ("asset", VNone); ("flag", VBool false);
           ("symbol", VStr "BTC")]) USER_STREAM 0
  = [("limit", VInt 5); ("flag", VStr "false"); ("symbol", VStr "BTC")].
Proof.
  apply (preparePayload_keeps_order (demo_env echo_start []) demo_self
           [("limit", VInt 5); ("asset", VNone); ("flag", VBool false);
            ("symbol", VStr "BTC")] USER_STREAM 0).
  - repeat constructor; simpl; intuition discriminate.
  - reflexivity.
Defined.

Lemma signed_payload
        (env : Env) (self : BinanceAsync) (params : dict)
        (security : EndpointSecurity) (now : Z)
        (Hkeys : NoDup (Dict.keys params))
        (Hsigned : flag_in security SIGNED = true)
        (Hfree : forall k, In k (Dict.keys params) -> signing_field k = false) :
  let body := flat_map sent_entry params in
  let signed := body ++ [("recvWindow", _RECV_WINDOW self);
                         ("timestamp", VStr (dec now))] in
  _preparePayload env self (Some params) security now
  = signed ++ [("signature",
                VStr (hmac_sha256_hex env (_SECRET self) (urlencode env signed)))].
Proof.
  intros body signed. unfold _preparePayload. rewrite Hsigned.
  rewrite fold_prepare_sent by auto. cbn [app]. fold body.
  assert (Hbody : forall k, signing_field k = true -> ~ In k (Dict.keys body)).
  { intros k Hk Hin. apply keys_sent_entries in Hin.
    rewrite (Hfree k Hin) in Hk. discriminate. }
  rewrite (set_absent "recvWindow") by (apply Hbody; reflexivity).
  rewrite (set_absent "timestamp").
  2:{ unfold Dict.keys. rewrite map_app, in_app_iff. intros [H|H].
      - revert H. apply Hbody. reflexivity.
      - simpl in H. destruct H as [H|[]]. discriminate. }
  assert (E : (body ++ [("recvWindow", _RECV_WINDOW self)])
                ++ [("timestamp", VStr (dec now))] = signed).
  { unfold signed. now rewrite <- app_assoc. }
  rewrite E. rewrite set_absent; [reflexivity|].
  unfold signed, Dict.keys. rewrite map_app, in_app_iff. intros [H|H].
  - revert H. apply Hbody. reflexivity.
  - simpl in H. destruct H as [H|[H|[]]]; discriminate.
Qed.

(** X7. On a signed endpoint, parameters that name none of the signing
    fields are followed by [recvWindow], [timestamp] and [signature], in
    that order and last; the signature is the HMAC of the url-encoding of
    everything before it. *)
Theorem preparePayload_signs_last
        (env : Env) (self : BinanceAsync) (params : dict)
        (security : EndpointSecurity) (now : Z)
        (Hkeys : NoDup (Dict.keys params))
        (Hsigned : flag_in security SIGNED = true)
        (Hfree : forall k, In k (Dict.keys params) -> signing_field k = false) :
  let body := flat_map sent_entry params in
  let signed := body ++ [("recvWindow", _RECV_WINDOW self);
                         ("timestamp", VStr (dec now))] in
  _preparePayload env self (Some params) security now
  = signed ++ [("signature",
                VStr (hmac_sha256_hex env (_SECRET self) (urlencode env signed)))].
Proof. now apply signed_payload. Qed.

Lemma preparePayload_signs_last_witness :
  _preparePayload (demo_env echo_start []) demo_self
    (Some [("asset", VNone); ("needBtcValuation", VBool true)]) USER_DATA 1700000000000
  = [("needBtcValuation", VStr "true"); ("recvWindow", VStr "5000");
     ("timestamp", VStr "1700000000000"); ("signature", VStr "")].
Proof.
  apply (preparePayload_signs_last (demo_env echo_start []) demo_self
           [("asset", VNone); ("needBtcValuation", VBool true)]
           USER_DATA 1700000000000).
  - repeat constructor; simpl; intuition discriminate.
  - reflexivity.
  - intros k [<-|[<-|[]]]; reflexivity.
Defined.

Lemma sent_fixed (v w : pyval) : sent v = Some w -> sent w = Some w.
Proof.
  destruct v as [| b | z | s | l | d]; simpl; try discriminate.
  - intros [= <-]. now destruct b.
  - now intros [= <-].
  - destruct s as [|c s]; simpl; [discriminate|]. now intros [= <-].
  - destruct l as [|x l]; simpl; [discriminate|]. now intros [= <-].
  - destruct d as [|x d]; simpl; [discriminate|]. now intros [= <-].
Qed.

Lemma sent_entries_fixed (items : dict) :
  flat_map sent_entry (flat_map sent_entry items) = flat_map sent_entry items.
Proof.
  induction items as [|[k v] items IH]; simpl; auto.
  rewrite flat_map_app, IH. f_equal.
  unfold sent_entry at 2 3. cbn [fst snd].
  destruct (sent v) as [w|] eqn:E; simpl; auto.
  unfold sent_entry. cbn [fst snd]. now rewrite (sent_fixed v w E).
Qed.

Lemma keys_sent_entries_NoDup (items : dict) :
  NoDup (Dict.keys items) -> NoDup (Dict.keys (flat_map sent_entry items)).
Proof.
  induction items as [|[k v] items IH]; simpl; auto.
  intros Hnd. inversion Hnd as [|? ? Hnotin Hnd']; subst.
  unfold Dict.keys at 1. rewrite map_app.
  unfold sent_entry at 1. cbn [fst snd].
  destruct (sent v); simpl; auto.
  constructor; auto.
  intros Hin. apply Hnotin. now apply keys_sent_entries.
Qed.

(** X8. On an endpoint that is not signed, preparing a payload that was
    already prepared gives it back unchanged. *)
Theorem preparePayload_twice
        (env : Env) (self : BinanceAsync) (params : dict)
        (security : EndpointSecurity) (now now' : Z)
        (Hkeys : NoDup (Dict.keys params))
        (Hplain : flag_in security SIGNED = false) :
  _preparePayload env self
    (Some (_preparePayload env self (Some params) security now)) security now'
  = _preparePayload env self (Some params) security now.
Proof.
  rewrite (preparePayload_keeps_order env self params security now Hkeys Hplain).
  rewrite preparePayload_keeps_order;
    auto using keys_sent_entries_NoDup, sent_entries_fixed.
Qed.

Lemma preparePayload_twice_witness :
  let once := _preparePayload (demo_env echo_start []) demo_self
                (Some [("flag", VBool true); ("ids", VList [VInt 1; VInt 2])])
                NONE 0 in
  once = [("flag", VStr "true"); ("ids", VStr "[1,2]")]
  /\ _preparePayload (demo_env echo_start []) demo_self (Some once) NONE 1 = once.
Proof.
  split; [reflexivity|].
  apply (preparePayload_twice (demo_env echo_start []) demo_self
           [("flag", VBool true); ("ids", VList [VInt 1; VInt 2])] NONE 0 1).
  - repeat constructor; simpl; intuition discriminate.
  - reflexivity.
Defined.

(** ** What the fan-outs put on the wire *)

(** The request an endpoint is sent with the payload prepared at [now]. *)
Definition mk_request (env : Env) (self : BinanceAsync) (endPoint : Endpoints)
           (params : option dict) (now : Z) : request :=
  {| rq_method := METHOD (value endPoint);
     rq_url := URL (value endPoint);
     rq_params := _preparePayload env self params (SECURITY (value endPoint)) now |}.

Lemma run_requests (env : Env) (self : BinanceAsync) (endPoint : Endpoints)
      (params : option dict) (n : nat) (t : trace) :
  exists rqs,
    snd (run_tasks (repeat (_request env self endPoint params) n) t) = t ++ rqs
    /\ List.length rqs = n
    /\ Forall (fun rq => exists now, rq = mk_request env self endPoint params now) rqs.
Proof.
  revert t. induction n as [|n IH]; intros t.
  - exists []. simpl. now rewrite app_nil_r.
  - cbn [repeat run_tasks]. rewrite request_eq.
    destruct (IH (t ++ [request_of env self endPoint params t])) as (rqs & Ht & Hn & Hall).
    destruct (run_tasks _ (t ++ _)) as [rs t2]. simpl in *.
    exists (request_of env self endPoint params t :: rqs).
    split; [|split].
    + now rewrite Ht, <- app_assoc.
    + simpl. now rewrite Hn.
    + constructor; auto. now exists (clock env t).
Qed.

Lemma request_param (env : Env) (self : BinanceAsync) (endPoint : Endpoints)
      (d : dict) (now : Z) (k : string) (v : pyval) :
  NoDup (Dict.keys d) ->
  signing_field k = false ->
  Dict.get k d = Some v ->
  Dict.get k (rq_params (mk_request env self endPoint (Some d) now))
  = match sent v with Some w => Some w | None => None end.
Proof.
  intros Hnd Hk Hget. cbn [mk_request rq_params].
  rewrite preparePayload_get by (rewrite Hk; apply andb_false_r).
  now rewrite (fold_prepare_present d [] k v Hnd Hget).
Qed.

(** A range over a window that is not empty: its length is the ceiling of
    the width over the step, and its last element is the last multiple of
    the step short of the stop. *)
Lemma range_window (lo hi step : Z) :
  0 < step -> lo < hi ->
  exists n : nat,
    range lo hi step
    = Ok (map (fun i => lo + Z.of_nat i * step) (seq 0 n) ++ [lo + Z.of_nat n * step])
    /\ Z.of_nat (S n) = (hi - lo - 1) / step + 1
    /\ lo + Z.of_nat n * step < hi <= lo + Z.of_nat n * step + step.
Proof.
  intros Hstep Hwin.
  pose (q := (hi - lo - 1) / step).
  assert (Hq : 0 <= q) by (apply Z.div_pos; lia).
  assert (Hlow : step * q <= hi - lo - 1) by (apply Z.mul_div_le; lia).
  assert (Hup : hi - lo - 1 < step * Z.succ q) by (apply Z.mul_succ_div_gt; lia).
  exists (Z.to_nat q). split; [|split].
  - unfold range, range_len.
    destruct (Z.eqb_spec step 0); [lia|].
    destruct (Z.ltb_spec 0 step); [|lia].
    destruct (Z.ltb_spec lo hi); [|lia].
    fold q. replace (Z.to_nat (q + 1)) with (S (Z.to_nat q)) by lia.
    now rewrite seq_S, map_app.
  - fold q. lia.
  - rewrite Z2Nat.id by assumption. nia.
Qed.

Lemma payload_after_snoc (hi maxRange : Z) (pre : list Z) (last : Z) (d : dict) :
  payload_after hi maxRange (pre ++ [last]) d
  = Dict.set "endTime" (VInt (Z.min hi (last + maxRange)))
             (Dict.set "startTime" (VInt last) (payload_after hi maxRange pre d)).
Proof. unfold payload_after. now rewrite fold_left_app. Qed.

Lemma payload_after_keys (hi maxRange : Z) (starts : list Z) (d : dict) :
  In "startTime" (Dict.keys d) -> In "endTime" (Dict.keys d) ->
  Dict.keys (payload_after hi maxRange starts d) = Dict.keys d.
Proof.
  revert d. induction starts as [|s starts IH]; intros d Hs He; [reflexivity|].
  cbn [payload_after fold_left]. fold (payload_after hi maxRange starts).
  assert (K : Dict.keys
                (Dict.set "endTime" (VInt (Z.min hi (s + maxRange)))
                          (Dict.set "startTime" (VInt s) d))
              = Dict.keys d).
  { rewrite keys_set_present; rewrite keys_set_present; auto. }
  unfold payload_after in *. rewrite IH; rewrite K; auto.
Qed.

Lemma split_trace
        (env : Env) (self : BinanceAsync) (endpoint : Endpoints)
        (maxRange lo hi : Z) (params : dict) (t : trace)
        (Hkeys : NoDup (Dict.keys params))
        (Hlo : Dict.get "startTime" params = Some (VInt lo))
        (Hhi : Dict.get "endTime" params = Some (VInt hi))
        (Hstep : 0 < maxRange)
        (Hwin : lo < hi) :
  exists rqs : list request,
    snd (_split_request_interval env self endpoint maxRange params None t)
    = t ++ rqs
    /\ Z.of_nat (List.length rqs) = (hi - lo - 1) / maxRange + 1
    /\ Forall (fun rq =>
                 slice_sent rq
                 = Some (lo + (Z.of_nat (List.length rqs) - 1) * maxRange, hi))
              rqs.
Proof.
  destruct (range_window lo hi maxRange Hstep Hwin) as (n & Hrange & Hn & Hlast).
  set (pre := map (fun i => lo + Z.of_nat i * maxRange) (seq 0 n)) in *.
  set (last := lo + Z.of_nat n * maxRange) in *.
  rewrite (split_unfold env self endpoint maxRange lo hi params _ t Hlo Hhi Hrange).
  cbv zeta.
  set (d := payload_after hi maxRange (pre ++ [last]) params).
  destruct (run_requests env self endpoint (Some d) (List.length (pre ++ [last])) t)
    as (rqs & Ht & Hlen & Hall).
  destruct (run_tasks _ t) as [rs t']. cbn [snd] in *.
  assert (Hcount : List.length (pre ++ [last]) = S n).
  { rewrite length_app. unfold pre. rewrite length_map, length_seq. simpl. lia. }
  exists rqs. split; [assumption|]. split; [lia|].
  assert (Hd : NoDup (Dict.keys d)).
  { unfold d. rewrite payload_after_keys; eauto using get_in_keys. }
  assert (Hds : Dict.get "startTime" d = Some (VInt last)).
  { unfold d. rewrite payload_after_snoc.
    rewrite get_set_other by discriminate. apply get_set_same. }
  assert (Hde : Dict.get "endTime" d = Some (VInt hi)).
  { unfold d. rewrite payload_after_snoc, get_set_same.
    do 2 f_equal. lia. }
  eapply Forall_impl; [|exact Hall].
  intros rq [now ->]. unfold slice_sent.
  rewrite (request_param env self endpoint d now "startTime" (VInt last))
    by auto.
  rewrite (request_param env self endpoint d now "endTime" (VInt hi))
    by auto.
  cbn [sent]. do 2 f_equal. unfold last. lia.
Qed.

(** X9. For a window with start below end and a positive stride, the
    splitter sends as many requests as the window holds strides (the
    ceiling of the width over the stride), and every one of them asks for
    the same window: from the last cursor to the end. *)
Theorem split_requests_all_ask_last_slice
        (env : Env) (self : BinanceAsync) (endpoint : Endpoints)
        (maxRange lo hi : Z) (params : dict) (t : trace)
        (Hkeys : NoDup (Dict.keys params))
        (Hlo : Dict.get "startTime" params = Some (VInt lo))
        (Hhi : Dict.get "endTime" params = Some (VInt hi))
        (Hstep : 0 < maxRange)
        (Hwin : lo < hi) :
  exists rqs : list request,
    snd (_split_request_interval env self endpoint maxRange params None t)
    = t ++ rqs
    /\ Z.of_nat (List.length rqs) = (hi - lo - 1) / maxRange + 1
    /\ Forall (fun rq =>
                 slice_sent rq
                 = Some (lo + (Z.of_nat (List.length rqs) - 1) * maxRange, hi))
              rqs.
Proof. now apply split_trace. Qed.

Lemma split_requests_all_ask_last_slice_witness :
  exists rqs : list request,
    snd (_split_request_interval (demo_env echo_start []) demo_self SPOT_TRADES 3000
           [("startTime", VInt 0); ("endTime", VInt 10000)] None [])
    = rqs
    /\ Z.of_nat (List.length rqs) = 4
    /\ Forall (fun rq => slice_sent rq = Some (9000, 10000)) rqs.
Proof.
  destruct (split_requests_all_ask_last_slice
              (demo_env echo_start []) demo_self SPOT_TRADES 3000 0 10000
              [("startTime", VInt 0); ("endTime", VInt 10000)] [])
    as (rqs & Ht & Hn & Hall).
  - repeat constructor; simpl; intuition discriminate.
  - reflexivity.
  - reflexivity.
  - lia.
  - lia.
  - exists rqs. split; [exact Ht|]. split; [exact Hn|].
    rewrite Hn in Hall. exact Hall.
Defined.

(** X10. A window whose end is not above its start is an empty range: the
    splitter sends nothing and returns the empty list, without an error.
    A stride of zero ends in [ValueError], nothing being sent. *)
Theorem split_degenerate
        (env : Env) (self : BinanceAsync) (endpoint : Endpoints)
        (maxRange lo hi : Z) (params : dict) (t : trace)
        (Hlo : Dict.get "startTime" params = Some (VInt lo))
        (Hhi : Dict.get "endTime" params = Some (VInt hi)) :
  (0 < maxRange -> hi <= lo ->
   _split_request_interval env self endpoint maxRange params None t
   = (Ok (VList []), t))
  /\ (maxRange = 0 ->
      _split_request_interval env self endpoint maxRange params None t
      = (Raise ValueError, t)).
Proof.
  split.
  - intros Hstep Hrev.
    assert (Hr : range lo hi maxRange = Ok []).
    { unfold range, range_len.
      destruct (Z.eqb_spec maxRange 0); [lia|].
      destruct (Z.ltb_spec 0 maxRange); [|lia].
      destruct (Z.ltb_spec lo hi); [lia|reflexivity]. }
    rewrite (split_unfold env self endpoint maxRange lo hi params [] t Hlo Hhi Hr).
    pose proof (join_ok (arrival env) (@nil pyval)) as Hjoin.
    simpl in *. now rewrite Hjoin.
  - intros ->.
    unfold _split_request_interval, bind, lift, Dict.getitem.
    rewrite Hlo, Hhi. reflexivity.
Qed.

Lemma split_degenerate_witness :
  _split_request_interval (demo_env echo_start []) demo_self SPOT_TRADES 1000
    [("startTime", VInt 9); ("endTime", VInt 5)] None []
  = (Ok (VList []), [])
  /\ _split_request_interval (demo_env echo_start []) demo_self SPOT_TRADES 0
       [("startTime", VInt 5); ("endTime", VInt 9)] None []
     = (Raise ValueError, []).
Proof.
  split.
  - apply (split_degenerate (demo_env echo_start []) demo_self SPOT_TRADES
             1000 9 5 [("startTime", VInt 9); ("endTime", VInt 5)] []
             eq_refl eq_refl); lia.
  - apply (split_degenerate (demo_env echo_start []) demo_self SPOT_TRADES
             0 5 9 [("startTime", VInt 5); ("endTime", VInt 9)] []
             eq_refl eq_refl). reflexivity.
Defined.

Lemma NoDup_keys_set (k : string) (v : pyval) (d : dict) :
  NoDup (Dict.keys d) -> NoDup (Dict.keys (Dict.set k v d)).
Proof.
  intros Hnd. destruct (in_dec string_dec k (Dict.keys d)) as [Hin|Hout].
  - now rewrite keys_set_present.
  - rewrite keys_set_absent by assumption.
    apply NoDup_app; [assumption|repeat constructor; simpl; tauto|].
    intros x Hx [<-|[]]. contradiction.
Qed.

Lemma paginated_one_request
        (env : Env) (self : BinanceAsync) (endPoint : Endpoints) (params : dict)
        (rowsKey pageKey dataKey totalKey : string) (t : trace)
        (ipp total status : Z) (body : pyval) (data : list pyval)
        (Hrows : Dict.get rowsKey params = Some (VInt ipp))
        (Hipp : 0 < ipp)
        (Hreply : server env t
                    (request_of env self endPoint
                       (Some (Dict.set pageKey (VInt 1) params)) t)
                  = Reply status (Some body))
        (Hdata : rbind (getitem body dataKey) iter = Ok data)
        (Htotal : getitem body totalKey = Ok (VInt total))
        (Hfew : total < ipp) :
  _paginatedRequests env self endPoint params rowsKey pageKey dataKey totalKey t
  = (Ok (VList data),
     t ++ [request_of env self endPoint (Some (Dict.set pageKey (VInt 1) params)) t]).
Proof.
  assert (Hr : range ipp (total + 1) ipp = Ok []).
  { unfold range, range_len.
    destruct (Z.eqb_spec ipp 0); [lia|].
    destruct (Z.ltb_spec 0 ipp); [|lia].
    destruct (Z.ltb_spec ipp (total + 1)); [lia|reflexivity]. }
  rewrite (paginated_unfold env self endPoint params rowsKey pageKey dataKey
             totalKey t
             (t ++ [request_of env self endPoint
                      (Some (Dict.set pageKey (VInt 1) params)) t])
             ipp total body data [] Hrows).
  - pose proof (join_ok (arrival env) (@nil pyval)) as Hjoin.
    simpl in *. rewrite Hjoin. simpl. now rewrite app_nil_r.
  - now rewrite request_eq, Hreply.
  - assumption.
  - now rewrite Htotal.
  - assumption.
Qed.

(** X11. When the first page reports a total below the rows of a page,
    the fan-out paginator sends that one request and returns the items of
    the first page. *)
Theorem paginated_single_page
        (env : Env) (self : BinanceAsync) (endPoint : Endpoints) (params : dict)
        (rowsKey pageKey dataKey totalKey : string) (t : trace)
        (ipp total status : Z) (body : pyval) (data : list pyval)
        (Hrows : Dict.get rowsKey params = Some (VInt ipp))
        (Hipp : 0 < ipp)
        (Hreply : server env t
                    (request_of env self endPoint
                       (Some (Dict.set pageKey (VInt 1) params)) t)
                  = Reply status (Some body))
        (Hdata : rbind (getitem body dataKey) iter = Ok data)
        (Htotal : getitem body totalKey = Ok (VInt total))
        (Hfew : total < ipp) :
  _paginatedRequests env self endPoint params rowsKey pageKey dataKey totalKey t
  = (Ok (VList data),
     t ++ [request_of env self endPoint (Some (Dict.set pageKey (VInt 1) params)) t]).
Proof. now apply paginated_one_request with ipp total status body. Qed.

Lemma paginated_single_page_witness :
  _paginatedRequests (demo_env (echo_page 7) []) demo_self FIAT_ORDERS
    [("rows", VInt 20)] "rows" "page" "data" "total" []
  = (Ok (VList [VInt 1]),
     [request_of (demo_env (echo_page 7) []) demo_self FIAT_ORDERS
        (Some [("rows", VInt 20); ("page", VInt 1)]) []]).
Proof.
  apply (paginated_single_page (demo_env (echo_page 7) []) demo_self FIAT_ORDERS
           [("rows", VInt 20)] "rows" "page" "data" "total" [] 20 7 200
           (VDict [("data", VList [VInt 1]); ("total", VInt 7)]) [VInt 1]);
    try reflexivity; lia.
Defined.

(** X12. For a total that is not negative and a positive number of rows,
    the fan-out paginator sends the first request and then [total // rows]
    more, and every one of the latter asks for the same page, the last:
    [1 + total // rows]. *)
Theorem paginated_requests_all_ask_last_page
        (env : Env) (self : BinanceAsync) (endPoint : Endpoints) (params : dict)
        (rowsKey pageKey dataKey totalKey : string) (t : trace)
        (ipp total status : Z) (body : pyval) (data : list pyval)
        (Hkeys : NoDup (Dict.keys params))
        (Hpage : signing_field pageKey = false)
        (Hrows : Dict.get rowsKey params = Some (VInt ipp))
        (Hipp : 0 < ipp)
        (Hreply : server env t
                    (request_of env self endPoint
                       (Some (Dict.set pageKey (VInt 1) params)) t)
                  = Reply status (Some body))
        (Hdata : rbind (getitem body dataKey) iter = Ok data)
        (Htotal : getitem body totalKey = Ok (VInt total))
        (Hsome : 0 <= total) :
  exists rqs : list request,
    snd (_paginatedRequests env self endPoint params rowsKey pageKey dataKey
                            totalKey t)
    = t ++ request_of env self endPoint (Some (Dict.set pageKey (VInt 1) params)) t
        :: rqs
    /\ Z.of_nat (List.length rqs) = total / ipp
    /\ Forall (fun rq => Dict.get pageKey (rq_params rq)
                         = Some (VInt (1 + total / ipp))) rqs.
Proof.
  destruct (range ipp (total + 1) ipp) as [turns|e] eqn:Hr.
  2:{ unfold range in Hr. destruct (Z.eqb_spec ipp 0); [lia|].
      destruct (0 <? ipp); discriminate. }
  pose proof (fanout_count ipp total turns Hipp Hsome Hr) as Hcount.
  rewrite (paginated_unfold env self endPoint params rowsKey pageKey dataKey
             totalKey t
             (t ++ [request_of env self endPoint
                      (Some (Dict.set pageKey (VInt 1) params)) t])
             ipp total body data turns Hrows);
    [ | now rewrite request_eq, Hreply | assumption | now rewrite Htotal
      | assumption ].
  cbv zeta.
  set (d := Dict.set pageKey (VInt (1 + Z.of_nat (List.length turns))) params).
  destruct (run_requests env self endPoint (Some d) (List.length turns)
              (t ++ [request_of env self endPoint
                       (Some (Dict.set pageKey (VInt 1) params)) t]))
    as (rqs & Ht & Hlen & Hall).
  destruct (run_tasks _ _) as [rs t']. cbn [snd] in *.
  exists rqs. split; [|split].
  - rewrite Ht, <- app_assoc. reflexivity.
  - lia.
  - eapply Forall_impl; [|exact Hall].
    intros rq [now ->].
    rewrite (request_param env self endPoint d now pageKey
               (VInt (1 + Z.of_nat (List.length turns)))).
    + cbn [sent]. do 3 f_equal. lia.
    + unfold d. now apply NoDup_keys_set.
    + assumption.
    + unfold d. apply get_set_same.
Qed.

Lemma paginated_requests_all_ask_last_page_witness :
  exists rqs : list request,
    snd (_paginatedRequests (demo_env (echo_page 100) []) demo_self FIAT_ORDERS
           [("rows", VInt 20)] "rows" "page" "data" "total" [])
    = request_of (demo_env (echo_page 100) []) demo_self FIAT_ORDERS
        (Some [("rows", VInt 20); ("page", VInt 1)]) [] :: rqs
    /\ Z.of_nat (List.length rqs) = 5
    /\ Forall (fun rq => Dict.get "page" (rq_params rq) = Some (VInt 6)) rqs.
Proof.
  destruct (paginated_requests_all_ask_last_page
              (demo_env (echo_page 100) []) demo_self FIAT_ORDERS
              [("rows", VInt 20)] "rows" "page" "data" "total" [] 20 100 200
              (VDict [("data", VList [VInt 1]); ("total", VInt 100)]) [VInt 1])
    as (rqs & Ht & Hn & Hall); try reflexivity; try lia.
  - repeat constructor; simpl; intuition discriminate.
  - exists rqs. split; [exact Ht|]. split; [exact Hn|exact Hall].
Defined.

(** X13. Without the rows in the parameters the fan-out paginator ends in
    [KeyError] before anything is sent; with zero rows it ends in
    [ValueError] once the first page has been fetched, the range of the
    loop having a step of zero. *)
Theorem paginated_bad_rows
        (env : Env) (self : BinanceAsync) (endPoint : Endpoints) (params : dict)
        (rowsKey pageKey dataKey totalKey : string) (t : trace) :
  (Dict.get rowsKey params = None ->
   _paginatedRequests env self endPoint params rowsKey pageKey dataKey totalKey t
   = (Raise KeyError, t))
  /\ (forall status body data total,
         Dict.get rowsKey params = Some (VInt 0) ->
         server env t
           (request_of env self endPoint (Some (Dict.set pageKey (VInt 1) params)) t)
         = Reply status (Some body) ->
         rbind (getitem body dataKey) iter = Ok data ->
         getitem body totalKey = Ok (VInt total) ->
         _paginatedRequests env self endPoint params rowsKey pageKey dataKey
                            totalKey t
         = (Raise ValueError,
            t ++ [request_of env self endPoint
                    (Some (Dict.set pageKey (VInt 1) params)) t])).
Proof.
  split.
  - intros Hnone. unfold _paginatedRequests, alloc.
    change (List.length (@nil dict)) with 0%nat.
    change ([] ++ [params]) with [params].
    rewrite load_single. unfold bind, lift, Dict.getitem.
    now rewrite Hnone.
  - intros status body data total Hrows Hreply Hdata Htotal.
    unfold _paginatedRequests, alloc.
    change (List.length (@nil dict)) with 0%nat.
    change ([] ++ [params]) with [params].
    rewrite load_single. cbn [store]. rewrite load_single.
    unfold bind, lift, Dict.getitem. rewrite Hrows.
    rewrite request_eq, Hreply. cbn [decoded].
    rewrite Hdata, Htotal. reflexivity.
Qed.

Lemma paginated_bad_rows_witness :
  _paginatedRequests (demo_env (echo_page 7) []) demo_self FIAT_ORDERS
    [("beginTime", VInt 1)] "rows" "page" "data" "total" []
  = (Raise KeyError, [])
  /\ fst (_paginatedRequests (demo_env (echo_page 7) []) demo_self FIAT_ORDERS
            [("rows", VInt 0)] "rows" "page" "data" "total" [])
     = Raise ValueError.
Proof.
  split.
  - apply (paginated_bad_rows (demo_env (echo_page 7) []) demo_self FIAT_ORDERS
             [("beginTime", VInt 1)] "rows" "page" "data" "total" []).
    reflexivity.
  - destruct (paginated_bad_rows (demo_env (echo_page 7) []) demo_self FIAT_ORDERS
                [("rows", VInt 0)] "rows" "page" "data" "total" []) as [_ H].
    rewrite (H 200 (VDict [("data", VList [VInt 1]); ("total", VInt 7)])
               [VInt 1] 7);
      reflexivity.
Defined.

(** ** The cursor paginator, page after page *)

(** A full page: as long as the limit, its last item carrying an [id]. *)
Definition full_page (limit : Z) (page : list pyval) : Prop :=
  Z.of_nat (List.length page) = limit
  /\ exists item id, last_item (VList page) = Ok item
                     /\ getitem item "id" = Ok (VInt id).

Lemma trades_loop_pages (env : Env) (self : BinanceAsync) (limit : Z)
      (lastp : list pyval) (ps : list (list pyval)) :
  Z.of_nat (List.length lastp) < limit ->
  Forall (full_page limit) ps ->
  forall (fuel : nat) (payload : dict) (data : list pyval) (t : trace),
    (List.length ps < fuel)%nat ->
    (forall j tr rq,
        (j < List.length ps)%nat ->
        List.length tr = (List.length t + j)%nat ->
        server env tr rq = Reply 200 (Some (VList (nth (S j) (ps ++ [lastp]) [])))) ->
    exists rqs,
      trades_loop env self fuel false (VInt limit) payload data
                  (VList (nth 0%nat (ps ++ [lastp]) [])) t
      = (Ok (Some (VList (data ++ List.concat ps ++ lastp))), t ++ rqs)
      /\ List.length rqs = List.length ps.
Proof.
  intros Hlast Hfull. induction Hfull as [|p ps Hp Hps IH];
    intros fuel payload data t Hfuel Hserver.
  - destruct fuel as [|fuel]; [simpl in Hfuel; lia|].
    exists []. cbn [app nth List.concat].
    rewrite trades_loop_partial by assumption.
    now rewrite app_nil_r.
  - destruct fuel as [|fuel]; [simpl in Hfuel; lia|].
    destruct Hp as (Hlen & item & id & Hitem & Hid).
    cbn [app nth].
    rewrite (trades_loop_full env self fuel limit id payload data p item t)
      by (try lia; auto; rewrite Hid; reflexivity).
    cbv zeta. unfold bind at 1. rewrite request_eq.
    rewrite (Hserver 0%nat) by (simpl; lia). cbn [decoded].
    change (nth 1 ((p :: ps) ++ [lastp]) []) with (nth 0 (ps ++ [lastp]) []).
    set (payload' := Dict.pop "startTime" (Dict.set "fromId" (VInt (id + 1)) payload)).
    set (rq := request_of env self SPOT_TRADES (Some payload') t).
    destruct (IH fuel payload' (data ++ p) (t ++ [rq])) as (rqs & Hrun & Hn).
    + simpl in Hfuel. lia.
    + intros j tr rq' Hj Htr. rewrite length_app in Htr. simpl in Htr.
      apply (Hserver (S j)); simpl; lia.
    + exists (rq :: rqs). rewrite Hrun. split.
      * cbn [List.concat]. now rewrite <- !app_assoc.
      * simpl. now rewrite Hn.
Qed.

(** X14. Without an end time and with [enforceLimit] off, a server that
    answers any number of full pages and then a partial one is asked once
    per page, and the call returns the pages concatenated in the order
    they were fetched; fuel for one turn per page is enough. *)
Theorem tradesCycle_any_number_of_pages
        (env : Env) (self : BinanceAsync) (fuel : nat) (params : dict)
        (limit : Z) (pages : list (list pyval)) (lastp : list pyval) (t : trace)
        (Hfuel : (List.length pages < fuel)%nat)
        (Hlimit : Dict.get "limit" params = Some (VInt limit))
        (Hend : Dict.get "endTime" params = Some VNone)
        (Hfull : Forall (full_page limit) pages)
        (Hpartial : Z.of_nat (List.length lastp) < limit)
        (Hserver : forall j tr rq,
            (j <= List.length pages)%nat ->
            List.length tr = (List.length t + j)%nat ->
            server env tr rq
            = Reply 200 (Some (VList (nth j (pages ++ [lastp]) [])))) :
  exists rqs : list request,
    _tradesCycle env self fuel params false t
    = (Ok (Some (VList (List.concat pages ++ lastp))), t ++ rqs)
    /\ List.length rqs = S (List.length pages).
Proof.
  unfold _tradesCycle, Dict.getitem. rewrite Hlimit, Hend.
  unfold bind at 1, lift at 1. cbv beta iota.
  unfold bind at 1. rewrite request_eq.
  rewrite (Hserver 0%nat) by lia. cbn [decoded].
  unfold bind at 1, lift at 1. cbn [py_bool].
  set (rq := request_of env self SPOT_TRADES (Some params) t).
  destruct (trades_loop_pages env self limit lastp pages Hpartial Hfull
              fuel params [] (t ++ [rq]) Hfuel) as (rqs & Hrun & Hn).
  - intros j tr rq' Hj Htr. rewrite length_app in Htr. simpl in Htr.
    apply Hserver; lia.
  - exists (rq :: rqs). rewrite Hrun. split.
    + now rewrite <- app_assoc.
    + simpl. now rewrite Hn.
Qed.

Lemma tradesCycle_any_number_of_pages_witness :
  exists rqs : list request,
    _tradesCycle (demo_env scripted []) demo_self 4 (cursor_params VNone) false []
    = (Ok (Some (VList [trade 1; trade 2; trade 3; trade 4;
                        trade 5; trade 6; trade 7])), rqs)
    /\ List.length rqs = 4%nat.
Proof.
  apply (tradesCycle_any_number_of_pages
           (demo_env scripted []) demo_self 4 (cursor_params VNone) 2
           [[trade 1; trade 2]; [trade 3; trade 4]; [trade 5; trade 6]]
           [trade 7] []).
  - simpl. lia.
  - reflexivity.
  - reflexivity.
  - repeat constructor; simpl;
      try (do 2 eexists; split; reflexivity).
  - simpl. lia.
  - intros j tr rq Hj Htr. unfold demo_env, scripted. cbn [server].
    rewrite Htr. simpl in Hj.
    destruct j as [|[|[|[|j]]]]; try reflexivity. lia.
Defined.

Lemma get_none_keys (k : string) (d : dict) :
  Dict.get k d = None -> ~ In k (Dict.keys d).
Proof.
  induction d as [|[k' v'] d IH]; cbn [Dict.get Dict.keys map fst In]; auto.
  destruct (String.eqb_spec k k') as [->|Hne]; [discriminate|].
  intros Hnone [H|H]; [congruence|]. now apply IH.
Qed.

Lemma get_pop_same (k : string) (d : dict) :
  NoDup (Dict.keys d) -> Dict.get k (Dict.pop k d) = None.
Proof.
  induction d as [|[k' v'] d IH]; simpl; auto.
  intros Hnd. inversion Hnd as [|? ? Hnotin Hnd']; subst.
  destruct (String.eqb_spec k k') as [->|Hne].
  - now apply get_none_not_in.
  - simpl. destruct (String.eqb_spec k k'); [contradiction|auto].
Qed.

Lemma get_pop_other (k k' : string) (d : dict) :
  k <> k' -> Dict.get k (Dict.pop k' d) = Dict.get k d.
Proof.
  intros Hne. induction d as [|[k0 v0] d IH]; simpl; auto.
  destruct (String.eqb_spec k' k0) as [->|Hk]; simpl.
  - destruct (String.eqb_spec k k0); congruence.
  - destruct (String.eqb_spec k k0); auto.
Qed.

Lemma keys_pop_incl (k x : string) (d : dict) :
  In x (Dict.keys (Dict.pop k d)) -> In x (Dict.keys d).
Proof.
  induction d as [|[k' v'] d IH]; simpl; auto.
  destruct (String.eqb k k'); simpl; tauto.
Qed.

Lemma NoDup_keys_pop (k : string) (d : dict) :
  NoDup (Dict.keys d) -> NoDup (Dict.keys (Dict.pop k d)).
Proof.
  induction d as [|[k' v'] d IH]; simpl; auto.
  intros Hnd. inversion Hnd as [|? ? Hnotin Hnd']; subst.
  destruct (String.eqb k k'); simpl; auto.
  constructor; auto. intros Hin. apply Hnotin. eapply keys_pop_incl; eauto.
Qed.

Lemma trades_loop_extends (env : Env) (self : BinanceAsync) (fuel : nat)
      (enforceLimit : bool) (limit : pyval) (payload : dict)
      (data : list pyval) (resp : pyval) (t : trace) :
  exists rqs,
    snd (trades_loop env self fuel enforceLimit limit payload data resp t)
    = t ++ rqs.
Proof.
  revert payload data resp t.
  induction fuel as [|fuel IH]; intros payload data resp t.
  - exists []. rewrite app_nil_r. simpl. now destruct enforceLimit.
  - cbn [trades_loop]. destruct enforceLimit.
    + exists []. now rewrite app_nil_r.
    + unfold bind, lift, ret.
      destruct (iter resp) as [items|]; [|exists []; now rewrite app_nil_r].
      destruct (len resp) as [n|]; [|exists []; now rewrite app_nil_r].
      destruct (as_int limit) as [lim|]; [|exists []; now rewrite app_nil_r].
      destruct (_ <? _); [exists []; now rewrite app_nil_r|].
      destruct (last_item resp) as [item|]; [|exists []; now rewrite app_nil_r].
      destruct (rbind _ _) as [id|]; [|exists []; now rewrite app_nil_r].
      rewrite request_eq.
      destruct (decoded _) as [resp'|e].
      * destruct (IH (Dict.pop "startTime"
                        (Dict.set "fromId" (VInt (id + 1)) payload))
                     (data ++ items) resp'
                     (t ++ [request_of env self SPOT_TRADES
                              (Some (Dict.pop "startTime"
                                       (Dict.set "fromId" (VInt (id + 1)) payload)))
                              t]))
          as (rqs & ->).
        eexists. now rewrite <- app_assoc.
      * eexists. reflexivity.
Qed.

(** X15. After a full page the next request is sent from the cursor: it
    carries [fromId], one above the [id] of the last item of the page,
    and no [startTime]. *)
Theorem trades_loop_next_cursor
        (env : Env) (self : BinanceAsync) (fuel : nat) (limit id : Z)
        (payload : dict) (data page : list pyval) (item : pyval) (t : trace)
        (Hkeys : NoDup (Dict.keys payload))
        (Hfull : limit <= Z.of_nat (List.length page))
        (Hlast : last_item (VList page) = Ok item)
        (Hid : getitem item "id" = Ok (VInt id)) :
  exists (rq : request) (rest : list request),
    snd (trades_loop env self (S fuel) false (VInt limit) payload data
                     (VList page) t)
    = t ++ rq :: rest
    /\ Dict.get "fromId" (rq_params rq) = Some (VInt (id + 1))
    /\ Dict.get "startTime" (rq_params rq) = None.
Proof.
  set (payload' := Dict.pop "startTime" (Dict.set "fromId" (VInt (id + 1)) payload)).
  exists (request_of env self SPOT_TRADES (Some payload') t).
  assert (Hnd : NoDup (Dict.keys payload'))
    by (unfold payload'; auto using NoDup_keys_pop, NoDup_keys_set).
  rewrite (trades_loop_full env self fuel limit id payload data page item t)
    by (auto; rewrite Hid; reflexivity).
  cbv zeta. fold payload'. unfold bind. rewrite request_eq.
  assert (Hrest : exists rest,
             snd (let (r, t') :=
                    (decoded (server env t
                                (request_of env self SPOT_TRADES (Some payload') t)),
                     t ++ [request_of env self SPOT_TRADES (Some payload') t]) in
                  match r with
                  | Ok a => trades_loop env self fuel false (VInt limit) payload'
                                        (data ++ page) a t'
                  | Raise e => (Raise e, t')
                  end)
             = t ++ request_of env self SPOT_TRADES (Some payload') t :: rest).
  { cbv beta iota. destruct (decoded _) as [resp|e].
    - destruct (trades_loop_extends env self fuel false (VInt limit) payload'
                  (data ++ page) resp
                  (t ++ [request_of env self SPOT_TRADES (Some payload') t]))
        as (rqs & ->).
      exists rqs. now rewrite <- app_assoc.
    - exists []. reflexivity. }
  destruct Hrest as [rest Hrest]. exists rest.
  split; [exact Hrest|]. split.
  - change (request_of env self SPOT_TRADES (Some payload') t)
      with (mk_request env self SPOT_TRADES (Some payload') (clock env t)).
    rewrite (request_param env self SPOT_TRADES payload' (clock env t) "fromId"
               (VInt (id + 1))); auto.
    unfold payload'. rewrite get_pop_other by discriminate. apply get_set_same.
  - cbn [request_of rq_params].
    rewrite preparePayload_get by (apply andb_false_r).
    rewrite fold_prepare_absent; [reflexivity|].
    apply get_none_keys. unfold payload'.
    apply get_pop_same; auto using NoDup_keys_set.
Qed.

Lemma trades_loop_next_cursor_witness :
  exists (rq : request) (rest : list request),
    snd (trades_loop (demo_env scripted []) demo_self 1 false (VInt 2)
           (cursor_params VNone) [] (VList [trade 1; trade 2]) [])
    = rq :: rest
    /\ Dict.get "fromId" (rq_params rq) = Some (VInt 3)
    /\ Dict.get "startTime" (rq_params rq) = None.
Proof.
  apply (trades_loop_next_cursor (demo_env scripted []) demo_self 0 2 2
           (cursor_params VNone) [] [trade 1; trade 2] (trade 2) []).
  - repeat constructor; simpl; intuition discriminate.
  - simpl. lia.
  - reflexivity.
  - reflexivity.
Defined.

(** X16. An answer that is a JSON object with fewer keys than the limit
    (the error body of a refused request, say) is taken for a page: the
    cursor paginator returns the list of its key names, after the one
    request. *)
Theorem tradesCycle_object_body_as_page
        (env : Env) (self : BinanceAsync) (fuel : nat) (params : dict)
        (limit status : Z) (body : dict) (t : trace)
        (Hlimit : Dict.get "limit" params = Some (VInt limit))
        (Hend : Dict.get "endTime" params = Some VNone)
        (Hreply : server env t (request_of env self SPOT_TRADES (Some params) t)
                  = Reply status (Some (VDict body)))
        (Hshort : Z.of_nat (List.length body) < limit) :
  _tradesCycle env self (S fuel) params false t
  = (Ok (Some (VList (map VStr (Dict.keys body)))),
     t ++ [request_of env self SPOT_TRADES (Some params) t]).
Proof.
  unfold _tradesCycle, Dict.getitem. rewrite Hlimit, Hend.
  unfold bind at 1, lift at 1. cbv beta iota.
  unfold bind at 1. rewrite request_eq, Hreply. cbn [decoded].
  unfold bind at 1, lift at 1. cbn [py_bool].
  cbn [trades_loop]. unfold bind, lift, ret. cbn [iter len py_len as_int app].
  destruct (Z.ltb_spec (Z.of_nat (List.length body)) limit); [reflexivity|lia].
Qed.

Lemma tradesCycle_object_body_as_page_witness :
  _tradesCycle (demo_env server_404 []) demo_self 1
    [("symbol", VStr "NOPE"); ("endTime", VNone); ("limit", VInt 1000)] false []
  = (Ok (Some (VList [VStr "code"; VStr "msg"])),
     [request_of (demo_env server_404 []) demo_self SPOT_TRADES
        (Some [("symbol", VStr "NOPE"); ("endTime", VNone); ("limit", VInt 1000)])
        []]).
Proof.
  apply (tradesCycle_object_body_as_page (demo_env server_404 []) demo_self 0
           [("symbol", VStr "NOPE"); ("endTime", VNone); ("limit", VInt 1000)]
           1000 404
           [("code", VInt (-1121)); ("msg", VStr "Invalid symbol.")] []);
    try reflexivity.
Defined.

Lemma trades_loop_endless (env : Env) (self : BinanceAsync) (limit id : Z)
      (page : list pyval) (item : pyval) :
  limit <= Z.of_nat (List.length page) ->
  last_item (VList page) = Ok item ->
  getitem item "id" = Ok (VInt id) ->
  (forall tr rq, server env tr rq = Reply 200 (Some (VList page))) ->
  forall (fuel : nat) (payload : dict) (data : list pyval) (t : trace),
    fst (trades_loop env self fuel false (VInt limit) payload data (VList page) t)
    = Ok None.
Proof.
  intros Hfull Hlast Hid Hserver. induction fuel as [|fuel IH];
    intros payload data t; [reflexivity|].
  rewrite (trades_loop_full env self fuel limit id payload data page item t)
    by (auto; rewrite Hid; reflexivity).
  cbv zeta. unfold bind. rewrite request_eq, Hserver. cbn [decoded].
  apply IH.
Qed.

(** X17. Against a server that answers every request with a full page,
    the cursor paginator never returns: however many turns the loop is
    given, it is still fetching when they are used up. *)
Theorem tradesCycle_endless
        (env : Env) (self : BinanceAsync) (params : dict) (limit id : Z)
        (page : list pyval) (item : pyval)
        (Hlimit : Dict.get "limit" params = Some (VInt limit))
        (Hend : Dict.get "endTime" params = Some VNone)
        (Hfull : limit <= Z.of_nat (List.length page))
        (Hlast : last_item (VList page) = Ok item)
        (Hid : getitem item "id" = Ok (VInt id))
        (Hserver : forall tr rq, server env tr rq = Reply 200 (Some (VList page))) :
  forall (fuel : nat) (t : trace),
    fst (_tradesCycle env self fuel params false t) = Ok None.
Proof.
  intros fuel t.
  unfold _tradesCycle, Dict.getitem. rewrite Hlimit, Hend.
  unfold bind at 1, lift at 1. cbv beta iota.
  unfold bind at 1. rewrite request_eq, Hserver. cbn [decoded].
  unfold bind at 1, lift at 1. cbn [py_bool].
  now apply (trades_loop_endless env self limit id page item).
Qed.

Definition server_full (t : trace) (rq : request) : reply :=
  Reply 200 (Some (VList [trade 1; trade 2])).

Lemma tradesCycle_endless_witness :
  fst (_tradesCycle (demo_env server_full []) demo_self 50 (cursor_params VNone)
         false [])
  = Ok None.
Proof.
  apply (tradesCycle_endless (demo_env server_full []) demo_self
           (cursor_params VNone) 2 2 [trade 1; trade 2] (trade 2));
    reflexivity.
Defined.

(** X18. A [spotTrades] call with an end time and no start time sends
    exactly one request and returns its answer as it is, whatever
    [enforceLimit] and whatever the size of the answer. *)
Theorem spotTrades_until_only
        (env : Env) (self : BinanceAsync) (fuel : nat) (symbol : string)
        (until : Z) (orderId fromId : pyval) (limit : Z) (enforceLimit : bool)
        (t : trace) (Huntil : until <> 0) :
  exists s,
    _prepareSymbol (VStr symbol) = Ok s
    /\ let rq := request_of env self SPOT_TRADES
                   (Some (spot_params s None (Some until) orderId fromId limit)) t in
       spotTrades env self fuel (VStr symbol) None (Some until) orderId fromId
                  limit enforceLimit t
       = (rbind (decoded (server env t rq)) (fun resp => Ok (Some resp)), t ++ [rq]).
Proof.
  destruct (prepareSymbol_str symbol) as [s Hs].
  exists s. split; [assumption|]. cbv zeta.
  unfold spotTrades. rewrite Hs. unfold bind at 1, lift at 1.
  cbn [time_or_none py_bool andb].
  change (Dict.of_list
            [("symbol", VStr s); ("orderId", orderId); ("startTime", VNone);
             ("endTime", time_or_none (Some until)); ("fromId", fromId);
             ("limit", VInt limit)])
    with (spot_params s None (Some until) orderId fromId limit).
  apply (tradesCycle_bounded env self fuel _ enforceLimit (VInt limit)
           (VInt until)).
  - reflexivity.
  - unfold spot_params, time_or_none, _timestamp.
    destruct (Z.eqb_spec until 0); [contradiction|reflexivity].
  - simpl. destruct (Z.eqb_spec until 0); [contradiction|reflexivity].
Qed.

Lemma spotTrades_until_only_witness :
  spotTrades (demo_env server_full []) demo_self 0 (VStr "btc/usdt") None (Some 99)
             VNone VNone 2 false []
  = (Ok (Some (VList [trade 1; trade 2])),
     [request_of (demo_env server_full []) demo_self SPOT_TRADES
        (Some (spot_params "BTCUSDT" None (Some 99) VNone VNone 2)) []]).
Proof.
  destruct (spotTrades_until_only (demo_env server_full []) demo_self 0 "btc/usdt"
              99 VNone VNone 2 false []) as (s & Hs & H).
  - discriminate.
  - injection Hs as <-. exact H.
Defined.

(** ** Klines, slice by slice *)

Lemma baseKlines_trace (env : Env) (self : BinanceAsync) (params : dict) (t : trace) :
  snd (_baseKlines env self params t)
  = t ++ [request_of env self KLINES (Some params) t].
Proof.
  unfold _baseKlines, bind, lift, ret. rewrite request_eq.
  destruct (decoded _) as [resp|e]; [|reflexivity].
  destruct (iter resp) as [rows|e]; [|reflexivity].
  destruct (rmap _ rows); reflexivity.
Qed.

Lemma run_baseKlines (env : Env) (self : BinanceAsync) (ps : list dict) (t : trace) :
  exists rqs,
    snd (run_tasks (map (_baseKlines env self) ps) t) = t ++ rqs
    /\ Forall2 (fun p rq => exists now, rq = mk_request env self KLINES (Some p) now)
               ps rqs.
Proof.
  revert t. induction ps as [|p ps IH]; intros t.
  - exists []. simpl. now rewrite app_nil_r.
  - cbn [map run_tasks].
    pose proof (baseKlines_trace env self p t) as Hp.
    destruct (_baseKlines env self p t) as [r t1]. cbn [snd] in Hp. subst t1.
    destruct (IH (t ++ [request_of env self KLINES (Some p) t])) as (rqs & Ht & Hall).
    destruct (run_tasks _ (t ++ _)) as [rs t2]. cbn [snd] in *.
    exists (request_of env self KLINES (Some p) t :: rqs). split.
    + now rewrite Ht, <- app_assoc.
    + constructor; auto. now exists (clock env t).
Qed.

Lemma slice_params_sent (env : Env) (self : BinanceAsync)
      (symbol timeframe timezone : string) (limit END_MS STEP start now : Z) :
  slice_sent (mk_request env self KLINES
                (Some (slice_params symbol timeframe timezone limit END_MS STEP start))
                now)
  = Some (start, Z.min END_MS (start + STEP)).
Proof.
  assert (Hnd : NoDup (Dict.keys (slice_params symbol timeframe timezone limit
                                               END_MS STEP start))).
  { repeat constructor; simpl; intuition discriminate. }
  unfold slice_sent.
  rewrite (request_param env self KLINES _ now "startTime" (VInt start) Hnd)
    by reflexivity.
  rewrite (request_param env self KLINES _ now "endTime"
             (VInt (Z.min END_MS (start + STEP))) Hnd)
    by reflexivity.
  reflexivity.
Qed.

Lemma klines_trace (env : Env) (self : BinanceAsync)
      (symbol timeframe timezone : string) (since : Z) (until : option Z)
      (limit BASE_STEP END_MS : Z) (s : string) (starts : list Z) (t : trace) :
  _timeInterval timeframe = Ok BASE_STEP ->
  _prepareSymbol (VStr symbol) = Ok s ->
  _parseTime env since until t = (Ok (since, END_MS), t) ->
  range since (END_MS + BASE_STEP) (BASE_STEP * limit + BASE_STEP) = Ok starts ->
  exists rqs,
    snd (klines env self (VStr symbol) timeframe since until timezone limit t)
    = t ++ rqs
    /\ map slice_sent rqs
       = map (fun c => Some (c, Z.min END_MS (c + BASE_STEP * limit))) starts.
Proof.
  intros Hstep Hsymbol Htimes Hrange.
  rewrite (klines_unfold env self symbol timeframe timezone since until limit
                         BASE_STEP starts t Hstep s END_MS Hsymbol Htimes Hrange).
  rewrite <- (map_map (slice_params s timeframe timezone limit END_MS
                                    (BASE_STEP * limit))
                      (_baseKlines env self)).
  destruct (run_baseKlines env self
              (map (slice_params s timeframe timezone limit END_MS
                                 (BASE_STEP * limit)) starts) t)
    as (rqs & Ht & Hall).
  destruct (run_tasks _ t) as [rs t']. cbn [snd] in *.
  exists rqs. split; [assumption|].
  clear - Hall. revert rqs Hall.
  induction starts as [|c starts IH]; intros rqs Hall; inversion Hall; subst.
  - reflexivity.
  - cbn [map]. f_equal; auto.
    match goal with H : exists now, _ = _ |- _ => destruct H as [now ->] end.
    apply slice_params_sent.
Qed.

(** X19. Every task of [klines] asks for its own slice: the requests go
    out in the order of the slices, the request of the slice starting at
    [c] asking for [[c, min(END, c + STEP)]]. *)
Theorem klines_requests_one_per_slice
        (env : Env) (self : BinanceAsync) (symbol timeframe timezone : string)
        (since : Z) (until : option Z) (limit BASE_STEP END_MS : Z)
        (s : string) (starts : list Z) (t : trace)
        (Hstep : _timeInterval timeframe = Ok BASE_STEP)
        (Hsymbol : _prepareSymbol (VStr symbol) = Ok s)
        (Htimes : _parseTime env since until t = (Ok (since, END_MS), t))
        (Hrange : range since (END_MS + BASE_STEP) (BASE_STEP * limit + BASE_STEP)
                  = Ok starts) :
  exists rqs : list request,
    snd (klines env self (VStr symbol) timeframe since until timezone limit t)
    = t ++ rqs
    /\ map slice_sent rqs
       = map (fun c => Some (c, Z.min END_MS (c + BASE_STEP * limit))) starts.
Proof. now apply klines_trace with s. Qed.

Lemma klines_requests_one_per_slice_witness :
  exists rqs : list request,
    snd (klines (demo_env echo_kline []) demo_self (VStr "btc/usdt") "1m" 0
                (Some 300000) "0" 2 [])
    = rqs
    /\ map slice_sent rqs = [Some (0, 120000); Some (180000, 300000)].
Proof.
  apply (klines_requests_one_per_slice
           (demo_env echo_kline []) demo_self "btc/usdt" "1m" "0" 0 (Some 300000)
           2 60000 300000 "BTCUSDT" [0; 180000] []); reflexivity.
Defined.

(** X20. A [klines] call whose start and end coincide sends exactly one
    request, for the window of that one instant. *)
Theorem klines_single_instant
        (env : Env) (self : BinanceAsync) (symbol timeframe timezone : string)
        (since limit BASE_STEP : Z) (t : trace)
        (Hstep : _timeInterval timeframe = Ok BASE_STEP)
        (Hbase : 0 < BASE_STEP)
        (Hlimit : 0 <= limit)
        (Hsince : since <> 0) :
  exists rq : request,
    snd (klines env self (VStr symbol) timeframe since (Some since) timezone limit t)
    = t ++ [rq]
    /\ slice_sent rq = Some (since, since).
Proof.
  destruct (prepareSymbol_str symbol) as [s Hs].
  destruct (klines_trace env self symbol timeframe timezone since (Some since)
              limit BASE_STEP since s [since] t Hstep Hs)
    as (rqs & Ht & Hsent).
  - unfold _parseTime, _timestamp.
    destruct (Z.eqb_spec since 0); [contradiction|reflexivity].
  - now apply klines_range_single.
  - destruct rqs as [|rq [|rq' rqs]]; try discriminate.
    exists rq. split; [assumption|].
    cbn [map] in Hsent. injection Hsent as ->. do 2 f_equal. nia.
Qed.

Lemma klines_single_instant_witness :
  exists rq : request,
    snd (klines (demo_env echo_kline []) demo_self (VStr "btc/usdt") "1h" 7200000
                (Some 7200000) "0" 1000 [])
    = [rq]
    /\ slice_sent rq = Some (7200000, 7200000).
Proof.
  apply (klines_single_instant (demo_env echo_kline []) demo_self "btc/usdt" "1h" "0"
           7200000 1000 3600000 []); try reflexivity; lia.
Defined.

(** X21. [klines] fails before anything is sent when the symbol is not a
    string ([TypeError]), when the time frame is refused (the error of
    [_timeInterval]), and when the step of its range is zero, as with a
    limit of -1 ([ValueError]). *)
Theorem klines_fails_before_sending
        (env : Env) (self : BinanceAsync) (symbol : pyval)
        (timeframe timezone : string) (since : Z) (until : option Z)
        (limit : Z) (t : trace) :
  ((forall s, symbol <> VStr s) ->
   klines env self symbol timeframe since until timezone limit t
   = (Raise TypeError, t))
  /\ (forall s e,
         symbol = VStr s -> _timeInterval timeframe = Raise e ->
         klines env self symbol timeframe since until timezone limit t
         = (Raise e, t))
  /\ (forall s BASE_STEP,
         symbol = VStr s -> _timeInterval timeframe = Ok BASE_STEP ->
         BASE_STEP * limit + BASE_STEP = 0 ->
         klines env self symbol timeframe since until timezone limit t
         = (Raise ValueError, t)).
Proof.
  split; [|split].
  - intros Hsym. unfold klines, bind, lift.
    destruct symbol; try reflexivity. exfalso. now apply (Hsym s).
  - intros s e -> He. unfold klines. cbn [_prepareSymbol].
    unfold bind at 1, lift at 1. cbv beta iota.
    unfold bind at 1, _parseTime at 1. cbv beta iota zeta.
    rewrite He. reflexivity.
  - intros s BASE_STEP -> Hb Hzero. unfold klines. cbn [_prepareSymbol].
    unfold bind at 1, lift at 1. cbv beta iota.
    unfold bind at 1, _parseTime at 1. cbv beta iota zeta.
    rewrite Hb. unfold bind at 1, lift at 1. cbv beta iota.
    unfold range. rewrite Hzero. reflexivity.
Qed.

Lemma klines_fails_before_sending_witness :
  klines (demo_env echo_kline []) demo_self VNone "1m" 0 (Some 9) "0" 1000 []
  = (Raise TypeError, [])
  /\ klines (demo_env echo_kline []) demo_self (VStr "BTCUSDT") "5x" 0 (Some 9) "0"
            1000 []
     = (Raise KeyError, [])
  /\ klines (demo_env echo_kline []) demo_self (VStr "BTCUSDT") "1m" 0 (Some 9) "0"
            (-1) []
     = (Raise ValueError, []).
Proof.
  split; [|split].
  - apply (klines_fails_before_sending (demo_env echo_kline []) demo_self VNone
             "1m" "0" 0 (Some 9) 1000 []). discriminate.
  - destruct (klines_fails_before_sending (demo_env echo_kline []) demo_self
                (VStr "BTCUSDT") "5x" "0" 0 (Some 9) 1000 []) as (_ & H & _).
    apply (H "BTCUSDT" KeyError); reflexivity.
  - destruct (klines_fails_before_sending (demo_env echo_kline []) demo_self
                (VStr "BTCUSDT") "1m" "0" 0 (Some 9) (-1) []) as (_ & _ & H).
    apply (H "BTCUSDT" 60000); reflexivity.
Defined.

(** ** The fields of a kline *)












(** ** Endpoints and their limiters ([base/baseEndpoint.py]) *)

Inductive ApiType : Type := API | SAPI.

(** [ApiType(value)]: a value that is no member raises [ValueError]. *)
Definition ApiType_of (v : string) : result ApiType :=
  if String.eqb v "api" then Ok API
  else if String.eqb v "sapi" then Ok SAPI
  else Raise ValueError.

Definition api_LIMIT : Z := 6000.
Definition sapi_IP_LIMIT : Z := 12000.
Definition sapi_UID_LIMIT : Z := 180000.
Definition sapi_IP_LIMIT_SEC : Z := 180000.

(** The arguments an [AsyncLimiter] is built with. *)
Record AsyncLimiter : Type := {
  max_rate : Z;
  time_period : Z
}.

(** The limiter of an endpoint: the one of the class, shared, or one of
    its own. *)
Inductive limiter : Type :=
| Shared
| Own (l : AsyncLimiter).

Definition _sharedLimiter : AsyncLimiter :=
  {| max_rate := api_LIMIT; time_period := 60 |}.

Definition rates (l : limiter) : AsyncLimiter :=
  match l with
  | Shared => _sharedLimiter
  | Own a => a
  end.

Definition slash : ascii := ascii_of_nat 47.

Fixpoint before_slash (l : list ascii) : list ascii :=
  match l with
  | [] => []
  | c :: l' => if Ascii.eqb c slash then [] else c :: before_slash l'
  end.

Fixpoint after_slash (l : list ascii) : option (list ascii) :=
  match l with
  | [] => None
  | c :: l' => if Ascii.eqb c slash then Some l' else after_slash l'
  end.

(** [URL.split("/", maxsplit=2)[1]]: what stands between the first slash
    and the second; [IndexError] without a slash. *)
Definition second_segment (url : string) : result string :=
  match after_slash (list_ascii_of_string url) with
  | Some rest => Ok (string_of_list_ascii (before_slash rest))
  | None => Raise IndexError
  end.

(** The limiter [BaseEndpoint.__init__] sets. *)
Definition _limiter (url : string) (limit_type : LimitType) : result limiter :=
  rbind (second_segment url) (fun segment =>
  rbind (ApiType_of segment) (fun API_TYPE =>
  match API_TYPE with
  | SAPI =>
      match limit_type with
      | UID => Ok (Own {| max_rate := sapi_UID_LIMIT; time_period := 60 |})
      | IP => Ok (Own {| max_rate := sapi_IP_LIMIT; time_period := 60 |})
      | IP_SEC => Ok (Own {| max_rate := sapi_IP_LIMIT_SEC; time_period := 1 |})
      end
  | API => Ok Shared
  end)).

Lemma second_segment_prefix (seg rest : string) :
  forallb (fun c => negb (Ascii.eqb c slash)) (list_ascii_of_string seg) = true ->
  second_segment (String slash (seg ++ String slash rest)) = Ok seg.
Proof.
  intros Hseg. unfold second_segment. cbn [list_ascii_of_string after_slash].
  rewrite Ascii.eqb_refl. f_equal.
  rewrite <- (string_of_list_ascii_of_string seg) at 2. f_equal.
  induction seg as [|c seg IH]; cbn [append list_ascii_of_string before_slash].
  - now rewrite Ascii.eqb_refl.
  - simpl in Hseg. apply andb_prop in Hseg as [Hc Hs].
    apply negb_true_iff in Hc. rewrite Hc. now rewrite IH.
Qed.

(** X23. The limiter of an endpoint follows the first segment of its
    URL: under [/api/] it is the shared one, whatever the limit type;
    under [/sapi/] it is a limiter of its own, 180000 a minute for a UID
    limit, 12000 a minute for an IP limit and 180000 a second for
    [IP_SEC]; under any other segment the construction ends in
    [ValueError]. *)
Theorem limiter_follows_url (seg rest : string) (limit_type : LimitType)
        (Hseg : forallb (fun c => negb (Ascii.eqb c slash))
                        (list_ascii_of_string seg) = true) :
  _limiter (String slash (seg ++ String slash rest)) limit_type
  = if String.eqb seg "api" then Ok Shared
    else if String.eqb seg "sapi" then
      Ok (Own match limit_type with
              | UID => {| max_rate := 180000; time_period := 60 |}
              | IP => {| max_rate := 12000; time_period := 60 |}
              | IP_SEC => {| max_rate := 180000; time_period := 1 |}
              end)
    else Raise ValueError.
Proof.
  unfold _limiter. rewrite second_segment_prefix by assumption.
  cbn [rbind]. unfold ApiType_of.
  destruct (String.eqb seg "api"); [reflexivity|].
  destruct (String.eqb seg "sapi"); [|reflexivity].
  destruct limit_type; reflexivity.
Qed.

Lemma limiter_follows_url_witness :
  _limiter "/api/v3/klines" UID = Ok Shared
  /\ _limiter "/sapi/v1/fiat/orders" UID
     = Ok (Own {| max_rate := 180000; time_period := 60 |})
  /\ _limiter "/fapi/v1/klines" IP = Raise ValueError.
Proof.
  split; [|split].
  - apply (limiter_follows_url "api" "v3/klines" UID). reflexivity.
  - apply (limiter_follows_url "sapi" "v1/fiat/orders" UID). reflexivity.
  - apply (limiter_follows_url "fapi" "v1/klines" IP). reflexivity.
Defined.

(** X24. Every endpoint of the catalog gets a limiter, and its weight is
    positive and within the rate of that limiter; the endpoints under
    [/api/] all draw on the shared one. *)
Theorem catalog_weights_within_limits (e : Endpoints) :
  exists l : limiter,
    _limiter (URL (value e)) (LIMIT_TYPE (value e)) = Ok l
    /\ 0 < WEIGHT (value e) <= max_rate (rates l)
    /\ (In e [SPOT_TRADES; EXCHANGE_INFO; KLINES] <-> l = Shared).
Proof.
  destruct e; eexists; (split; [reflexivity|]);
    (split; [cbv; split; [reflexivity|discriminate]|]);
    cbn; split; intros H;
    try discriminate H; try reflexivity; try tauto;
    repeat (destruct H as [H|H]; [discriminate H|]); contradiction.
Qed.

(** ** [userAsset] *)

Definition userAsset (env : Env) (self : BinanceAsync)
           (asset needBtcValuation : pyval) : M pyval :=
  let params := Dict.of_list [("asset", asset);
                              ("needBtcValuation", needBtcValuation)] in
  _request env self USER_ASSETS (Some params).

(** X25. [userAsset] sends one signed POST to
    [/sapi/v3/asset/getUserAsset] and returns the decoded answer; the
    payload is the asset when one is named (none by default), then
    [needBtcValuation] as ["true"] or ["false"], then the three signing
    fields. *)
Theorem userAsset_request
        (env : Env) (self : BinanceAsync) (asset : pyval)
        (needBtcValuation : bool) (t : trace)
        (Hasset : asset = VNone \/ exists a c, asset = VStr (String c a)) :
  let body := match asset with VNone => [] | _ => [("asset", asset)] end
              ++ [("needBtcValuation",
                   VStr (if needBtcValuation then "true" else "false"))] in
  let signed := body ++ [("recvWindow", _RECV_WINDOW self);
                         ("timestamp", VStr (dec (clock env t)))] in
  let rq := {| rq_method := POST;
               rq_url := "/sapi/v3/asset/getUserAsset";
               rq_params :=
                 signed ++ [("signature",
                             VStr (hmac_sha256_hex env (_SECRET self)
                                                   (urlencode env signed)))] |} in
  userAsset env self asset (VBool needBtcValuation) t
  = (decoded (server env t rq), t ++ [rq]).
Proof.
  intros body signed rq. unfold userAsset. rewrite request_eq.
  assert (Hrq : request_of env self USER_ASSETS
                  (Some (Dict.of_list [("asset", asset);
                                       ("needBtcValuation", VBool needBtcValuation)]))
                  t = rq).
  { unfold request_of, rq. cbn [value METHOD URL SECURITY]. f_equal.
    change (Dict.of_list [("asset", asset);
                          ("needBtcValuation", VBool needBtcValuation)])
      with [("asset", asset); ("needBtcValuation", VBool needBtcValuation)].
    rewrite signed_payload.
    - cbv zeta. unfold signed, body.
      destruct Hasset as [->|(a & c & ->)]; reflexivity.
    - repeat constructor; simpl; intuition discriminate.
    - reflexivity.
    - intros k [<-|[<-|[]]]; reflexivity. }
  now rewrite Hrq.
Qed.

Lemma userAsset_request_witness :
  snd (userAsset (demo_env echo_start []) demo_self VNone (VBool true) [])
  = [{| rq_method := POST;
        rq_url := "/sapi/v3/asset/getUserAsset";
        rq_params := [("needBtcValuation", VStr "true"); ("recvWindow", VStr "5000");
                      ("timestamp", VStr "1700000000000"); ("signature", VStr "")] |}].
Proof.
  rewrite (userAsset_request (demo_env echo_start []) demo_self VNone true []).
  - reflexivity.
  - left. reflexivity.
Defined.

(** ** The public IP ([AsyncExchange._getPublicIP]) *)

(** What the IP service answers: nothing, or a status and a text. *)
Inductive ip_reply : Type :=
| IpUnreachable
| IpAnswer (status : Z) (text : string).

(** One call, from the class attribute [PUBLIC_IP] and the answer the
    service would give: the value returned, the attribute afterwards and
    whether the service was asked.  [raise_for_status] raises for a
    status from 400 on, and every [ClientError] is turned into [None]. *)
Definition _getPublicIP (ipify : ip_reply) (PUBLIC_IP : pyval)
  : pyval * pyval * bool :=
  if py_bool PUBLIC_IP then (PUBLIC_IP, PUBLIC_IP, false)
  else
    match ipify with
    | IpUnreachable => (VNone, PUBLIC_IP, true)
    | IpAnswer status text =>
        if 400 <=? status then (VNone, PUBLIC_IP, true)
        else (VStr text, VStr text, true)
    end.

(** Calls in a row, each with the answer the service would give it: the
    values returned, the attribute at the end, how often the service was
    asked. *)
Fixpoint getPublicIP_calls (answers : list ip_reply) (PUBLIC_IP : pyval)
  : list pyval * pyval * nat :=
  match answers with
  | [] => ([], PUBLIC_IP, 0%nat)
  | a :: answers' =>
      match _getPublicIP a PUBLIC_IP with
      | (r, ip, asked) =>
          match getPublicIP_calls answers' ip with
          | (rs, ip', n) => (r :: rs, ip', if asked then S n else n)
          end
      end
  end.

Lemma getPublicIP_cached (answers : list ip_reply) (text : string) :
  text <> "" ->
  getPublicIP_calls answers (VStr text)
  = (repeat (VStr text) (List.length answers), VStr text, 0%nat).
Proof.
  intros Htext. induction answers as [|a answers IH]; [reflexivity|].
  cbn [getPublicIP_calls]. unfold _getPublicIP.
  assert (Hb : py_bool (VStr text) = true) by (destruct text; [congruence|reflexivity]).
  rewrite Hb, IH. reflexivity.
Qed.

(** A fetch that fails: no connection, or a status from 400 on. *)
Definition fetch_failed (a : ip_reply) : Prop :=
  a = IpUnreachable \/ exists status text, a = IpAnswer status text /\ 400 <= status.

Lemma getPublicIP_failed (a : ip_reply) :
  fetch_failed a -> _getPublicIP a VNone = (VNone, VNone, true).
Proof.
  intros [->|(status & text & -> & Hs)]; [reflexivity|].
  cbn [_getPublicIP py_bool].
  destruct (Z.leb_spec 400 status); [reflexivity|lia].
Qed.

(** X26. A fetch that fails, the service out of reach or answering with a
    status of 400 or above, returns [None] and keeps nothing, so the
    next call asks again.  Once the service has answered with a status
    below 400 and a text that is not empty, the address is fetched no
    more: every later call returns that text without asking, whatever
    the service would answer. *)
Theorem getPublicIP_fetches_once
        (failed : list ip_reply) (status : Z) (text : string)
        (later : list ip_reply)
        (Hfailed : Forall fetch_failed failed)
        (Hok : status < 400)
        (Htext : text <> "") :
  getPublicIP_calls (failed ++ IpAnswer status text :: later) VNone
  = (repeat VNone (List.length failed)
       ++ repeat (VStr text) (S (List.length later)),
     VStr text, S (List.length failed)).
Proof.
  induction Hfailed as [|a failed Ha Hfailed IH].
  - cbn [app List.length repeat getPublicIP_calls _getPublicIP py_bool].
    destruct (Z.leb_spec 400 status); [lia|].
    now rewrite getPublicIP_cached.
  - cbn [app getPublicIP_calls]. rewrite (getPublicIP_failed a Ha), IH.
    reflexivity.
Qed.

Lemma getPublicIP_fetches_once_witness :
  getPublicIP_calls
    [IpUnreachable; IpAnswer 400 "Bad Request"; IpAnswer 200 "203.0.113.7";
     IpUnreachable; IpAnswer 200 "x"] VNone
  = ([VNone; VNone; VStr "203.0.113.7"; VStr "203.0.113.7"; VStr "203.0.113.7"],
     VStr "203.0.113.7", 3%nat).
Proof.
  apply (getPublicIP_fetches_once
           [IpUnreachable; IpAnswer 400 "Bad Request"] 200 "203.0.113.7"
           [IpUnreachable; IpAnswer 200 "x"]).
  - constructor; [now left|]. constructor; [|constructor].
    right. exists 400, "Bad Request". split; [reflexivity|lia].
  - lia.
  - discriminate.
Defined.

(** ** [spotTrades] over a window, [fiat_deposit_withdrawal] *)

(** X27. A [spotTrades] call with a start and an end, the start below the
    end, goes through the splitter in strides of a day, whatever
    [enforceLimit]: it sends one request per day begun, every one of them
    for the window from the last cursor to the end. *)
Theorem spotTrades_window_requests
        (env : Env) (self : BinanceAsync) (fuel : nat) (symbol : string)
        (since until : Z) (orderId fromId : pyval) (limit : Z)
        (enforceLimit : bool) (t : trace)
        (Hsince : since <> 0)
        (Huntil : until <> 0)
        (Hwin : since < until) :
  exists rqs : list request,
    snd (spotTrades env self fuel (VStr symbol) (Some since) (Some until)
                    orderId fromId limit enforceLimit t)
    = t ++ rqs
    /\ Z.of_nat (List.length rqs) = (until - since - 1) / 86400000 + 1
    /\ Forall (fun rq =>
                 slice_sent rq
                 = Some (since + (Z.of_nat (List.length rqs) - 1) * 86400000, until))
              rqs.
Proof.
  destruct (prepareSymbol_str symbol) as [s Hs].
  assert (Hts : time_or_none (Some since) = VInt since).
  { unfold time_or_none, _timestamp.
    destruct (Z.eqb_spec since 0); [contradiction|reflexivity]. }
  assert (Htu : time_or_none (Some until) = VInt until).
  { unfold time_or_none, _timestamp.
    destruct (Z.eqb_spec until 0); [contradiction|reflexivity]. }
  destruct (split_trace env self SPOT_TRADES 86400000 since until
              (spot_params s (Some since) (Some until) orderId fromId limit) t)
    as (rqs & Ht & Hn & Hall).
  - repeat constructor; simpl; intuition discriminate.
  - unfold spot_params. rewrite Hts. reflexivity.
  - unfold spot_params. rewrite Htu. reflexivity.
  - lia.
  - assumption.
  - exists rqs. split; [|split; assumption].
    unfold spotTrades. rewrite Hs. unfold bind at 1, lift at 1.
    rewrite Hts, Htu. cbn [py_bool].
    destruct (Z.eqb_spec since 0); [contradiction|].
    destruct (Z.eqb_spec until 0); [contradiction|].
    cbn [negb andb]. cbv zeta.
    change (1000 * 60 * 60 * 24) with 86400000.
    change (Dict.of_list
              [("symbol", VStr s); ("orderId", orderId); ("startTime", VInt since);
               ("endTime", VInt until); ("fromId", fromId); ("limit", VInt limit)])
      with [("symbol", VStr s); ("orderId", orderId); ("startTime", VInt since);
            ("endTime", VInt until); ("fromId", fromId); ("limit", VInt limit)].
    unfold spot_params in Ht. rewrite Hts, Htu in Ht.
    unfold bind, ret.
    destruct (_split_request_interval env self SPOT_TRADES 86400000 _ None t)
      as [[data|e] t']; exact Ht.
Qed.

Lemma spotTrades_window_requests_witness :
  exists rqs : list request,
    snd (spotTrades (demo_env echo_start []) demo_self 0 (VStr "btc/usdt")
                    (Some 1) (Some 200000000) VNone VNone 1000 true [])
    = rqs
    /\ Z.of_nat (List.length rqs) = 3
    /\ Forall (fun rq => slice_sent rq = Some (172800001, 200000000)) rqs.
Proof.
  destruct (spotTrades_window_requests (demo_env echo_start []) demo_self 0
              "btc/usdt" 1 200000000 VNone VNone 1000 true [])
    as (rqs & Ht & Hn & Hall); try lia.
  exists rqs. split; [exact Ht|]. split; [exact Hn|].
  rewrite Hn in Hall. exact Hall.
Defined.

(** The parameters of the first page of [fiat_deposit_withdrawal]. *)
(** The first page asked of the fiat orders, [code] being what stands for
    the kind of transaction. *)
Definition fiat_page (code : string) (begin_ end_ limit : Z) : dict :=
  [("transactionType", VStr code); ("beginTime", VInt begin_);
   ("endTime", VInt end_); ("rows", VInt limit); ("page", VInt 1)].

(** X28. A [fiat_deposit_withdrawal] call whose first page reports a
    total below the limit sends that one request, for page 1 with the
    limit as rows, ["0"] for a deposit and ["1"] for a withdrawal, the
    times as given, and returns the items of the page. *)
Theorem fiat_single_page
        (env : Env) (self : BinanceAsync) (transactionType : FiatTransactionType)
        (since until limit total status : Z) (body : pyval) (data : list pyval)
        (t : trace)
        (Huntil : until <> 0)
        (Hlimit : 0 < limit)
        (Hreply : server env t
                    (request_of env self FIAT_ORDERS
                       (Some (fiat_page
                                match transactionType with
                                | DEPOSIT => "0"
                                | WITHDRAW => "1"
                                end since until limit)) t)
                  = Reply status (Some body))
        (Hdata : rbind (getitem body "data") iter = Ok data)
        (Htotal : getitem body "total" = Ok (VInt total))
        (Hfew : total < limit) :
  fiat_deposit_withdrawal env self transactionType since (Some until) limit t
  = (Ok (VList data),
     t ++ [request_of env self FIAT_ORDERS
             (Some (fiat_page
                      match transactionType with
                      | DEPOSIT => "0"
                      | WITHDRAW => "1"
                      end since until limit)) t]).
Proof.
  unfold fiat_deposit_withdrawal, bind at 1, _parseTime, _timestamp.
  destruct (Z.eqb_spec until 0); [contradiction|]. cbv beta iota zeta.
  set (code := match transactionType with DEPOSIT => "0" | WITHDRAW => "1" end) in *.
  assert (Hcode : fiat_value transactionType = code)
    by (destruct transactionType; reflexivity).
  rewrite Hcode.
  change (Dict.of_list
            [("transactionType", VStr code);
             ("beginTime", VInt since); ("endTime", VInt until);
             ("rows", VInt limit)])
    with [("transactionType", VStr code);
          ("beginTime", VInt since); ("endTime", VInt until);
          ("rows", VInt limit)].
  change (fiat_page code since until limit)
    with (Dict.set "page" (VInt 1)
            [("transactionType", VStr code);
             ("beginTime", VInt since); ("endTime", VInt until);
             ("rows", VInt limit)]) in *.
  apply (paginated_one_request env self FIAT_ORDERS
           [("transactionType", VStr code);
            ("beginTime", VInt since); ("endTime", VInt until);
            ("rows", VInt limit)]
           "rows" "page" "data" "total" t limit total status body data); auto.
Qed.

Lemma fiat_single_page_witness :
  fiat_deposit_withdrawal (demo_env (echo_page 7) []) demo_self WITHDRAW 1000
                          (Some 2000) 500 []
  = (Ok (VList [VInt 1]),
     [request_of (demo_env (echo_page 7) []) demo_self FIAT_ORDERS
        (Some [("transactionType", VStr "1"); ("beginTime", VInt 1000);
               ("endTime", VInt 2000); ("rows", VInt 500); ("page", VInt 1)])
        []]).
Proof.
  apply (fiat_single_page (demo_env (echo_page 7) []) demo_self WITHDRAW
           1000 2000 500 7 200
           (VDict [("data", VList [VInt 1]); ("total", VInt 7)]) [VInt 1] []);
    try reflexivity; try lia; discriminate.
Defined.
